(** * A shallow embedding of the 2-D GLM-MHD finite-volume solver

    Sources embedded: [grid.hpp]/[grid.cpp] (the [Grid] and [FlowField]
    containers), [solver.cpp] (minmod limiter, fast magnetosonic speed,
    the two HLL flux functions, the CFL timestep, the divergence diagnostics
    and [update_level] / [solve_MHD]), [physics.cpp] (the Orszag-Tang
    initial state and the artificial divergence error) and the time loop
    of [main.cpp].

    Conventions of the embedding:
    - a C++ [double] is a real number of [R]: arithmetic is exact, there is
      no rounding, no infinity and no NaN.  Literals are written as in the
      source ([0.5], [1e-10], ...) and denote the decimal number itself;
      [0.0], [1.0] and [5.0/3.0] are written [0], [1] and [5/3];
    - division is the total division of [R] ([x / 0 = 0]) and [sqrt] of a
      negative number is [0], where C++ yields an infinity or a NaN.  The
      embedding and the code agree on the states in which neither occurs:
      positive spacings and positive density and pressure
      ([positive_state]); the statements about the timestep, the floors,
      the magnetic diffusion and the conservation of mass assume such a
      state, and the concrete states evaluated below are of that kind;
    - a C++ [int] is an integer of [Z] (grid sizes are far from the 32-bit
      limit, no wrap-around is modelled); [%] is the truncating [Z.rem];
    - [std::vector<std::vector<double>>] is a list of rows, [list (list R)];
      reading outside the array (undefined behaviour in C++) yields [0] and
      writing outside is ignored;
    - the OpenMP loops have independent iterations; they are embedded as
      sequential loops in index order;
    - a constructor that may throw returns a [result]; the warnings printed
      on [std::cerr] and the lines printed on [std::cout] are not modelled;
    - [exp], [sin] and [sqrt] are the functions of [R]; the constant [M_PI]
      of [<cmath>] is an argument of the function that uses it. *)

From Stdlib Require Import Reals Lra Lia ZArith List Bool String.
Import ListNotations.

Open Scope Z_scope.
Open Scope R_scope.

(* ================================================================== *)
(** * Exceptions *)

Inductive exn : Type :=
| invalid_argument (msg : string)
| length_error.

Inductive result (A : Type) : Type :=
| Ok (a : A)
| Throw (x : exn).

Arguments Ok {A} a.
Arguments Throw {A} x.

Definition bind {A B : Type} (m : result A) (k : A -> result B) : result B :=
  match m with
  | Ok a => k a
  | Throw x => Throw x
  end.

Notation "x <- m ;; k" := (bind m (fun x => k))
  (at level 61, m at next level, right associativity).

Definition throws {A : Type} (m : result A) : Prop :=
  exists x, m = Throw x.

(* ================================================================== *)
(** * Two-dimensional arrays *)

Definition matrix : Type := list (list R).

(** [std::vector<T>(n, x)]: a negative [int] converted to [size_t] exceeds
    [max_size()] and the constructor throws [std::length_error]. *)
Definition vector_fill {A : Type} (n : Z) (x : A) : result (list A) :=
  if (n <? 0)%Z then Throw length_error else Ok (repeat x (Z.to_nat n)).

Fixpoint list_set {A : Type} (l : list A) (n : nat) (x : A) : list A :=
  match l, n with
  | [], _ => []
  | _ :: t, O => x :: t
  | h :: t, S k => h :: list_set t k x
  end.

(** [a[i][j]] *)
Definition get2 (a : matrix) (i j : Z) : R :=
  if ((i <? 0) || (j <? 0))%Z then 0
  else nth (Z.to_nat j) (nth (Z.to_nat i) a []) 0.

(** [a[i][j] = x] *)
Definition set2 (a : matrix) (i j : Z) (x : R) : matrix :=
  if ((i <? 0) || (j <? 0))%Z then a
  else list_set a (Z.to_nat i)
                (list_set (nth (Z.to_nat i) a []) (Z.to_nat j) x).

(** The array has exactly [n] rows of [m] cells. *)
Definition dims (a : matrix) (n m : Z) : Prop :=
  Z.of_nat (List.length a) = n /\
  Forall (fun r => Z.of_nat (List.length r) = m) a.

(* ================================================================== *)
(** * grid.hpp: Grid and FlowField *)

Record Grid : Type := mkGrid {
  nx : Z; ny : Z;
  dx : R; dy : R;
  x0 : R; y0 : R;
  data : matrix
}.

Record FlowField : Type := mkFlowField {
  fl_rho : Grid; fl_u : Grid; fl_v : Grid; fl_p : Grid; fl_e : Grid;
  fl_bx : Grid; fl_by : Grid; fl_psi : Grid
}.

(** [Grid::Grid]: the member initialisers run first (the inner row vector is
    the argument of the outer one), then the body checks the size. *)
Definition Grid_ctor (nx_ ny_ : Z) (dx_ dy_ x0_ y0_ : R) : result Grid :=
  row <- vector_fill ny_ 0 ;;
  dat <- vector_fill nx_ row ;;
  if ((nx_ <? 3) || (ny_ <? 3))%Z
  then Throw (invalid_argument "Grid size must be at least 3x3")
  else Ok (mkGrid nx_ ny_ dx_ dy_ x0_ y0_ dat).

(** [FlowField::FlowField(int,int,double,double,double,double)] *)
Definition FlowField_ctor (nx_ ny_ : Z) (dx_ dy_ x0_ y0_ : R)
  : result FlowField :=
  g_rho <- Grid_ctor nx_ ny_ dx_ dy_ x0_ y0_ ;;
  g_u <- Grid_ctor nx_ ny_ dx_ dy_ x0_ y0_ ;;
  g_v <- Grid_ctor nx_ ny_ dx_ dy_ x0_ y0_ ;;
  g_p <- Grid_ctor nx_ ny_ dx_ dy_ x0_ y0_ ;;
  g_e <- Grid_ctor nx_ ny_ dx_ dy_ x0_ y0_ ;;
  g_bx <- Grid_ctor nx_ ny_ dx_ dy_ x0_ y0_ ;;
  g_by <- Grid_ctor nx_ ny_ dx_ dy_ x0_ y0_ ;;
  g_psi <- Grid_ctor nx_ ny_ dx_ dy_ x0_ y0_ ;;
  if ((nx_ <? 3) || (ny_ <? 3))%Z
  then Throw (invalid_argument "FlowField grid must be at least 3x3")
  else Ok (mkFlowField g_rho g_u g_v g_p g_e g_bx g_by g_psi).

(** [FlowField::FlowField(const Grid&)] delegates to the constructor above. *)
Definition FlowField_of_Grid (g : Grid) : result FlowField :=
  FlowField_ctor (nx g) (ny g) (dx g) (dy g) (x0 g) (y0 g).


(* ================================================================== *)
(** * Loops *)

Fixpoint range_from (lo : Z) (n : nat) : list Z :=
  match n with
  | O => []
  | S k => lo :: range_from (lo + 1) k
  end.

(** The indices [lo, lo+1, ..., hi-1] of [for (int i = lo; i < hi; ++i)]. *)
Definition range (lo hi : Z) : list Z := range_from lo (Z.to_nat (hi - lo)).

Definition for_loop {S : Type} (lo hi : Z) (body : Z -> S -> S) (s : S) : S :=
  fold_left (fun acc i => body i acc) (range lo hi) s.

Definition for_loop2 {S : Type} (ilo ihi jlo jhi : Z)
           (body : Z -> Z -> S -> S) (s : S) : S :=
  for_loop ilo ihi (fun i => for_loop jlo jhi (fun j => body i j)) s.

(** [Grid::fill] *)
Definition Grid_fill (g : Grid) (x : R) : Grid :=
  mkGrid (nx g) (ny g) (dx g) (dy g) (x0 g) (y0 g)
         (for_loop2 0 (nx g) 0 (ny g) (fun i j a => set2 a i j x) (data g)).

(** Replace the array of a grid, keeping its geometry. *)
Definition with_data (g : Grid) (a : matrix) : Grid :=
  mkGrid (nx g) (ny g) (dx g) (dy g) (x0 g) (y0 g) a.

(* ================================================================== *)
(** * solver.cpp: constants and helpers *)

Definition ETA : R := 0.001.
Definition CH : R := 0.8.
Definition CR : R := 0.01.
Definition gamma_gas : R := 5 / 3.

(** Default argument of [compute_cfl_timestep] (solver.hpp). *)
Definition default_cfl_number : R := 0.2.

Definition laplacian (g : Grid) (i j : Z) : R :=
  (get2 (data g) (i + 1) j - 2 * get2 (data g) i j + get2 (data g) (i - 1) j)
    / (dx g * dx g)
  + (get2 (data g) i (j + 1) - 2 * get2 (data g) i j + get2 (data g) i (j - 1))
    / (dy g * dy g).

Definition minmod (a b : R) : R :=
  if Rle_dec (a * b) 0 then 0
  else if Rlt_dec (Rabs a) (Rabs b) then a else b.

Definition compute_fast_speed (rho p Bx By : R) : R :=
  let cs2 := gamma_gas * p / rho in
  let ca2 := (Bx * Bx + By * By) / rho in
  sqrt (cs2 + ca2).

Record HLLFlux : Type := mkHLLFlux {
  F_rho : R; F_momx : R; F_momy : R; F_E : R; F_Bx : R; F_By : R; F_psi : R
}.

Definition compute_hll_flux_x
           (rhoL uL vL pL BxL ByL psiL rhoR uR vR pR BxR ByR psiR : R)
  : HLLFlux :=
  let B2L := BxL * BxL + ByL * ByL in
  let B2R := BxR * BxR + ByR * ByR in
  let ptL := pL + 0.5 * B2L in
  let ptR := pR + 0.5 * B2R in
  let EL := pL / (gamma_gas - 1) + 0.5 * rhoL * (uL * uL + vL * vL) + 0.5 * B2L in
  let ER := pR / (gamma_gas - 1) + 0.5 * rhoR * (uR * uR + vR * vR) + 0.5 * B2R in
  let cfL := compute_fast_speed rhoL pL BxL ByL in
  let cfR := compute_fast_speed rhoR pR BxR ByR in
  let SL := Rmin (uL - cfL) (uR - cfR) in
  let SR := Rmax (uL + cfL) (uR + cfR) in
  if Rgt_dec SL 0 then
    mkHLLFlux (rhoL * uL)
              (rhoL * uL * uL + ptL - BxL * BxL)
              (rhoL * uL * vL - BxL * ByL)
              ((EL + ptL) * uL - BxL * (uL * BxL + vL * ByL))
              psiL
              (uL * ByL - vL * BxL)
              (CH * CH * BxL)
  else if Rlt_dec SR 0 then
    mkHLLFlux (rhoR * uR)
              (rhoR * uR * uR + ptR - BxR * BxR)
              (rhoR * uR * vR - BxR * ByR)
              ((ER + ptR) * uR - BxR * (uR * BxR + vR * ByR))
              psiR
              (uR * ByR - vR * BxR)
              (CH * CH * BxR)
  else
    let FL_rho := rhoL * uL in
    let FR_rho := rhoR * uR in
    let FL_momx := rhoL * uL * uL + ptL - BxL * BxL in
    let FR_momx := rhoR * uR * uR + ptR - BxR * BxR in
    let FL_momy := rhoL * uL * vL - BxL * ByL in
    let FR_momy := rhoR * uR * vR - BxR * ByR in
    let FL_E := (EL + ptL) * uL - BxL * (uL * BxL + vL * ByL) in
    let FR_E := (ER + ptR) * uR - BxR * (uR * BxR + vR * ByR) in
    let FL_By := uL * ByL - vL * BxL in
    let FR_By := uR * ByR - vR * BxR in
    mkHLLFlux
      ((SR * FL_rho - SL * FR_rho + SL * SR * (rhoR - rhoL)) / (SR - SL))
      ((SR * FL_momx - SL * FR_momx + SL * SR * (rhoR * uR - rhoL * uL)) / (SR - SL))
      ((SR * FL_momy - SL * FR_momy + SL * SR * (rhoR * vR - rhoL * vL)) / (SR - SL))
      ((SR * FL_E - SL * FR_E + SL * SR * (ER - EL)) / (SR - SL))
      ((SR * psiL - SL * psiR + SL * SR * (BxR - BxL)) / (SR - SL))
      ((SR * FL_By - SL * FR_By + SL * SR * (ByR - ByL)) / (SR - SL))
      (CH * CH * (SR * BxL - SL * BxR + SL * SR * (psiR - psiL)) / (SR - SL)).

Definition compute_hll_flux_y
           (rhoL uL vL pL BxL ByL psiL rhoR uR vR pR BxR ByR psiR : R)
  : HLLFlux :=
  let B2L := BxL * BxL + ByL * ByL in
  let B2R := BxR * BxR + ByR * ByR in
  let ptL := pL + 0.5 * B2L in
  let ptR := pR + 0.5 * B2R in
  let EL := pL / (gamma_gas - 1) + 0.5 * rhoL * (uL * uL + vL * vL) + 0.5 * B2L in
  let ER := pR / (gamma_gas - 1) + 0.5 * rhoR * (uR * uR + vR * vR) + 0.5 * B2R in
  let cfL := compute_fast_speed rhoL pL BxL ByL in
  let cfR := compute_fast_speed rhoR pR BxR ByR in
  let SL := Rmin (vL - cfL) (vR - cfR) in
  let SR := Rmax (vL + cfL) (vR + cfR) in
  if Rgt_dec SL 0 then
    mkHLLFlux (rhoL * vL)
              (rhoL * vL * uL - ByL * BxL)
              (rhoL * vL * vL + ptL - ByL * ByL)
              ((EL + ptL) * vL - ByL * (uL * BxL + vL * ByL))
              (vL * BxL - uL * ByL)
              psiL
              (CH * CH * ByL)
  else if Rlt_dec SR 0 then
    mkHLLFlux (rhoR * vR)
              (rhoR * vR * uR - ByR * BxR)
              (rhoR * vR * vR + ptR - ByR * ByR)
              ((ER + ptR) * vR - ByR * (uR * BxR + vR * ByR))
              (vR * BxR - uR * ByR)
              psiR
              (CH * CH * ByR)
  else
    let FL_rho := rhoL * vL in
    let FR_rho := rhoR * vR in
    let FL_momx := rhoL * vL * uL - ByL * BxL in
    let FR_momx := rhoR * vR * uR - ByR * BxR in
    let FL_momy := rhoL * vL * vL + ptL - ByL * ByL in
    let FR_momy := rhoR * vR * vR + ptR - ByR * ByR in
    let FL_E := (EL + ptL) * vL - ByL * (uL * BxL + vL * ByL) in
    let FR_E := (ER + ptR) * vR - ByR * (uR * BxR + vR * ByR) in
    let FL_Bx := vL * BxL - uL * ByL in
    let FR_Bx := vR * BxR - uR * ByR in
    mkHLLFlux
      ((SR * FL_rho - SL * FR_rho + SL * SR * (rhoR - rhoL)) / (SR - SL))
      ((SR * FL_momx - SL * FR_momx + SL * SR * (rhoR * uR - rhoL * uL)) / (SR - SL))
      ((SR * FL_momy - SL * FR_momy + SL * SR * (rhoR * vR - rhoL * vL)) / (SR - SL))
      ((SR * FL_E - SL * FR_E + SL * SR * (ER - EL)) / (SR - SL))
      ((SR * FL_Bx - SL * FR_Bx + SL * SR * (BxR - BxL)) / (SR - SL))
      ((SR * psiL - SL * psiR + SL * SR * (ByR - ByL)) / (SR - SL))
      (CH * CH * (SR * ByL - SL * ByR + SL * SR * (psiR - psiL)) / (SR - SL)).

(** Candidate timestep of one cell: [std::min(dt_x, dt_y)] in the loop body
    of [compute_cfl_timestep]. *)
Definition cell_dt (flow : FlowField) (i j : Z) : R :=
  let grid := fl_rho flow in
  let rho := get2 (data (fl_rho flow)) i j in
  let u := get2 (data (fl_u flow)) i j in
  let v := get2 (data (fl_v flow)) i j in
  let p := get2 (data (fl_p flow)) i j in
  let Bx := get2 (data (fl_bx flow)) i j in
  let By := get2 (data (fl_by flow)) i j in
  let cf := compute_fast_speed rho p Bx By in
  let dt_x := dx grid / (Rabs u + cf) in
  let dt_y := dy grid / (Rabs v + cf) in
  Rmin dt_x dt_y.

Definition compute_cfl_timestep (flow : FlowField) (cfl_number : R) : R :=
  let grid := fl_rho flow in
  let dt_min :=
    for_loop2 1 (nx grid - 1) 1 (ny grid - 1)
              (fun i j dt_min => Rmin dt_min (cell_dt flow i j)) 1e10 in
  let dt_glm := Rmin (dx grid) (dy grid) / CH in
  let dt_min :=
    if Rgt_dec dt_min 1 then Rmin (dx grid) (dy grid) / CH else dt_min in
  cfl_number * Rmin dt_min dt_glm.

(** The centered difference [divB] of one cell in
    [compute_divergence_errors]; the geometry is that of [flow.bx]. *)
Definition divB_at (flow : FlowField) (i j : Z) : R :=
  let grid := fl_bx flow in
  (get2 (data (fl_bx flow)) (i + 1) j - get2 (data (fl_bx flow)) (i - 1) j)
    / (2 * dx grid)
  + (get2 (data (fl_by flow)) i (j + 1) - get2 (data (fl_by flow)) i (j - 1))
    / (2 * dy grid).

(** The three reduction variables of [compute_divergence_errors]. *)
Record DivAcc : Type := mkDivAcc {
  max_divB : R; L1_divB : R; count : Z
}.

Definition divergence_body (flow : FlowField) (i j : Z) (a : DivAcc) : DivAcc :=
  let abs_divB := Rabs (divB_at flow i j) in
  mkDivAcc (Rmax (max_divB a) abs_divB) (L1_divB a + abs_divB) (count a + 1).

(** [compute_divergence_errors]: the pair [{max_divB, L1_divB}], the second
    component after [L1_divB /= count]. *)
Definition compute_divergence_errors (flow : FlowField) : R * R :=
  let grid := fl_bx flow in
  let a := for_loop2 1 (nx grid - 1) 1 (ny grid - 1) (divergence_body flow)
                     (mkDivAcc 0 0 0) in
  (max_divB a, L1_divB a / IZR (count a)).

(* ================================================================== *)
(** * solver.cpp: update_level *)

(** The fourteen limited-slope arrays, seven per axis. *)
Record Slopes : Type := mkSlopes {
  srho : matrix; su : matrix; sv : matrix; sp : matrix;
  sbx : matrix; sby : matrix; spsi : matrix
}.

(** The temporary arrays of the conserved variables. *)
Record Bufs : Type := mkBufs {
  rho_new : matrix; momx_new : matrix; momy_new : matrix; e_new : matrix;
  bx_new : matrix; by_new : matrix; psi_new : matrix
}.

(** [std::vector<std::vector<double>>(nx, std::vector<double>(ny))],
    value-initialised to [0.0] (and zeroed again by [zero_slopes]). *)
Definition zeros (n m : Z) : matrix :=
  repeat (repeat 0 (Z.to_nat m)) (Z.to_nat n).

Definition zero_slopes (n m : Z) : Slopes :=
  mkSlopes (zeros n m) (zeros n m) (zeros n m) (zeros n m)
           (zeros n m) (zeros n m) (zeros n m).

(** [minmod(a[i][j]-a[i-1][j], a[i+1][j]-a[i][j])] *)
Definition slope_x_at (a : matrix) (i j : Z) : R :=
  minmod (get2 a i j - get2 a (i - 1) j) (get2 a (i + 1) j - get2 a i j).

(** [minmod(a[i][j]-a[i][j-1], a[i][j+1]-a[i][j])] *)
Definition slope_y_at (a : matrix) (i j : Z) : R :=
  minmod (get2 a i j - get2 a i (j - 1)) (get2 a i (j + 1) - get2 a i j).

Definition slope_body (at_ : matrix -> Z -> Z -> R) (flow : FlowField)
           (i j : Z) (s : Slopes) : Slopes :=
  mkSlopes (set2 (srho s) i j (at_ (data (fl_rho flow)) i j))
           (set2 (su s) i j (at_ (data (fl_u flow)) i j))
           (set2 (sv s) i j (at_ (data (fl_v flow)) i j))
           (set2 (sp s) i j (at_ (data (fl_p flow)) i j))
           (set2 (sbx s) i j (at_ (data (fl_bx flow)) i j))
           (set2 (sby s) i j (at_ (data (fl_by flow)) i j))
           (set2 (spsi s) i j (at_ (data (fl_psi flow)) i j)).

(** "Slopes in X direction": [i] in [1, nx-1), [j] in [0, ny). *)
Definition compute_slopes_x (flow : FlowField) : Slopes :=
  let grid := fl_rho flow in
  for_loop2 1 (nx grid - 1) 0 (ny grid) (slope_body slope_x_at flow)
            (zero_slopes (nx grid) (ny grid)).

(** "Slopes in Y direction": [i] in [0, nx), [j] in [1, ny-1). *)
Definition compute_slopes_y (flow : FlowField) : Slopes :=
  let grid := fl_rho flow in
  for_loop2 0 (nx grid) 1 (ny grid - 1) (slope_body slope_y_at flow)
            (zero_slopes (nx grid) (ny grid)).

(** "First compute momentum": body of the loop over the whole grid. *)
Definition momentum_body (flow : FlowField) (i j : Z) (b : Bufs) : Bufs :=
  mkBufs (rho_new b)
         (set2 (momx_new b) i j
               (get2 (data (fl_rho flow)) i j * get2 (data (fl_u flow)) i j))
         (set2 (momy_new b) i j
               (get2 (data (fl_rho flow)) i j * get2 (data (fl_v flow)) i j))
         (e_new b) (bx_new b) (by_new b) (psi_new b).

(** The four face fluxes of cell [(i,j)], with MUSCL-reconstructed states. *)
Definition flux_xp (flow : FlowField) (sx : Slopes) (i j : Z) : HLLFlux :=
  compute_hll_flux_x
    (get2 (data (fl_rho flow)) i j + 0.5 * get2 (srho sx) i j)
    (get2 (data (fl_u flow)) i j + 0.5 * get2 (su sx) i j)
    (get2 (data (fl_v flow)) i j + 0.5 * get2 (sv sx) i j)
    (get2 (data (fl_p flow)) i j + 0.5 * get2 (sp sx) i j)
    (get2 (data (fl_bx flow)) i j + 0.5 * get2 (sbx sx) i j)
    (get2 (data (fl_by flow)) i j + 0.5 * get2 (sby sx) i j)
    (get2 (data (fl_psi flow)) i j + 0.5 * get2 (spsi sx) i j)
    (get2 (data (fl_rho flow)) (i + 1) j - 0.5 * get2 (srho sx) (i + 1) j)
    (get2 (data (fl_u flow)) (i + 1) j - 0.5 * get2 (su sx) (i + 1) j)
    (get2 (data (fl_v flow)) (i + 1) j - 0.5 * get2 (sv sx) (i + 1) j)
    (get2 (data (fl_p flow)) (i + 1) j - 0.5 * get2 (sp sx) (i + 1) j)
    (get2 (data (fl_bx flow)) (i + 1) j - 0.5 * get2 (sbx sx) (i + 1) j)
    (get2 (data (fl_by flow)) (i + 1) j - 0.5 * get2 (sby sx) (i + 1) j)
    (get2 (data (fl_psi flow)) (i + 1) j - 0.5 * get2 (spsi sx) (i + 1) j).

Definition flux_xm (flow : FlowField) (sx : Slopes) (i j : Z) : HLLFlux :=
  compute_hll_flux_x
    (get2 (data (fl_rho flow)) (i - 1) j + 0.5 * get2 (srho sx) (i - 1) j)
    (get2 (data (fl_u flow)) (i - 1) j + 0.5 * get2 (su sx) (i - 1) j)
    (get2 (data (fl_v flow)) (i - 1) j + 0.5 * get2 (sv sx) (i - 1) j)
    (get2 (data (fl_p flow)) (i - 1) j + 0.5 * get2 (sp sx) (i - 1) j)
    (get2 (data (fl_bx flow)) (i - 1) j + 0.5 * get2 (sbx sx) (i - 1) j)
    (get2 (data (fl_by flow)) (i - 1) j + 0.5 * get2 (sby sx) (i - 1) j)
    (get2 (data (fl_psi flow)) (i - 1) j + 0.5 * get2 (spsi sx) (i - 1) j)
    (get2 (data (fl_rho flow)) i j - 0.5 * get2 (srho sx) i j)
    (get2 (data (fl_u flow)) i j - 0.5 * get2 (su sx) i j)
    (get2 (data (fl_v flow)) i j - 0.5 * get2 (sv sx) i j)
    (get2 (data (fl_p flow)) i j - 0.5 * get2 (sp sx) i j)
    (get2 (data (fl_bx flow)) i j - 0.5 * get2 (sbx sx) i j)
    (get2 (data (fl_by flow)) i j - 0.5 * get2 (sby sx) i j)
    (get2 (data (fl_psi flow)) i j - 0.5 * get2 (spsi sx) i j).

Definition flux_yp (flow : FlowField) (sy : Slopes) (i j : Z) : HLLFlux :=
  compute_hll_flux_y
    (get2 (data (fl_rho flow)) i j + 0.5 * get2 (srho sy) i j)
    (get2 (data (fl_u flow)) i j + 0.5 * get2 (su sy) i j)
    (get2 (data (fl_v flow)) i j + 0.5 * get2 (sv sy) i j)
    (get2 (data (fl_p flow)) i j + 0.5 * get2 (sp sy) i j)
    (get2 (data (fl_bx flow)) i j + 0.5 * get2 (sbx sy) i j)
    (get2 (data (fl_by flow)) i j + 0.5 * get2 (sby sy) i j)
    (get2 (data (fl_psi flow)) i j + 0.5 * get2 (spsi sy) i j)
    (get2 (data (fl_rho flow)) i (j + 1) - 0.5 * get2 (srho sy) i (j + 1))
    (get2 (data (fl_u flow)) i (j + 1) - 0.5 * get2 (su sy) i (j + 1))
    (get2 (data (fl_v flow)) i (j + 1) - 0.5 * get2 (sv sy) i (j + 1))
    (get2 (data (fl_p flow)) i (j + 1) - 0.5 * get2 (sp sy) i (j + 1))
    (get2 (data (fl_bx flow)) i (j + 1) - 0.5 * get2 (sbx sy) i (j + 1))
    (get2 (data (fl_by flow)) i (j + 1) - 0.5 * get2 (sby sy) i (j + 1))
    (get2 (data (fl_psi flow)) i (j + 1) - 0.5 * get2 (spsi sy) i (j + 1)).

Definition flux_ym (flow : FlowField) (sy : Slopes) (i j : Z) : HLLFlux :=
  compute_hll_flux_y
    (get2 (data (fl_rho flow)) i (j - 1) + 0.5 * get2 (srho sy) i (j - 1))
    (get2 (data (fl_u flow)) i (j - 1) + 0.5 * get2 (su sy) i (j - 1))
    (get2 (data (fl_v flow)) i (j - 1) + 0.5 * get2 (sv sy) i (j - 1))
    (get2 (data (fl_p flow)) i (j - 1) + 0.5 * get2 (sp sy) i (j - 1))
    (get2 (data (fl_bx flow)) i (j - 1) + 0.5 * get2 (sbx sy) i (j - 1))
    (get2 (data (fl_by flow)) i (j - 1) + 0.5 * get2 (sby sy) i (j - 1))
    (get2 (data (fl_psi flow)) i (j - 1) + 0.5 * get2 (spsi sy) i (j - 1))
    (get2 (data (fl_rho flow)) i j - 0.5 * get2 (srho sy) i j)
    (get2 (data (fl_u flow)) i j - 0.5 * get2 (su sy) i j)
    (get2 (data (fl_v flow)) i j - 0.5 * get2 (sv sy) i j)
    (get2 (data (fl_p flow)) i j - 0.5 * get2 (sp sy) i j)
    (get2 (data (fl_bx flow)) i j - 0.5 * get2 (sbx sy) i j)
    (get2 (data (fl_by flow)) i j - 0.5 * get2 (sby sy) i j)
    (get2 (data (fl_psi flow)) i j - 0.5 * get2 (spsi sy) i j).

(** The finite-volume difference
    [U - dt/dx*(Fxp - Fxm) - dt/dy*(Fyp - Fym)] of one flux component. *)
Definition fv_update (grid : Grid) (dt U fxp fxm fyp fym : R) : R :=
  U - dt / dx grid * (fxp - fxm) - dt / dy grid * (fyp - fym).

(** Body of the "Update using HLL solver" loop.  The successive assignments
    to the cell [(i,j)] of one array are chained as local values (each [let]
    below is one assignment of the source, in source order) and the final
    value is stored; the warning printed on [std::cerr] is not modelled. *)
Definition update_cell (flow : FlowField) (sx sy : Slopes) (dt nu : R)
           (i j : Z) (b : Bufs) : Bufs :=
  let grid := fl_rho flow in
  let rho := get2 (data (fl_rho flow)) i j in
  let u := get2 (data (fl_u flow)) i j in
  let v := get2 (data (fl_v flow)) i j in
  let Bx := get2 (data (fl_bx flow)) i j in
  let By := get2 (data (fl_by flow)) i j in
  let psi := get2 (data (fl_psi flow)) i j in
  let fxp := flux_xp flow sx i j in
  let fxm := flux_xm flow sx i j in
  let fyp := flux_yp flow sy i j in
  let fym := flux_ym flow sy i j in
  let rho_ij :=
    fv_update grid dt rho (F_rho fxp) (F_rho fxm) (F_rho fyp) (F_rho fym) in
  let momx_ij :=
    fv_update grid dt (get2 (momx_new b) i j)
              (F_momx fxp) (F_momx fxm) (F_momx fyp) (F_momx fym) in
  let momy_ij :=
    fv_update grid dt (get2 (momy_new b) i j)
              (F_momy fxp) (F_momy fxm) (F_momy fyp) (F_momy fym) in
  let e_ij :=
    fv_update grid dt (get2 (data (fl_e flow)) i j)
              (F_E fxp) (F_E fxm) (F_E fyp) (F_E fym) in
  let ke_temp := 0.5 * rho_ij * (u * u + v * v) in
  let me_temp :=
    0.5 * (get2 (bx_new b) i j * get2 (bx_new b) i j
           + get2 (by_new b) i j * get2 (by_new b) i j) in
  let e_ij :=
    if Rlt_dec e_ij (ke_temp + me_temp + 1e-10)
    then ke_temp + me_temp + 1e-10 else e_ij in
  let bx_ij :=
    fv_update grid dt Bx (F_Bx fxp) (F_Bx fxm) (F_Bx fyp) (F_Bx fym) in
  let by_ij :=
    fv_update grid dt By (F_By fxp) (F_By fxm) (F_By fyp) (F_By fym) in
  let psi_ij :=
    fv_update grid dt psi (F_psi fxp) (F_psi fxm) (F_psi fyp) (F_psi fym) in
  let momx_ij :=
    if Rgt_dec nu 0 then momx_ij + dt * nu * rho * laplacian (fl_u flow) i j
    else momx_ij in
  let momy_ij :=
    if Rgt_dec nu 0 then momy_ij + dt * nu * rho * laplacian (fl_v flow) i j
    else momy_ij in
  let bx_ij :=
    if Rgt_dec ETA 0 then bx_ij + dt * ETA * laplacian (fl_bx flow) i j
    else bx_ij in
  let by_ij :=
    if Rgt_dec ETA 0 then by_ij + dt * ETA * laplacian (fl_by flow) i j
    else by_ij in
  let rho_ij := Rmax rho_ij 1e-10 in
  let e_ij := Rmax e_ij 1e-10 in
  mkBufs (set2 (rho_new b) i j rho_ij)
         (set2 (momx_new b) i j momx_ij)
         (set2 (momy_new b) i j momy_ij)
         (set2 (e_new b) i j e_ij)
         (set2 (bx_new b) i j bx_ij)
         (set2 (by_new b) i j by_ij)
         (set2 (psi_new b) i j psi_ij).

(** Body of the "Update primitive variables" loop ([flow.psi] is not
    assigned there). *)
Definition commit_cell (b : Bufs) (i j : Z) (flow : FlowField) : FlowField :=
  let u_ij := get2 (momx_new b) i j / get2 (rho_new b) i j in
  let v_ij := get2 (momy_new b) i j / get2 (rho_new b) i j in
  let ke := 0.5 * get2 (rho_new b) i j * (u_ij * u_ij + v_ij * v_ij) in
  let me := 0.5 * (get2 (bx_new b) i j * get2 (bx_new b) i j
                   + get2 (by_new b) i j * get2 (by_new b) i j) in
  let ie := get2 (e_new b) i j - ke - me in
  mkFlowField
    (with_data (fl_rho flow)
               (set2 (data (fl_rho flow)) i j (get2 (rho_new b) i j)))
    (with_data (fl_u flow) (set2 (data (fl_u flow)) i j u_ij))
    (with_data (fl_v flow) (set2 (data (fl_v flow)) i j v_ij))
    (with_data (fl_p flow)
               (set2 (data (fl_p flow)) i j ((gamma_gas - 1) * Rmax ie 1e-10)))
    (with_data (fl_e flow)
               (set2 (data (fl_e flow)) i j (get2 (e_new b) i j)))
    (with_data (fl_bx flow)
               (set2 (data (fl_bx flow)) i j (get2 (bx_new b) i j)))
    (with_data (fl_by flow)
               (set2 (data (fl_by flow)) i j (get2 (by_new b) i j)))
    (fl_psi flow).

(** Apply the same array transformation to all eight fields. *)
Definition map_fields (f : matrix -> matrix) (flow : FlowField) : FlowField :=
  mkFlowField
    (with_data (fl_rho flow) (f (data (fl_rho flow))))
    (with_data (fl_u flow) (f (data (fl_u flow))))
    (with_data (fl_v flow) (f (data (fl_v flow))))
    (with_data (fl_p flow) (f (data (fl_p flow))))
    (with_data (fl_e flow) (f (data (fl_e flow))))
    (with_data (fl_bx flow) (f (data (fl_bx flow))))
    (with_data (fl_by flow) (f (data (fl_by flow))))
    (with_data (fl_psi flow) (f (data (fl_psi flow)))).

(** One field, one [j]: the two assignments of the X periodic boundary. *)
Definition bc_x_field (n : Z) (j : Z) (a : matrix) : matrix :=
  let left_src := Z.rem (n + 0 - 2) n in
  let right_src := Z.rem (n - 1 + 2) n in
  let a := set2 a 0 j (get2 a left_src j) in
  set2 a (n - 1) j (get2 a right_src j).

(** One field, one [i]: the two assignments of the Y periodic boundary. *)
Definition bc_y_field (m : Z) (i : Z) (a : matrix) : matrix :=
  let bot_src := Z.rem (m + 0 - 2) m in
  let top_src := Z.rem (m - 1 + 2) m in
  let a := set2 a i 0 (get2 a i bot_src) in
  set2 a i (m - 1) (get2 a i top_src).

(** Body of the "GLM divergence cleaning including boundaries" loop. *)
Definition glm_cell (grid : Grid) (b : Bufs) (dt : R) (i j : Z)
           (flow : FlowField) : FlowField :=
  let ip := Z.rem (i + 1) (nx grid) in
  let im := Z.rem (i - 1 + nx grid) (nx grid) in
  let jp := Z.rem (j + 1) (ny grid) in
  let jm := Z.rem (j - 1 + ny grid) (ny grid) in
  let divB_new :=
    (get2 (bx_new b) ip j - get2 (bx_new b) im j) / (2 * dx grid)
    + (get2 (by_new b) i jp - get2 (by_new b) i jm) / (2 * dy grid) in
  mkFlowField
    (fl_rho flow) (fl_u flow) (fl_v flow) (fl_p flow) (fl_e flow)
    (fl_bx flow) (fl_by flow)
    (with_data (fl_psi flow)
       (set2 (data (fl_psi flow)) i j
             (get2 (psi_new b) i j - dt * CH * CH * divB_new
              - dt * CR * get2 (psi_new b) i j))).

(** The temporary arrays as they are declared: copies of the current
    fields, and fresh arrays for the momenta. *)
Definition init_bufs (flow : FlowField) : Bufs :=
  let grid := fl_rho flow in
  mkBufs (data (fl_rho flow))
         (zeros (nx grid) (ny grid))
         (zeros (nx grid) (ny grid))
         (data (fl_e flow))
         (data (fl_bx flow))
         (data (fl_by flow))
         (data (fl_psi flow)).

(** The temporary arrays after the main loop, for a given (clamped) [dt]. *)
Definition final_bufs (flow : FlowField) (dt nu : R) : Bufs :=
  let grid := fl_rho flow in
  let b := init_bufs flow in
  let sx := compute_slopes_x flow in
  let sy := compute_slopes_y flow in
  let b := for_loop2 0 (nx grid) 0 (ny grid) (momentum_body flow) b in
  for_loop2 1 (nx grid - 1) 1 (ny grid - 1) (update_cell flow sx sy dt nu) b.

(** Everything [update_level] does after the timestep has been clamped. *)
Definition step_with_dt (flow : FlowField) (dt nu : R) : FlowField :=
  let grid := fl_rho flow in
  let b := final_bufs flow dt nu in
  let flow :=
    for_loop2 1 (nx grid - 1) 1 (ny grid - 1) (commit_cell b) flow in
  let flow :=
    for_loop 0 (ny grid) (fun j => map_fields (bc_x_field (nx grid) j)) flow in
  let flow :=
    for_loop 0 (nx grid) (fun i => map_fields (bc_y_field (ny grid) i)) flow in
  for_loop2 0 (nx grid) 0 (ny grid) (glm_cell grid b dt) flow.

Definition update_level (flow : FlowField) (dt nu : R) : FlowField :=
  let dt_cfl := compute_cfl_timestep flow default_cfl_number in
  let dt := Rmin dt dt_cfl in
  step_with_dt flow dt nu.

(** What a C++ call hands back to its caller. *)
Inductive retval : Type :=
| Void
| Double (r : R).

(** [void solve_MHD(FlowField& flow, double dt, double nu)]: the updated
    [flow] (passed by reference) and the returned value. *)
Definition solve_MHD (flow : FlowField) (dt nu : R) : FlowField * retval :=
  (update_level flow dt nu, Void).

(* ================================================================== *)
(** * physics.cpp *)

(** Default argument of [add_divergence_error] (physics.hpp). *)
Definition default_amplitude : R := 0.1.

(** Body of the loop of [add_divergence_error]: both assignments use the
    coordinates of [flow.bx]. *)
Definition add_divergence_cell (amplitude : R) (i j : Z) (flow : FlowField)
  : FlowField :=
  let x := x0 (fl_bx flow) + IZR i * dx (fl_bx flow) - 0.5 in
  let y := y0 (fl_bx flow) + IZR j * dy (fl_bx flow) - 0.5 in
  mkFlowField
    (fl_rho flow) (fl_u flow) (fl_v flow) (fl_p flow) (fl_e flow)
    (with_data (fl_bx flow)
       (set2 (data (fl_bx flow)) i j
             (get2 (data (fl_bx flow)) i j
              + amplitude * x * exp (- (x * x + y * y) / 0.1))))
    (with_data (fl_by flow)
       (set2 (data (fl_by flow)) i j
             (get2 (data (fl_by flow)) i j
              + amplitude * y * exp (- (x * x + y * y) / 0.1))))
    (fl_psi flow).

Definition add_divergence_error (flow : FlowField) (amplitude : R)
  : FlowField :=
  for_loop2 1 (nx (fl_bx flow) - 1) 1 (ny (fl_bx flow) - 1)
            (add_divergence_cell amplitude) flow.

(** Body of the loop of [initialize_orszag_tang].  [M_PI] is the constant
    of [<cmath>]; it is an argument here.  The values just assigned to the
    cell are read back as local values; the lines printed on [std::cout]
    are not modelled. *)
Definition orszag_tang_cell (M_PI : R) (i j : Z) (flow : FlowField)
  : FlowField :=
  let gamma := 5 / 3 in
  let B0 := 1 / sqrt (4 * M_PI) in
  let rho0 := gamma in
  let p0 := gamma in
  let x := IZR i / IZR (nx (fl_rho flow) - 1) in
  let y := IZR j / IZR (ny (fl_rho flow) - 1) in
  let rho_ij := rho0 in
  let u_ij := - sin (2 * M_PI * y) in
  let v_ij := sin (2 * M_PI * x) in
  let p_ij := p0 in
  let bx_ij := - B0 * sin (2 * M_PI * y) in
  let by_ij := B0 * sin (4 * M_PI * x) in
  let psi_ij := 0 in
  let ke := 0.5 * rho_ij * (u_ij * u_ij + v_ij * v_ij) in
  let be := 0.5 * (bx_ij * bx_ij + by_ij * by_ij) in
  let ie := p_ij / (gamma - 1) in
  mkFlowField
    (with_data (fl_rho flow) (set2 (data (fl_rho flow)) i j rho_ij))
    (with_data (fl_u flow) (set2 (data (fl_u flow)) i j u_ij))
    (with_data (fl_v flow) (set2 (data (fl_v flow)) i j v_ij))
    (with_data (fl_p flow) (set2 (data (fl_p flow)) i j p_ij))
    (with_data (fl_e flow) (set2 (data (fl_e flow)) i j (ke + ie + be)))
    (with_data (fl_bx flow) (set2 (data (fl_bx flow)) i j bx_ij))
    (with_data (fl_by flow) (set2 (data (fl_by flow)) i j by_ij))
    (with_data (fl_psi flow) (set2 (data (fl_psi flow)) i j psi_ij)).

Definition initialize_orszag_tang (M_PI : R) (flow : FlowField) : FlowField :=
  for_loop2 0 (nx (fl_rho flow)) 0 (ny (fl_rho flow))
            (orszag_tang_cell M_PI) flow.

(* ================================================================== *)
(** * main.cpp: the time loop *)

(** The timestep of one pass: [dt = compute_cfl_timestep(flow)], then
    [if (t + dt > t_end) dt = t_end - t]. *)
Definition loop_dt (flow : FlowField) (t t_end : R) : R :=
  let dt := compute_cfl_timestep flow default_cfl_number in
  if Rgt_dec (t + dt) t_end then t_end - t else dt.

(** The loop [for (step = 0; step <= max_steps && t < t_end; ++step)] of
    [main], with [passes] the number of values [step] may still take; the
    state is the pair of [flow] and [t].  The lines printed and the files
    written every [output_every] steps do not act on that state and are
    not modelled. *)
Fixpoint time_loop (passes : nat) (nu t_end : R) (flow : FlowField) (t : R)
  : FlowField * R :=
  match passes with
  | O => (flow, t)
  | S k =>
      if Rlt_dec t t_end then
        let dt := loop_dt flow t t_end in
        let flow := fst (solve_MHD flow dt nu) in
        time_loop k nu t_end flow (t + dt)
      else (flow, t)
  end.

(* ================================================================== *)
(** * Definitions used to state the properties *)

(** The index pairs visited by a doubly nested loop, in visiting order. *)
Definition idx2 (ilo ihi jlo jhi : Z) : list (Z * Z) :=
  flat_map (fun i => map (pair i) (range jlo jhi)) (range ilo ihi).

(** Cell [(i,j)] lies in an [n] by [m] array. *)
Definition in_grid (n m i j : Z) : Prop :=
  (0 <= i < n)%Z /\ (0 <= j < m)%Z.

(** Cell [(i,j)] is an interior cell of an [n] by [m] array. *)
Definition interior (n m i j : Z) : Prop :=
  (1 <= i < n - 1)%Z /\ (1 <= j < m - 1)%Z.

(** Selectors for the arrays of the three aggregate states, so that a fact
    can be stated once for all the arrays of a state. *)
Inductive ssel : Type := Srho | Su | Sv | Sp | Sbx | Sby | Spsi.

Definition sproj (k : ssel) (s : Slopes) : matrix :=
  match k with
  | Srho => srho s | Su => su s | Sv => sv s | Sp => sp s
  | Sbx => sbx s | Sby => sby s | Spsi => spsi s
  end.

Inductive bsel : Type := Brho | Bmomx | Bmomy | Be | Bbx | Bby | Bpsi.

Definition bproj (k : bsel) (b : Bufs) : matrix :=
  match k with
  | Brho => rho_new b | Bmomx => momx_new b | Bmomy => momy_new b
  | Be => e_new b | Bbx => bx_new b | Bby => by_new b | Bpsi => psi_new b
  end.

Inductive fsel : Type := Frho | Fu | Fv | Fp | Fe | Fbx | Fby | Fpsi.

Definition fgrid (k : fsel) (flow : FlowField) : Grid :=
  match k with
  | Frho => fl_rho flow | Fu => fl_u flow | Fv => fl_v flow
  | Fp => fl_p flow | Fe => fl_e flow | Fbx => fl_bx flow
  | Fby => fl_by flow | Fpsi => fl_psi flow
  end.

Definition fproj (k : fsel) (flow : FlowField) : matrix := data (fgrid k flow).

(** The matching field of the flow for a slope array. *)
Definition ssrc (k : ssel) : fsel :=
  match k with
  | Srho => Frho | Su => Fu | Sv => Fv | Sp => Fp
  | Sbx => Fbx | Sby => Fby | Spsi => Fpsi
  end.

(** All eight arrays of the flow are [n] by [m]. *)
Definition flow_dims (flow : FlowField) (n m : Z) : Prop :=
  forall k, dims (fproj k flow) n m.

(** A valid FlowField, as the constructor builds it and the solver keeps
    it: at least 3 by 3, the eight arrays of the declared size. *)
Definition valid_flow (flow : FlowField) : Prop :=
  (3 <= nx (fl_rho flow))%Z /\ (3 <= ny (fl_rho flow))%Z /\
  flow_dims flow (nx (fl_rho flow)) (ny (fl_rho flow)).

Definition slopes_dims (s : Slopes) (n m : Z) : Prop :=
  forall k, dims (sproj k s) n m.

Definition bufs_dims (b : Bufs) (n m : Z) : Prop :=
  forall k, dims (bproj k b) n m.

Definition in_gridb (n m i j : Z) : bool :=
  ((0 <=? i) && (i <? n) && (0 <=? j) && (j <? m))%Z.

Definition interiorb (n m i j : Z) : bool :=
  ((1 <=? i) && (i <? n - 1) && (1 <=? j) && (j <? m - 1))%Z.

(** ** The value of each temporary array at an interior cell

    These are the values the body of the main loop leaves in the cell
    [(i,j)], written as functions of the flow at the start of the step and
    of the clamped timestep. *)

(** [rho_new[i][j]] before the floor. *)
Definition rho_unfloored (flow : FlowField) (dt : R) (i j : Z) : R :=
  let sx := compute_slopes_x flow in
  let sy := compute_slopes_y flow in
  fv_update (fl_rho flow) dt (get2 (data (fl_rho flow)) i j)
            (F_rho (flux_xp flow sx i j)) (F_rho (flux_xm flow sx i j))
            (F_rho (flux_yp flow sy i j)) (F_rho (flux_ym flow sy i j)).

Definition new_rho (flow : FlowField) (dt : R) (i j : Z) : R :=
  Rmax (rho_unfloored flow dt i j) 1e-10.

Definition new_momx (flow : FlowField) (dt nu : R) (i j : Z) : R :=
  let sx := compute_slopes_x flow in
  let sy := compute_slopes_y flow in
  let rho := get2 (data (fl_rho flow)) i j in
  let m :=
    fv_update (fl_rho flow) dt (rho * get2 (data (fl_u flow)) i j)
              (F_momx (flux_xp flow sx i j)) (F_momx (flux_xm flow sx i j))
              (F_momx (flux_yp flow sy i j)) (F_momx (flux_ym flow sy i j)) in
  if Rgt_dec nu 0 then m + dt * nu * rho * laplacian (fl_u flow) i j else m.

Definition new_momy (flow : FlowField) (dt nu : R) (i j : Z) : R :=
  let sx := compute_slopes_x flow in
  let sy := compute_slopes_y flow in
  let rho := get2 (data (fl_rho flow)) i j in
  let m :=
    fv_update (fl_rho flow) dt (rho * get2 (data (fl_v flow)) i j)
              (F_momy (flux_xp flow sx i j)) (F_momy (flux_xm flow sx i j))
              (F_momy (flux_yp flow sy i j)) (F_momy (flux_ym flow sy i j)) in
  if Rgt_dec nu 0 then m + dt * nu * rho * laplacian (fl_v flow) i j else m.

(** [e_new[i][j]] after the flux update and the "insufficient total
    energy" adjustment, before the final floor. *)
Definition e_adjusted (flow : FlowField) (dt : R) (i j : Z) : R :=
  let sx := compute_slopes_x flow in
  let sy := compute_slopes_y flow in
  let u := get2 (data (fl_u flow)) i j in
  let v := get2 (data (fl_v flow)) i j in
  let Bx := get2 (data (fl_bx flow)) i j in
  let By := get2 (data (fl_by flow)) i j in
  let e :=
    fv_update (fl_rho flow) dt (get2 (data (fl_e flow)) i j)
              (F_E (flux_xp flow sx i j)) (F_E (flux_xm flow sx i j))
              (F_E (flux_yp flow sy i j)) (F_E (flux_ym flow sy i j)) in
  let ke_temp := 0.5 * rho_unfloored flow dt i j * (u * u + v * v) in
  let me_temp := 0.5 * (Bx * Bx + By * By) in
  if Rlt_dec e (ke_temp + me_temp + 1e-10)
  then ke_temp + me_temp + 1e-10 else e.

Definition new_e (flow : FlowField) (dt : R) (i j : Z) : R :=
  Rmax (e_adjusted flow dt i j) 1e-10.

(** The flux-difference part of the [Bx] and [By] updates. *)
Definition flux_bx (flow : FlowField) (dt : R) (i j : Z) : R :=
  let sx := compute_slopes_x flow in
  let sy := compute_slopes_y flow in
  fv_update (fl_rho flow) dt (get2 (data (fl_bx flow)) i j)
            (F_Bx (flux_xp flow sx i j)) (F_Bx (flux_xm flow sx i j))
            (F_Bx (flux_yp flow sy i j)) (F_Bx (flux_ym flow sy i j)).

Definition flux_by (flow : FlowField) (dt : R) (i j : Z) : R :=
  let sx := compute_slopes_x flow in
  let sy := compute_slopes_y flow in
  fv_update (fl_rho flow) dt (get2 (data (fl_by flow)) i j)
            (F_By (flux_xp flow sx i j)) (F_By (flux_xm flow sx i j))
            (F_By (flux_yp flow sy i j)) (F_By (flux_ym flow sy i j)).

Definition new_bx (flow : FlowField) (dt : R) (i j : Z) : R :=
  flux_bx flow dt i j + dt * ETA * laplacian (fl_bx flow) i j.

Definition new_by (flow : FlowField) (dt : R) (i j : Z) : R :=
  flux_by flow dt i j + dt * ETA * laplacian (fl_by flow) i j.

Definition new_psi (flow : FlowField) (dt : R) (i j : Z) : R :=
  let sx := compute_slopes_x flow in
  let sy := compute_slopes_y flow in
  fv_update (fl_rho flow) dt (get2 (data (fl_psi flow)) i j)
            (F_psi (flux_xp flow sx i j)) (F_psi (flux_xm flow sx i j))
            (F_psi (flux_yp flow sy i j)) (F_psi (flux_ym flow sy i j)).

(** What the main loop writes in cell [(i,j)] of the array [k]. *)
Definition bufs_cell (flow : FlowField) (dt nu : R) (k : bsel) (i j : Z) : R :=
  match k with
  | Brho => new_rho flow dt i j
  | Bmomx => new_momx flow dt nu i j
  | Bmomy => new_momy flow dt nu i j
  | Be => new_e flow dt i j
  | Bbx => new_bx flow dt i j
  | Bby => new_by flow dt i j
  | Bpsi => new_psi flow dt i j
  end.

(** What the array [k] holds in cell [(i,j)] when the main loop starts. *)
Definition bufs_init (flow : FlowField) (k : bsel) (i j : Z) : R :=
  match k with
  | Brho => get2 (data (fl_rho flow)) i j
  | Bmomx => get2 (data (fl_rho flow)) i j * get2 (data (fl_u flow)) i j
  | Bmomy => get2 (data (fl_rho flow)) i j * get2 (data (fl_v flow)) i j
  | Be => get2 (data (fl_e flow)) i j
  | Bbx => get2 (data (fl_bx flow)) i j
  | Bby => get2 (data (fl_by flow)) i j
  | Bpsi => get2 (data (fl_psi flow)) i j
  end.

(** The content of the temporary array [k] after the main loop: updated in
    the interior, untouched on the boundary. *)
Definition bufv (flow : FlowField) (dt nu : R) (k : bsel) (i j : Z) : R :=
  if interiorb (nx (fl_rho flow)) (ny (fl_rho flow)) i j
  then bufs_cell flow dt nu k i j
  else bufs_init flow k i j.

(** ** The primitive variables written back at an interior cell *)
Definition prim_cell (flow : FlowField) (dt nu : R) (k : fsel) (i j : Z) : R :=
  let rho := new_rho flow dt i j in
  let u := new_momx flow dt nu i j / rho in
  let v := new_momy flow dt nu i j / rho in
  let ke := 0.5 * rho * (u * u + v * v) in
  let me := 0.5 * (new_bx flow dt i j * new_bx flow dt i j
                   + new_by flow dt i j * new_by flow dt i j) in
  let ie := new_e flow dt i j - ke - me in
  match k with
  | Frho => rho
  | Fu => u
  | Fv => v
  | Fp => (gamma_gas - 1) * Rmax ie 1e-10
  | Fe => new_e flow dt i j
  | Fbx => new_bx flow dt i j
  | Fby => new_by flow dt i j
  | Fpsi => get2 (data (fl_psi flow)) i j
  end.

(** The field [k] after the "Update primitive variables" loop. *)
Definition committed (flow : FlowField) (dt nu : R) (k : fsel) (i j : Z) : R :=
  if interiorb (nx (fl_rho flow)) (ny (fl_rho flow)) i j
  then prim_cell flow dt nu k i j
  else get2 (fproj k flow) i j.

(** The cell a periodic boundary cell is copied from: [n-2] feeds [0],
    [1] feeds [n-1], the others keep their own value. *)
Definition wrap (n i : Z) : Z :=
  if (i =? 0)%Z then (n - 2)%Z else if (i =? n - 1)%Z then 1%Z else i.

(** The value the GLM loop stores in [flow.psi[i][j]]. *)
Definition glm_psi (flow : FlowField) (dt nu : R) (i j : Z) : R :=
  let grid := fl_rho flow in
  let ip := Z.rem (i + 1) (nx grid) in
  let im := Z.rem (i - 1 + nx grid) (nx grid) in
  let jp := Z.rem (j + 1) (ny grid) in
  let jm := Z.rem (j - 1 + ny grid) (ny grid) in
  let divB_new :=
    (bufv flow dt nu Bbx ip j - bufv flow dt nu Bbx im j) / (2 * dx grid)
    + (bufv flow dt nu Bby i jp - bufv flow dt nu Bby i jm) / (2 * dy grid) in
  bufv flow dt nu Bpsi i j - dt * CH * CH * divB_new
  - dt * CR * bufv flow dt nu Bpsi i j.

(** The timestep [update_level] really uses. *)
Definition dt_used (flow : FlowField) (dt : R) : R :=
  Rmin dt (compute_cfl_timestep flow default_cfl_number).

(** The geometry of a grid: everything but its array. *)
Definition geom (g : Grid) : Z * Z * R * R * R * R :=
  (nx g, ny g, dx g, dy g, x0 g, y0 g).

(** ** The timestep rule in the words of the specification *)

(** Fast magnetosonic speed, [sqrt(gamma*p/rho + (Bx^2+By^2)/rho)] with
    [gamma = 5/3]. *)
Definition spec_fast_speed (rho p Bx By : R) : R :=
  sqrt (5 / 3 * p / rho + (Bx * Bx + By * By) / rho).

(** [min(dx/(|u|+c_f), dy/(|v|+c_f))] at one cell. *)
Definition spec_cell_dt (flow : FlowField) (i j : Z) : R :=
  let c_f := spec_fast_speed (get2 (data (fl_rho flow)) i j)
                             (get2 (data (fl_p flow)) i j)
                             (get2 (data (fl_bx flow)) i j)
                             (get2 (data (fl_by flow)) i j) in
  Rmin (dx (fl_rho flow) / (Rabs (get2 (data (fl_u flow)) i j) + c_f))
       (dy (fl_rho flow) / (Rabs (get2 (data (fl_v flow)) i j) + c_f)).

(** [pm] is the minimum of [spec_cell_dt] over the interior cells. *)
Definition is_physical_min (flow : FlowField) (pm : R) : Prop :=
  (exists i j, interior (nx (fl_rho flow)) (ny (fl_rho flow)) i j /\
               spec_cell_dt flow i j = pm) /\
  (forall i j, interior (nx (fl_rho flow)) (ny (fl_rho flow)) i j ->
               pm <= spec_cell_dt flow i j).

(** [cfl_number * min(physical_min, glm_bound)], the physical minimum being
    replaced by the GLM bound when it exceeds [1.0]. *)
Definition spec_cfl_timestep (flow : FlowField) (cfl_number pm : R) : R :=
  let glm_bound := Rmin (dx (fl_rho flow)) (dy (fl_rho flow)) / 0.8 in
  let physical_min := if Rgt_dec pm 1 then glm_bound else pm in
  cfl_number * Rmin physical_min glm_bound.

(** ** The HLL average of one component *)
Definition hll_average (SL SR FL FR UL UR : R) : R :=
  (SR * FL - SL * FR + SL * SR * (UR - UL)) / (SR - SL).

(** ** States at rest *)

(** The value of each field of a spatially constant state at rest. *)
Definition uval (rho0 p0 bx0 by0 e0 : R) (k : fsel) : R :=
  match k with
  | Frho => rho0 | Fu => 0 | Fv => 0 | Fp => p0 | Fe => e0
  | Fbx => bx0 | Fby => by0 | Fpsi => 0
  end.

(** Every cell of the grid holds the same [rho, p, Bx, By, e], with
    [u = v = 0] and [psi = 0]. *)
Definition uniform_rest (flow : FlowField) (rho0 p0 bx0 by0 e0 : R) : Prop :=
  forall k i j, in_grid (nx (fl_rho flow)) (ny (fl_rho flow)) i j ->
                get2 (fproj k flow) i j = uval rho0 p0 bx0 by0 e0 k.

(** Density, energy and pressure of a state at rest after one step:
    nothing moves, only the floors may act. *)
Definition rest_rho_after (rho0 : R) : R := Rmax rho0 1e-10.

Definition rest_e_after (rho0 bx0 by0 e0 : R) : R :=
  let ke_temp := 0.5 * rho0 * (0 * 0 + 0 * 0) in
  let me_temp := 0.5 * (bx0 * bx0 + by0 * by0) in
  Rmax (if Rlt_dec e0 (ke_temp + me_temp + 1e-10)
        then ke_temp + me_temp + 1e-10 else e0) 1e-10.

Definition rest_p_after (rho0 bx0 by0 e0 : R) : R :=
  let rho1 := rest_rho_after rho0 in
  let ke := 0.5 * rho1 * (0 / rho1 * (0 / rho1) + 0 / rho1 * (0 / rho1)) in
  let me := 0.5 * (bx0 * bx0 + by0 * by0) in
  (gamma_gas - 1) * Rmax (rest_e_after rho0 bx0 by0 e0 - ke - me) 1e-10.

(** ** Concrete states used as test inputs *)

(** A grid of [n] by [m] cells of equal value [x], with spacing [h]. *)
Definition const_grid (n m : nat) (h x : R) : Grid :=
  mkGrid (Z.of_nat n) (Z.of_nat m) h h 0 0 (repeat (repeat x m) n).

(** A spatially constant state at rest ([u = v = 0], [psi = 0]) whose total
    energy is [p/(gamma-1) + (Bx^2+By^2)/2]. *)
Definition rest_flow (n m : nat) (h rho0 p0 bx0 by0 : R) : FlowField :=
  mkFlowField (const_grid n m h rho0) (const_grid n m h 0)
              (const_grid n m h 0) (const_grid n m h p0)
              (const_grid n m h (p0 / (gamma_gas - 1)
                                 + 0.5 * (bx0 * bx0 + by0 * by0)))
              (const_grid n m h bx0) (const_grid n m h by0)
              (const_grid n m h 0).

(** A state at rest with unit density and the tiny positive pressure
    [1e-11], on a 3 by 3 grid of spacing [0.1]. *)
Definition tiny_pressure_flow : FlowField := rest_flow 3 3 0.1 1 1e-11 0 0.

(** An [n] by [m] array given by its cells. *)
Definition mk_matrix (n m : nat) (f : Z -> Z -> R) : matrix :=
  map (fun i => map (fun j => f i j) (range 0 (Z.of_nat m)))
      (range 0 (Z.of_nat n)).

Definition fun_grid (n m : nat) (h : R) (f : Z -> Z -> R) : Grid :=
  mkGrid (Z.of_nat n) (Z.of_nat m) h h 0 0 (mk_matrix n m f).

(** A state at rest that varies along X only: density [r i], pressure
    [pp i] and [Bx = b i] in column [i]; [u = v = 0], [By = 0], [psi = 0]
    and total energy [p/(gamma-1) + Bx^2/2]. *)
Definition column_flow (n m : nat) (h : R) (r pp b : Z -> R) : FlowField :=
  mkFlowField
    (fun_grid n m h (fun i _ => r i))
    (const_grid n m h 0)
    (const_grid n m h 0)
    (fun_grid n m h (fun i _ => pp i))
    (fun_grid n m h (fun i _ => pp i / (gamma_gas - 1) + 0.5 * (b i * b i)))
    (fun_grid n m h (fun i _ => b i))
    (const_grid n m h 0)
    (const_grid n m h 0).

(** The value of field [k] of a column state in column [i]. *)
Definition cval (r pp b : Z -> R) (k : fsel) (i : Z) : R :=
  match k with
  | Frho => r i | Fu => 0 | Fv => 0 | Fp => pp i
  | Fe => pp i / (gamma_gas - 1) + 0.5 * (b i * b i)
  | Fbx => b i | Fby => 0 | Fpsi => 0
  end.

(** The limited X slope of a column profile, zero outside [1, n-2]. *)
Definition profile_slope (n : Z) (c : Z -> R) (i : Z) : R :=
  if ((1 <=? i) && (i <? n - 1))%Z
  then minmod (c i - c (i - 1)%Z) (c (i + 1)%Z - c i) else 0.

(** The X face between columns [i] and [i+1] of a column state: the flux
    of the two reconstructed states. *)
Definition column_face (n : Z) (r pp b : Z -> R) (i : Z) : HLLFlux :=
  compute_hll_flux_x
    (r i + 0.5 * profile_slope n r i) 0 0
    (pp i + 0.5 * profile_slope n pp i)
    (b i + 0.5 * profile_slope n b i) 0 0
    (r (i + 1)%Z - 0.5 * profile_slope n r (i + 1)) 0 0
    (pp (i + 1)%Z - 0.5 * profile_slope n pp (i + 1))
    (b (i + 1)%Z - 0.5 * profile_slope n b (i + 1)) 0 0.

(** A periodic 5 by 3 state: uniform but for [Bx = 1] in column 2. *)
Definition seam_bx (i : Z) : R := if (i =? 2)%Z then 1 else 0.

Definition seam_flow : FlowField :=
  column_flow 5 3 1 (fun _ => 1) (fun _ => 0.6) seam_bx.

(** A periodic 5 by 3 state with densities [1, 2, 4, 1, 2] along X,
    pressure [0.6 * rho] (fast speed 1 everywhere) and no magnetic
    field. *)
Definition mass_rho (i : Z) : R :=
  if (i =? 1)%Z then 2 else if (i =? 2)%Z then 4
  else if (i =? 4)%Z then 2 else 1.

Definition mass_p (i : Z) : R := 0.6 * mass_rho i.

Definition mass_flow : FlowField :=
  column_flow 5 3 1 mass_rho mass_p (fun _ => 0).

(** A periodic 5 by 3 state at rest with densities [1, 1, 2, 1, 1] along
    X, pressure [0.6 * rho] (fast speed 1 everywhere) and no magnetic
    field: a hump in the middle column, flat next to the boundary. *)
Definition hump_rho (i : Z) : R := if (i =? 2)%Z then 2 else 1.

Definition hump_p (i : Z) : R := 0.6 * hump_rho i.

Definition hump_flow : FlowField :=
  column_flow 5 3 1 hump_rho hump_p (fun _ => 0).

(** A 5 by 3 state at rest with unit density and pressure [0.6], but
    [2.4] in column 2: the fast speed is 1, but 2 in column 2. *)
Definition hot_p (i : Z) : R := if (i =? 2)%Z then 2.4 else 0.6.

Definition hot_flow : FlowField :=
  column_flow 5 3 1 (fun _ => 1) hot_p (fun _ => 0).

(** A uniform 5 by 5 state at rest whose density [1e-11] is positive but
    below the floor. *)
Definition thin_flow : FlowField := rest_flow 5 5 0.1 1e-11 1 0 0.

(** ** Periodicity and sums *)

(** The boundary cells of every field mirror the interior periodically. *)
Definition periodic_flow (flow : FlowField) : Prop :=
  let n := nx (fl_rho flow) in
  let m := ny (fl_rho flow) in
  forall k,
    (forall j, (0 <= j < m)%Z ->
       get2 (fproj k flow) 0 j = get2 (fproj k flow) (n - 2) j /\
       get2 (fproj k flow) (n - 1) j = get2 (fproj k flow) 1 j) /\
    (forall i, (0 <= i < n)%Z ->
       get2 (fproj k flow) i 0 = get2 (fproj k flow) i (m - 2) /\
       get2 (fproj k flow) i (m - 1) = get2 (fproj k flow) i 1).

Definition sum_over (l : list Z) (f : Z -> R) : R :=
  fold_right (fun i acc => f i + acc) 0 l.

(** The sum of an array over the interior cells of an [n] by [m] grid. *)
Definition interior_sum (a : matrix) (n m : Z) : R :=
  sum_over (range 1 (n - 1))
           (fun i => sum_over (range 1 (m - 1)) (fun j => get2 a i j)).

(** The density floor does not trigger in the step with caller timestep
    [dt]: no interior cell has an updated density below [1e-10]. *)
Definition no_density_floor (flow : FlowField) (dt : R) : Prop :=
  forall i j, interior (nx (fl_rho flow)) (ny (fl_rho flow)) i j ->
              1e-10 <= rho_unfloored flow (dt_used flow dt) i j.

(** The slope arrays the mass flux along X depends on: those of the
    density, of the normal velocity [u] and, through the fast speed, of the
    pressure and of the two field components.  The mass flux reads neither
    the tangential velocity nor [psi]. *)
Definition mass_reads_x (k : ssel) : Prop :=
  k = Srho \/ k = Su \/ k = Sp \/ k = Sbx \/ k = Sby.

(** Along Y the normal velocity is [v]. *)
Definition mass_reads_y (k : ssel) : Prop :=
  k = Srho \/ k = Sv \/ k = Sp \/ k = Sbx \/ k = Sby.

(** The limited slopes the mass flux depends on vanish in the interior
    cells next to the boundary: X slopes in columns [1] and [nx-2], Y
    slopes in rows [1] and [ny-2]. *)
Definition seam_slopes_vanish (flow : FlowField) : Prop :=
  let n := nx (fl_rho flow) in
  let m := ny (fl_rho flow) in
  (forall k, mass_reads_x k ->
     forall j, (1 <= j < m - 1)%Z ->
       get2 (sproj k (compute_slopes_x flow)) 1 j = 0 /\
       get2 (sproj k (compute_slopes_x flow)) (n - 2) j = 0) /\
  (forall k, mass_reads_y k ->
     forall i, (1 <= i < n - 1)%Z ->
       get2 (sproj k (compute_slopes_y flow)) i 1 = 0 /\
       get2 (sproj k (compute_slopes_y flow)) i (m - 2) = 0).

(** ** The GLM source term in the words of the specification *)

(** [psi_preliminary - dt*c_h^2*divB_new - dt*c_r*psi_preliminary], where
    [psi_preliminary] is the flux-updated [psi] array after the periodic
    wrap (cell [(i,j)] mirrors the interior cell [(wrap i, wrap j)]) and
    [divB_new] is the centered difference, with wrapped indices, of the
    new [Bx], [By] after their periodic wrap, i.e. of the [bx], [by]
    fields of the state after the step. *)
Definition glm_psi_spec (flow : FlowField) (dt nu : R) (i j : Z) : R :=
  let grid := fl_rho flow in
  let after := step_with_dt flow dt nu in
  let psi_preliminary :=
    bufv flow dt nu Bpsi (wrap (nx grid) i) (wrap (ny grid) j) in
  let ip := ((i + 1) mod nx grid)%Z in
  let im := ((i - 1) mod nx grid)%Z in
  let jp := ((j + 1) mod ny grid)%Z in
  let jm := ((j - 1) mod ny grid)%Z in
  let divB_new :=
    (get2 (data (fl_bx after)) ip j - get2 (data (fl_bx after)) im j)
      / (2 * dx grid)
    + (get2 (data (fl_by after)) i jp - get2 (data (fl_by after)) i jm)
      / (2 * dy grid) in
  psi_preliminary - dt * CH * CH * divB_new - dt * CR * psi_preliminary.

(** ** Further notions used by the properties of the remaining code *)

(** The eight grids of the flow share the geometry of [flow.rho]. *)
Definition same_geometry (flow : FlowField) : Prop :=
  forall k, geom (fgrid k flow) = geom (fl_rho flow).

(** A FlowField as its constructor builds it and every routine keeps it. *)
Definition well_formed (flow : FlowField) : Prop :=
  valid_flow flow /\ same_geometry flow.

(** The X and Y fluxes are each other's image under the exchange of the
    two axes: momenta and field components trade places. *)
Definition swap_xy (f : HLLFlux) : HLLFlux :=
  mkHLLFlux (F_rho f) (F_momy f) (F_momx f) (F_E f) (F_By f) (F_Bx f)
            (F_psi f).

(** The physical flux along X of one state. *)
Definition physical_flux_x (rho u v p Bx By psi : R) : HLLFlux :=
  let B2 := Bx * Bx + By * By in
  let pt := p + 0.5 * B2 in
  let E := p / (gamma_gas - 1) + 0.5 * rho * (u * u + v * v) + 0.5 * B2 in
  mkHLLFlux (rho * u)
            (rho * u * u + pt - Bx * Bx)
            (rho * u * v - Bx * By)
            ((E + pt) * u - Bx * (u * Bx + v * By))
            psi
            (u * By - v * Bx)
            (CH * CH * Bx).

(** The increment [add_divergence_error] gives to [Bx] and to [By] in an
    interior cell, for a unit amplitude. *)
Definition bump_x (g : Grid) (i j : Z) : R :=
  let x := x0 g + IZR i * dx g - 0.5 in
  let y := y0 g + IZR j * dy g - 0.5 in
  x * exp (- (x * x + y * y) / 0.1).

Definition bump_y (g : Grid) (i j : Z) : R :=
  let x := x0 g + IZR i * dx g - 0.5 in
  let y := y0 g + IZR j * dy g - 0.5 in
  y * exp (- (x * x + y * y) / 0.1).

(** The Orszag-Tang value of each field in cell [(i,j)] of an [n] by [m]
    grid. *)
Definition ot_value (M_PI : R) (n m : Z) (k : fsel) (i j : Z) : R :=
  let B0 := 1 / sqrt (4 * M_PI) in
  let x := IZR i / IZR (n - 1) in
  let y := IZR j / IZR (m - 1) in
  let u := - sin (2 * M_PI * y) in
  let v := sin (2 * M_PI * x) in
  let bx := - B0 * sin (2 * M_PI * y) in
  let by_ := B0 * sin (4 * M_PI * x) in
  match k with
  | Frho => 5 / 3
  | Fu => u
  | Fv => v
  | Fp => 5 / 3
  | Fe => 0.5 * (5 / 3) * (u * u + v * v) + 5 / 3 / (5 / 3 - 1)
          + 0.5 * (bx * bx + by_ * by_)
  | Fbx => bx
  | Fby => by_
  | Fpsi => 0
  end.

(** A state the time loop can advance: valid, with positive spacings and
    positive density and pressure in every cell. *)
Definition positive_state (flow : FlowField) : Prop :=
  valid_flow flow /\ 0 < dx (fl_rho flow) /\ 0 < dy (fl_rho flow) /\
  forall i j, in_grid (nx (fl_rho flow)) (ny (fl_rho flow)) i j ->
    0 < get2 (data (fl_rho flow)) i j /\ 0 < get2 (data (fl_p flow)) i j.

(** The sum of [f] over the index pairs of a list. *)
Definition sum_pairs (l : list (Z * Z)) (f : Z -> Z -> R) : R :=
  fold_right (fun ij acc => f (fst ij) (snd ij) + acc) 0 l.

(* ================================================================== *)
(** * Arrays and loops: basic facts *)

Lemma list_set_length {A : Type} (l : list A) (n : nat) (x : A) :
  List.length (list_set l n x) = List.length l.
Proof.
  revert n; induction l as [|h t IH]; intros [|n]; simpl; auto.
Qed.

Lemma nth_list_set_same {A : Type} (l : list A) (n : nat) (x d : A) :
  (n < List.length l)%nat -> nth n (list_set l n x) d = x.
Proof.
  revert n; induction l as [|h t IH]; intros [|n] Hn; simpl in *;
    try lia; auto.
  apply IH; lia.
Qed.

Lemma nth_list_set_other {A : Type} (l : list A) (n k : nat) (x d : A) :
  n <> k -> nth k (list_set l n x) d = nth k l d.
Proof.
  revert n k; induction l as [|h t IH]; intros [|n] [|k] Hnk; simpl;
    auto; try congruence.
Qed.

Lemma list_set_overflow {A : Type} (l : list A) (n : nat) (x : A) :
  (List.length l <= n)%nat -> list_set l n x = l.
Proof.
  revert n; induction l as [|h t IH]; intros [|n] Hn; simpl in *;
    auto; try lia.
  f_equal. apply IH. lia.
Qed.

Lemma dims_nth_length (a : matrix) (n m : Z) (k : nat) :
  dims a n m -> (k < List.length a)%nat ->
  Z.of_nat (List.length (nth k a [])) = m.
Proof.
  intros [_ Hall] Hk.
  rewrite Forall_forall in Hall. apply Hall. now apply nth_In.
Qed.

Lemma get2_set2_same (a : matrix) (n m i j : Z) (x : R) :
  dims a n m -> in_grid n m i j -> get2 (set2 a i j x) i j = x.
Proof.
  intros Hd [Hi Hj]. unfold get2, set2.
  replace ((i <? 0) || (j <? 0))%Z with false
    by (symmetry; apply orb_false_intro; apply Z.ltb_ge; lia).
  assert (Hlen : (Z.to_nat i < List.length a)%nat) by (destruct Hd; lia).
  rewrite nth_list_set_same by exact Hlen.
  apply nth_list_set_same.
  pose proof (dims_nth_length a n m _ Hd Hlen). lia.
Qed.

Lemma get2_set2_other (a : matrix) (i j i' j' : Z) (x : R) :
  (i', j') <> (i, j) -> get2 (set2 a i j x) i' j' = get2 a i' j'.
Proof.
  intros Hne. unfold get2, set2.
  destruct ((i' <? 0) || (j' <? 0))%Z eqn:E'; [reflexivity|].
  destruct ((i <? 0) || (j <? 0))%Z eqn:E; [reflexivity|].
  apply orb_false_elim in E', E. destruct E' as [E1' E2'], E as [E1 E2].
  apply Z.ltb_ge in E1', E2', E1, E2.
  destruct (Z.eq_dec i i') as [->|Hi].
  - assert (Hj : Z.to_nat j <> Z.to_nat j')
      by (intro H; apply Hne; f_equal; lia).
    destruct (Nat.lt_ge_cases (Z.to_nat i') (List.length a)) as [Hl|Hl].
    + rewrite nth_list_set_same by exact Hl.
      now apply nth_list_set_other.
    + now rewrite list_set_overflow by exact Hl.
  - rewrite nth_list_set_other by lia. reflexivity.
Qed.

Lemma dims_set2 (a : matrix) (n m i j : Z) (x : R) :
  dims a n m -> dims (set2 a i j x) n m.
Proof.
  intros Hd. unfold set2.
  destruct ((i <? 0) || (j <? 0))%Z; [exact Hd|].
  destruct Hd as [Hl Hall]. split.
  - now rewrite list_set_length.
  - rewrite Forall_forall in *. intros r Hr.
    destruct (In_nth _ _ [] Hr) as [k [Hk Hnth]].
    rewrite list_set_length in Hk.
    destruct (Nat.eq_dec (Z.to_nat i) k) as [<-|Hne].
    + rewrite nth_list_set_same in Hnth by exact Hk. subst r.
      rewrite list_set_length. apply Hall. now apply nth_In.
    + rewrite nth_list_set_other in Hnth by exact Hne. subst r.
      apply Hall. now apply nth_In.
Qed.

Lemma dims_zeros (n m : Z) : (0 <= n)%Z -> (0 <= m)%Z -> dims (zeros n m) n m.
Proof.
  intros Hn Hm. unfold zeros. split.
  - rewrite repeat_length. lia.
  - apply Forall_forall. intros r Hr. apply repeat_spec in Hr. subst r.
    rewrite repeat_length. lia.
Qed.

Lemma nth_repeat_default {A : Type} (x : A) (n k : nat) :
  nth k (repeat x n) x = x.
Proof.
  revert k; induction n as [|n IH]; intros [|k]; simpl; auto.
Qed.

Lemma get2_zeros (n m i j : Z) : get2 (zeros n m) i j = 0.
Proof.
  unfold get2, zeros.
  destruct ((i <? 0) || (j <? 0))%Z; [reflexivity|].
  destruct (Nat.lt_ge_cases (Z.to_nat i) (Z.to_nat n)) as [Hl|Hl].
  - rewrite (nth_indep _ [] (repeat 0 (Z.to_nat m)))
      by (now rewrite repeat_length).
    rewrite nth_repeat_default. apply nth_repeat_default.
  - rewrite (nth_overflow (repeat _ _)) by (now rewrite repeat_length).
    now destruct (Z.to_nat j).
Qed.

Lemma in_range_from (lo : Z) (n : nat) (i : Z) :
  In i (range_from lo n) <-> (lo <= i < lo + Z.of_nat n)%Z.
Proof.
  revert lo; induction n as [|n IH]; intros lo; simpl.
  - lia.
  - rewrite IH. lia.
Qed.

Lemma in_range (lo hi i : Z) : In i (range lo hi) <-> (lo <= i < hi)%Z.
Proof. unfold range. rewrite in_range_from. lia. Qed.

Lemma NoDup_range_from (lo : Z) (n : nat) : NoDup (range_from lo n).
Proof.
  revert lo; induction n as [|n IH]; intros lo; simpl; constructor.
  - rewrite in_range_from. lia.
  - apply IH.
Qed.

Lemma NoDup_range (lo hi : Z) : NoDup (range lo hi).
Proof. apply NoDup_range_from. Qed.

Lemma in_idx2 (ilo ihi jlo jhi i j : Z) :
  In (i, j) (idx2 ilo ihi jlo jhi) <->
  (ilo <= i < ihi)%Z /\ (jlo <= j < jhi)%Z.
Proof.
  unfold idx2. rewrite in_flat_map. split.
  - intros [k [Hk Hin]]. apply in_map_iff in Hin.
    destruct Hin as [l [Heq Hl]]. inversion Heq; subst.
    now rewrite in_range in Hk, Hl.
  - intros [Hi Hj]. exists i. split; [now apply in_range|].
    apply in_map. now apply in_range.
Qed.

Lemma NoDup_idx2 (ilo ihi jlo jhi : Z) : NoDup (idx2 ilo ihi jlo jhi).
Proof.
  unfold idx2. generalize (NoDup_range ilo ihi).
  induction (range ilo ihi) as [|k l IH]; intros Hnd; simpl.
  - constructor.
  - inversion Hnd as [|? ? Hk Hl]; subst.
    apply NoDup_app.
    + apply NoDup_map_NoDup_ForallPairs; [|apply NoDup_range].
      intros x y _ _ Hxy. now inversion Hxy.
    + now apply IH.
    + intros [a b] H1 H2. apply in_map_iff in H1.
      destruct H1 as [c [Hc _]]. inversion Hc; subst.
      apply in_flat_map in H2. destruct H2 as [k' [Hk' H2]].
      apply in_map_iff in H2. destruct H2 as [c' [Hc' _]].
      inversion Hc'; subst. contradiction.
Qed.

Lemma for_loop2_idx2 {S : Type} (ilo ihi jlo jhi : Z)
      (body : Z -> Z -> S -> S) (s : S) :
  for_loop2 ilo ihi jlo jhi body s =
  fold_left (fun acc ij => body (fst ij) (snd ij) acc)
            (idx2 ilo ihi jlo jhi) s.
Proof.
  unfold for_loop2, for_loop, idx2. revert s.
  induction (range ilo ihi) as [|k l IH]; intros s; simpl.
  - reflexivity.
  - rewrite fold_left_app, <- IH. f_equal.
    generalize (range jlo jhi) as js. clear. intros js. revert s.
    induction js as [|j js IHj]; intros s; simpl; auto.
Qed.

(** ** A data-parallel loop, cell by cell

    When the body of a doubly nested loop writes only the cell [(i,j)] of
    the arrays of its state, and what it writes depends on the state only
    through that same cell, then after the loop every visited cell holds
    what one run of the body on the initial state writes there, and every
    other cell is unchanged. *)
Section ParallelFor.
Variables (S K : Type).
Variable view : S -> K -> Z -> Z -> R.
Variable ok : S -> Prop.
Variable inb : Z -> Z -> Prop.
Variable body : Z -> Z -> S -> S.

Hypothesis body_ok : forall i j s, ok s -> ok (body i j s).
Hypothesis body_other : forall i j s k i' j',
    (i', j') <> (i, j) -> view (body i j s) k i' j' = view s k i' j'.
Hypothesis body_local : forall i j s s0,
    ok s -> ok s0 -> inb i j ->
    (forall k, view s k i j = view s0 k i j) ->
    forall k, view (body i j s) k i j = view (body i j s0) k i j.

Let run (l : list (Z * Z)) (s : S) : S :=
  fold_left (fun acc ij => body (fst ij) (snd ij) acc) l s.

Lemma fold_cells (l : list (Z * Z)) (s0 : S) :
  NoDup l -> (forall i j, In (i, j) l -> inb i j) -> ok s0 ->
  ok (run l s0) /\
  forall k i j,
    (In (i, j) l -> view (run l s0) k i j = view (body i j s0) k i j) /\
    (~ In (i, j) l -> view (run l s0) k i j = view s0 k i j).
Proof.
  unfold run. induction l as [|[a b] l IH] using rev_ind;
    intros Hnd Hin Hok.
  - simpl. split; [exact Hok|]. intros k i j. split; tauto.
  - rewrite fold_left_app. simpl.
    apply NoDup_remove in Hnd. rewrite app_nil_r in Hnd.
    destruct Hnd as [Hnd Hab].
    destruct IH as [IHok IH]; auto.
    { intros i j Hij. apply Hin. apply in_or_app. now left. }
    split; [now apply body_ok|].
    intros k i j. destruct (IH k i j) as [IH1 IH2]. split.
    + intros Hij. apply in_app_or in Hij. destruct Hij as [Hij|Hij].
      * rewrite body_other; [now apply IH1|].
        intros E. inversion E; subst. contradiction.
      * destruct Hij as [E|[]]. inversion E; subst.
        apply body_local; auto.
        { apply Hin. apply in_or_app. right. now left. }
        intros k'. now apply (IH k' i j).
    + intros Hij. rewrite body_other.
      * apply IH2. intros H. apply Hij. apply in_or_app. now left.
      * intros E. inversion E; subst. apply Hij. apply in_or_app.
        right. now left.
Qed.

Lemma for_loop2_cells (ilo ihi jlo jhi : Z) (s0 : S) :
  (forall i j, (ilo <= i < ihi)%Z -> (jlo <= j < jhi)%Z -> inb i j) ->
  ok s0 ->
  ok (for_loop2 ilo ihi jlo jhi body s0) /\
  forall k i j,
    ((ilo <= i < ihi)%Z /\ (jlo <= j < jhi)%Z ->
     view (for_loop2 ilo ihi jlo jhi body s0) k i j
     = view (body i j s0) k i j) /\
    (~ ((ilo <= i < ihi)%Z /\ (jlo <= j < jhi)%Z) ->
     view (for_loop2 ilo ihi jlo jhi body s0) k i j = view s0 k i j).
Proof.
  intros Hin Hok. rewrite for_loop2_idx2.
  destruct (fold_cells (idx2 ilo ihi jlo jhi) s0) as [H1 H2]; auto.
  - apply NoDup_idx2.
  - intros i j Hij. apply in_idx2 in Hij. now apply Hin.
  - split; [exact H1|]. intros k i j. destruct (H2 k i j) as [H3 H4].
    split; intros H.
    + apply H3. now apply in_idx2.
    + apply H4. now rewrite in_idx2.
Qed.
End ParallelFor.

Lemma interiorb_iff (n m i j : Z) :
  interiorb n m i j = true <-> interior n m i j.
Proof.
  unfold interiorb, interior.
  rewrite !andb_true_iff, !Z.leb_le, !Z.ltb_lt. tauto.
Qed.

Lemma in_gridb_iff (n m i j : Z) :
  in_gridb n m i j = true <-> in_grid n m i j.
Proof.
  unfold in_gridb, in_grid.
  rewrite !andb_true_iff, !Z.leb_le, !Z.ltb_lt. tauto.
Qed.

Lemma interiorb_true (n m i j : Z) :
  interior n m i j -> interiorb n m i j = true.
Proof. apply interiorb_iff. Qed.

Lemma interiorb_false (n m i j : Z) :
  ~ interior n m i j -> interiorb n m i j = false.
Proof.
  intros H. destruct (interiorb n m i j) eqn:E; [|reflexivity].
  apply interiorb_iff in E. contradiction.
Qed.

Lemma interior_in_grid (n m i j : Z) : interior n m i j -> in_grid n m i j.
Proof. unfold interior, in_grid. lia. Qed.

(** ** The slope arrays *)

Lemma slopes_dims_zero (n m : Z) :
  (0 <= n)%Z -> (0 <= m)%Z -> slopes_dims (zero_slopes n m) n m.
Proof. intros Hn Hm []; simpl; now apply dims_zeros. Qed.

Lemma slope_loop_cells (at_ : matrix -> Z -> Z -> R) (flow : FlowField)
      (n m ilo ihi jlo jhi : Z) :
  (0 <= ilo)%Z -> (ihi <= n)%Z -> (0 <= jlo)%Z -> (jhi <= m)%Z ->
  (0 <= n)%Z -> (0 <= m)%Z ->
  forall k i j,
    ((ilo <= i < ihi)%Z /\ (jlo <= j < jhi)%Z ->
     get2 (sproj k (for_loop2 ilo ihi jlo jhi (slope_body at_ flow)
                              (zero_slopes n m))) i j
     = at_ (fproj (ssrc k) flow) i j) /\
    (~ ((ilo <= i < ihi)%Z /\ (jlo <= j < jhi)%Z) ->
     get2 (sproj k (for_loop2 ilo ihi jlo jhi (slope_body at_ flow)
                              (zero_slopes n m))) i j = 0).
Proof.
  intros H1 H2 H3 H4 Hn Hm.
  assert (Hsame : forall i j s, slopes_dims s n m -> in_grid n m i j ->
            forall k, get2 (sproj k (slope_body at_ flow i j s)) i j
                      = at_ (fproj (ssrc k) flow) i j).
  { intros i j s Hs Hij k.
    destruct k; simpl; apply (get2_set2_same _ n m); auto;
      match goal with |- dims (?f s) _ _ =>
        first [ exact (Hs Srho) | exact (Hs Su) | exact (Hs Sv)
              | exact (Hs Sp) | exact (Hs Sbx) | exact (Hs Sby)
              | exact (Hs Spsi) ] end. }
  destruct (for_loop2_cells Slopes ssel
              (fun s k i j => get2 (sproj k s) i j)
              (fun s => slopes_dims s n m) (in_grid n m)
              (slope_body at_ flow)) with
      (ilo := ilo) (ihi := ihi) (jlo := jlo) (jhi := jhi)
      (s0 := zero_slopes n m) as [_ Hc].
  - intros i j s Hs k. destruct k; simpl; apply dims_set2;
      first [ exact (Hs Srho) | exact (Hs Su) | exact (Hs Sv)
            | exact (Hs Sp) | exact (Hs Sbx) | exact (Hs Sby)
            | exact (Hs Spsi) ].
  - intros i j s k i' j' Hne. destruct k; simpl;
      now apply get2_set2_other.
  - intros i j s s0 Hs Hs0 Hij _ k. now rewrite !Hsame.
  - intros i j Hi Hj. unfold in_grid. lia.
  - now apply slopes_dims_zero.
  - intros k i j. destruct (Hc k i j) as [Ha Hb]. split; intros H.
    + rewrite Ha by exact H. apply Hsame.
      * now apply slopes_dims_zero.
      * unfold in_grid. lia.
    + rewrite Hb by exact H. destruct k; simpl; apply get2_zeros.
Qed.

Lemma slopes_x_cell (flow : FlowField) (k : ssel) (i j : Z) :
  let n := nx (fl_rho flow) in
  let m := ny (fl_rho flow) in
  (3 <= n)%Z -> (3 <= m)%Z ->
  get2 (sproj k (compute_slopes_x flow)) i j =
  if ((1 <=? i) && (i <? n - 1) && (0 <=? j) && (j <? m))%Z
  then slope_x_at (fproj (ssrc k) flow) i j else 0.
Proof.
  intros n m Hn Hm. unfold compute_slopes_x. fold n. fold m.
  destruct (slope_loop_cells slope_x_at flow n m 1 (n - 1) 0 m)
    with (k := k) (i := i) (j := j) as [Ha Hb]; try lia.
  destruct ((1 <=? i) && (i <? n - 1) && (0 <=? j) && (j <? m))%Z eqn:E.
  - apply Ha. rewrite !andb_true_iff, !Z.leb_le, !Z.ltb_lt in E. lia.
  - apply Hb. intros H.
    assert (((1 <=? i) && (i <? n - 1) && (0 <=? j) && (j <? m))%Z = true)
      by (rewrite !andb_true_iff, !Z.leb_le, !Z.ltb_lt; lia).
    congruence.
Qed.

Lemma slopes_y_cell (flow : FlowField) (k : ssel) (i j : Z) :
  let n := nx (fl_rho flow) in
  let m := ny (fl_rho flow) in
  (3 <= n)%Z -> (3 <= m)%Z ->
  get2 (sproj k (compute_slopes_y flow)) i j =
  if ((0 <=? i) && (i <? n) && (1 <=? j) && (j <? m - 1))%Z
  then slope_y_at (fproj (ssrc k) flow) i j else 0.
Proof.
  intros n m Hn Hm. unfold compute_slopes_y. fold n. fold m.
  destruct (slope_loop_cells slope_y_at flow n m 0 n 1 (m - 1))
    with (k := k) (i := i) (j := j) as [Ha Hb]; try lia.
  destruct ((0 <=? i) && (i <? n) && (1 <=? j) && (j <? m - 1))%Z eqn:E.
  - apply Ha. rewrite !andb_true_iff, !Z.leb_le, !Z.ltb_lt in E. lia.
  - apply Hb. intros H.
    assert (((0 <=? i) && (i <? n) && (1 <=? j) && (j <? m - 1))%Z = true)
      by (rewrite !andb_true_iff, !Z.leb_le, !Z.ltb_lt; lia).
    congruence.
Qed.

(** ** The temporary arrays *)

Arguments compute_hll_flux_x : simpl never.
Arguments compute_hll_flux_y : simpl never.
Arguments flux_xp : simpl never.
Arguments flux_xm : simpl never.
Arguments flux_yp : simpl never.
Arguments flux_ym : simpl never.
Arguments fv_update : simpl never.
Arguments laplacian : simpl never.
Arguments compute_slopes_x : simpl never.
Arguments compute_slopes_y : simpl never.
Arguments compute_cfl_timestep : simpl never.
Arguments get2 : simpl never.
Arguments set2 : simpl never.
Arguments step_with_dt : simpl never.
Arguments update_level : simpl never.
Arguments dt_used : simpl never.

Ltac dims_of H :=
  first [ exact (H Brho) | exact (H Bmomx) | exact (H Bmomy) | exact (H Be)
        | exact (H Bbx) | exact (H Bby) | exact (H Bpsi) ].

Ltac fdims_of H :=
  first [ exact (H Frho) | exact (H Fu) | exact (H Fv) | exact (H Fp)
        | exact (H Fe) | exact (H Fbx) | exact (H Fby) | exact (H Fpsi) ].

Lemma init_bufs_dims (flow : FlowField) :
  valid_flow flow ->
  bufs_dims (init_bufs flow) (nx (fl_rho flow)) (ny (fl_rho flow)).
Proof.
  intros (Hn & Hm & Hd) k. destruct k; simpl;
    first [ apply dims_zeros; lia | fdims_of Hd ].
Qed.

Lemma momentum_loop_cells (flow : FlowField) :
  let n := nx (fl_rho flow) in
  let m := ny (fl_rho flow) in
  valid_flow flow ->
  bufs_dims (for_loop2 0 n 0 m (momentum_body flow) (init_bufs flow)) n m /\
  forall k i j, in_grid n m i j ->
    get2 (bproj k (for_loop2 0 n 0 m (momentum_body flow) (init_bufs flow)))
         i j = bufs_init flow k i j.
Proof.
  intros n m Hv.
  assert (Hsame : forall i j b, bufs_dims b n m -> in_grid n m i j ->
            forall k, get2 (bproj k (momentum_body flow i j b)) i j =
                      match k with
                      | Bmomx | Bmomy => bufs_init flow k i j
                      | _ => get2 (bproj k b) i j
                      end).
  { intros i j b Hb Hij k. destruct k; simpl; try reflexivity;
      apply (get2_set2_same _ n m); auto; dims_of Hb. }
  destruct (for_loop2_cells Bufs bsel
              (fun b k i j => get2 (bproj k b) i j)
              (fun b => bufs_dims b n m) (in_grid n m)
              (momentum_body flow)) with
      (ilo := 0%Z) (ihi := n) (jlo := 0%Z) (jhi := m)
      (s0 := init_bufs flow) as [Hok Hc].
  - intros i j b Hb k. destruct k; simpl;
      first [ apply dims_set2; dims_of Hb | dims_of Hb ].
  - intros i j b k i' j' Hne. destruct k; simpl; try reflexivity;
      now apply get2_set2_other.
  - intros i j b b0 Hb Hb0 Hij Hview k. rewrite !Hsame by auto.
    destruct k; try reflexivity; apply Hview.
  - intros i j Hi Hj. split; assumption.
  - now apply init_bufs_dims.
  - split; [exact Hok|]. intros k i j Hij.
    destruct (Hc k i j) as [Ha _]. rewrite Ha by exact Hij.
    rewrite Hsame; auto; [|now apply init_bufs_dims].
    destruct k; reflexivity.
Qed.

Lemma ETA_pos : ETA > 0.
Proof. unfold ETA. lra. Qed.

Lemma final_bufs_cells (flow : FlowField) (dt nu : R) :
  let n := nx (fl_rho flow) in
  let m := ny (fl_rho flow) in
  valid_flow flow ->
  bufs_dims (final_bufs flow dt nu) n m /\
  forall k i j, in_grid n m i j ->
    get2 (bproj k (final_bufs flow dt nu)) i j = bufv flow dt nu k i j.
Proof.
  intros n m Hv. unfold final_bufs. fold n. fold m.
  destruct (momentum_loop_cells flow Hv) as [Hd1 Hc1]. fold n m in Hd1, Hc1.
  set (b1 := for_loop2 0 n 0 m (momentum_body flow) (init_bufs flow)) in *.
  set (sx := compute_slopes_x flow). set (sy := compute_slopes_y flow).
  destruct (for_loop2_cells Bufs bsel
              (fun b k i j => get2 (bproj k b) i j)
              (fun b => bufs_dims b n m) (in_grid n m)
              (update_cell flow sx sy dt nu)) with
      (ilo := 1%Z) (ihi := (n - 1)%Z) (jlo := 1%Z) (jhi := (m - 1)%Z)
      (s0 := b1) as [Hok Hc].
  - intros i j b Hb k. destruct k; simpl; apply dims_set2; dims_of Hb.
  - intros i j b k i' j' Hne. destruct k; simpl;
      now apply get2_set2_other.
  - intros i j b b0 Hb Hb0 Hij Hview k.
    pose proof (Hview Bmomx) as Emx. pose proof (Hview Bmomy) as Emy.
    pose proof (Hview Bbx) as Ebx. pose proof (Hview Bby) as Eby.
    simpl in Emx, Emy, Ebx, Eby.
    destruct k; unfold update_cell; simpl;
      rewrite !(get2_set2_same _ n m) by (auto; dims_of Hb || dims_of Hb0);
      rewrite ?Emx, ?Emy, ?Ebx, ?Eby; reflexivity.
  - intros i j Hi Hj. unfold in_grid. lia.
  - exact Hd1.
  - split; [exact Hok|]. intros k i j Hij.
    destruct (Hc k i j) as [Ha Hb]. unfold bufv. fold n m.
    destruct (interiorb n m i j) eqn:E.
    + apply interiorb_iff in E. rewrite Ha by exact E.
      pose proof (Hc1 Bmomx i j Hij) as Emx.
      pose proof (Hc1 Bmomy i j Hij) as Emy.
      pose proof (Hc1 Bbx i j Hij) as Ebx.
      pose proof (Hc1 Bby i j Hij) as Eby.
      simpl in Emx, Emy, Ebx, Eby.
      destruct k; unfold update_cell; simpl;
        rewrite !(get2_set2_same _ n m) by (auto; dims_of Hd1);
        rewrite ?Emx, ?Emy, ?Ebx, ?Eby;
        unfold new_rho, rho_unfloored, new_momx, new_momy, new_e,
          e_adjusted, rho_unfloored, new_bx, new_by, flux_bx, flux_by,
          new_psi; fold sx sy;
        try (destruct (Rgt_dec ETA 0) as [_|Hn]; [|destruct Hn; apply ETA_pos]);
        reflexivity.
    + rewrite Hb.
      * now apply Hc1.
      * intros H. apply interiorb_iff in H. congruence.
Qed.

(** ** Writing the primitive variables back *)

Lemma commit_loop_cells (flow : FlowField) (dt nu : R) :
  let n := nx (fl_rho flow) in
  let m := ny (fl_rho flow) in
  let flow1 := for_loop2 1 (n - 1) 1 (m - 1)
                         (commit_cell (final_bufs flow dt nu)) flow in
  valid_flow flow ->
  flow_dims flow1 n m /\
  forall k i j, in_grid n m i j ->
    get2 (fproj k flow1) i j = committed flow dt nu k i j.
Proof.
  intros n m flow1 Hv. subst flow1.
  destruct (final_bufs_cells flow dt nu Hv) as [Hbd Hbv]. fold n m in Hbd, Hbv.
  set (b := final_bufs flow dt nu) in *.
  assert (Hsame : forall i j f, flow_dims f n m -> in_grid n m i j ->
            forall k, get2 (fproj k (commit_cell b i j f)) i j =
                      match k with
                      | Fpsi => get2 (fproj Fpsi f) i j
                      | _ => get2 (fproj k (commit_cell b i j flow)) i j
                      end).
  { intros i j f Hf Hij k. destruct Hv as (_ & _ & Hd).
    destruct k; unfold fproj; simpl; try reflexivity;
      rewrite !(get2_set2_same _ n m) by (auto; fdims_of Hf || fdims_of Hd);
      reflexivity. }
  destruct (for_loop2_cells FlowField fsel
              (fun f k i j => get2 (fproj k f) i j)
              (fun f => flow_dims f n m) (in_grid n m)
              (commit_cell b)) with
      (ilo := 1%Z) (ihi := (n - 1)%Z) (jlo := 1%Z) (jhi := (m - 1)%Z)
      (s0 := flow) as [Hok Hc].
  - intros i j f Hf k. destruct k; unfold fproj; simpl;
      first [ apply dims_set2; fdims_of Hf | fdims_of Hf ].
  - intros i j f k i' j' Hne. destruct k; unfold fproj; simpl;
      try reflexivity; now apply get2_set2_other.
  - intros i j f f0 Hf Hf0 Hij Hview k.
    rewrite (Hsame i j f Hf Hij k), (Hsame i j f0 Hf0 Hij k).
    destruct k; try reflexivity. apply (Hview Fpsi).
  - intros i j Hi Hj. unfold in_grid. lia.
  - now destruct Hv as (_ & _ & Hd).
  - split; [exact Hok|]. intros k i j Hij.
    destruct (Hc k i j) as [Ha Hb]. unfold committed. fold n m.
    destruct (interiorb n m i j) eqn:E.
    + pose proof E as E'. apply interiorb_iff in E'. rewrite Ha by exact E'.
      destruct Hv as (_ & _ & Hd).
      destruct k; unfold fproj, prim_cell; simpl;
        try rewrite !(get2_set2_same _ n m) by (auto; fdims_of Hd);
        try reflexivity;
        fold b;
        try rewrite (Hbv Brho i j Hij : get2 (rho_new b) i j = _);
        try rewrite (Hbv Bmomx i j Hij : get2 (momx_new b) i j = _);
        try rewrite (Hbv Bmomy i j Hij : get2 (momy_new b) i j = _);
        try rewrite (Hbv Be i j Hij : get2 (e_new b) i j = _);
        try rewrite (Hbv Bbx i j Hij : get2 (bx_new b) i j = _);
        try rewrite (Hbv Bby i j Hij : get2 (by_new b) i j = _);
        unfold bufv; fold n m; rewrite E; reflexivity.
    + apply Hb. intros H. apply interiorb_iff in H. congruence.
Qed.

(** ** Periodic boundary loops *)

Lemma rem_left_src (n : Z) : (3 <= n)%Z -> Z.rem (n + 0 - 2) n = (n - 2)%Z.
Proof.
  intros H. replace (n + 0 - 2)%Z with (n - 2)%Z by lia.
  apply Z.rem_small. lia.
Qed.

Lemma rem_right_src (n : Z) : (3 <= n)%Z -> Z.rem (n - 1 + 2) n = 1%Z.
Proof.
  intros H. rewrite Z.rem_mod_nonneg by lia.
  replace (n - 1 + 2)%Z with (1 + 1 * n)%Z by lia.
  rewrite Z.mod_add by lia. apply Z.mod_small. lia.
Qed.

Lemma wrap_in_range (n i : Z) :
  (3 <= n)%Z -> (0 <= i < n)%Z -> (1 <= wrap n i < n - 1)%Z.
Proof.
  intros Hn Hi. unfold wrap.
  destruct (i =? 0)%Z eqn:E0; [lia|].
  destruct (i =? n - 1)%Z eqn:E1; [lia|].
  apply Z.eqb_neq in E0, E1. lia.
Qed.

Lemma wrap_interior (n i : Z) : (1 <= i < n - 1)%Z -> wrap n i = i.
Proof.
  intros Hi. unfold wrap.
  destruct (i =? 0)%Z eqn:E0; [apply Z.eqb_eq in E0; lia|].
  destruct (i =? n - 1)%Z eqn:E1; [apply Z.eqb_eq in E1; lia|reflexivity].
Qed.

Lemma bc_x_field_get (a : matrix) (n m j0 i j : Z) :
  (3 <= n)%Z -> dims a n m -> (0 <= j0 < m)%Z -> in_grid n m i j ->
  get2 (bc_x_field n j0 a) i j =
  if (j =? j0)%Z then get2 a (wrap n i) j0 else get2 a i j.
Proof.
  intros Hn Hd Hj0 [Hi Hj]. unfold bc_x_field.
  rewrite rem_left_src, rem_right_src by exact Hn.
  destruct (j =? j0)%Z eqn:Ej.
  - apply Z.eqb_eq in Ej. subst j0. unfold wrap.
    destruct (i =? 0)%Z eqn:E0.
    + apply Z.eqb_eq in E0. subst i.
      rewrite get2_set2_other by (intros E; inversion E; lia).
      apply (get2_set2_same _ n m); [exact Hd | split; lia].
    + apply Z.eqb_neq in E0. destruct (i =? n - 1)%Z eqn:E1.
      * apply Z.eqb_eq in E1. subst i.
        rewrite (get2_set2_same _ n m);
          [| now apply dims_set2 | split; lia].
        apply get2_set2_other. intros E; inversion E; lia.
      * apply Z.eqb_neq in E1.
        rewrite !get2_set2_other by (intros E; inversion E; lia).
        reflexivity.
  - apply Z.eqb_neq in Ej.
    rewrite !get2_set2_other by (intros E; inversion E; lia).
    reflexivity.
Qed.

Lemma bc_y_field_get (a : matrix) (n m i0 i j : Z) :
  (3 <= m)%Z -> dims a n m -> (0 <= i0 < n)%Z -> in_grid n m i j ->
  get2 (bc_y_field m i0 a) i j =
  if (i =? i0)%Z then get2 a i0 (wrap m j) else get2 a i j.
Proof.
  intros Hm Hd Hi0 [Hi Hj]. unfold bc_y_field.
  rewrite rem_left_src, rem_right_src by exact Hm.
  destruct (i =? i0)%Z eqn:Ei.
  - apply Z.eqb_eq in Ei. subst i0. unfold wrap.
    destruct (j =? 0)%Z eqn:E0.
    + apply Z.eqb_eq in E0. subst j.
      rewrite get2_set2_other by (intros E; inversion E; lia).
      apply (get2_set2_same _ n m); [exact Hd | split; lia].
    + apply Z.eqb_neq in E0. destruct (j =? m - 1)%Z eqn:E1.
      * apply Z.eqb_eq in E1. subst j.
        rewrite (get2_set2_same _ n m);
          [| now apply dims_set2 | split; lia].
        apply get2_set2_other. intros E; inversion E; lia.
      * apply Z.eqb_neq in E1.
        rewrite !get2_set2_other by (intros E; inversion E; lia).
        reflexivity.
  - apply Z.eqb_neq in Ei.
    rewrite !get2_set2_other by (intros E; inversion E; lia).
    reflexivity.
Qed.

Lemma bc_x_loop (a : matrix) (n m : Z) :
  (3 <= n)%Z -> dims a n m ->
  dims (for_loop 0 m (bc_x_field n) a) n m /\
  forall i j, in_grid n m i j ->
    get2 (for_loop 0 m (bc_x_field n) a) i j = get2 a (wrap n i) j.
Proof.
  intros Hn Hd. unfold for_loop.
  assert (H : forall l, NoDup l -> (forall j, In j l -> (0 <= j < m)%Z) ->
            dims (fold_left (fun acc j => bc_x_field n j acc) l a) n m /\
            forall i j, in_grid n m i j ->
              get2 (fold_left (fun acc j => bc_x_field n j acc) l a) i j =
              if in_dec Z.eq_dec j l then get2 a (wrap n i) j
              else get2 a i j).
  { induction l as [|j0 l IH] using rev_ind; intros Hnd Hin.
    - simpl. split; [exact Hd|]. reflexivity.
    - rewrite fold_left_app. simpl.
      apply NoDup_remove in Hnd. rewrite app_nil_r in Hnd.
      destruct Hnd as [Hnd Hj0].
      assert (Hj0m : (0 <= j0 < m)%Z)
        by (apply Hin, in_or_app; right; now left).
      destruct IH as [IHd IH]; auto.
      { intros j Hj. apply Hin. apply in_or_app. now left. }
      split; [unfold bc_x_field; now repeat apply dims_set2|].
      intros i j Hij. rewrite (bc_x_field_get _ n m) by auto.
      destruct (j =? j0)%Z eqn:Ej.
      + apply Z.eqb_eq in Ej. subst j0.
        rewrite IH by (destruct Hij; split;
                       [pose proof (wrap_in_range n i); lia | lia]).
        destruct (in_dec Z.eq_dec j l); [contradiction|].
        destruct (in_dec Z.eq_dec j (l ++ [j])) as [_|Hout];
          [reflexivity|].
        exfalso. apply Hout. apply in_or_app. right. now left.
      + apply Z.eqb_neq in Ej. rewrite IH by exact Hij.
        destruct (in_dec Z.eq_dec j l) as [Hl|Hl];
          destruct (in_dec Z.eq_dec j (l ++ [j0])) as [Hl'|Hl'];
          try reflexivity.
        * exfalso. apply Hl'. apply in_or_app. now left.
        * exfalso. apply in_app_or in Hl'. destruct Hl' as [?|[?|[]]];
            [contradiction | congruence]. }
  destruct (H (range 0 m)) as [H1 H2].
  - apply NoDup_range.
  - intros j Hj. now apply in_range in Hj.
  - split; [exact H1|]. intros i j Hij. rewrite H2 by exact Hij.
    destruct (in_dec Z.eq_dec j (range 0 m)) as [_|Hout]; [reflexivity|].
    exfalso. apply Hout. apply in_range. destruct Hij. lia.
Qed.

Lemma bc_y_loop (a : matrix) (n m : Z) :
  (3 <= m)%Z -> dims a n m ->
  dims (for_loop 0 n (bc_y_field m) a) n m /\
  forall i j, in_grid n m i j ->
    get2 (for_loop 0 n (bc_y_field m) a) i j = get2 a i (wrap m j).
Proof.
  intros Hm Hd. unfold for_loop.
  assert (H : forall l, NoDup l -> (forall i, In i l -> (0 <= i < n)%Z) ->
            dims (fold_left (fun acc i => bc_y_field m i acc) l a) n m /\
            forall i j, in_grid n m i j ->
              get2 (fold_left (fun acc i => bc_y_field m i acc) l a) i j =
              if in_dec Z.eq_dec i l then get2 a i (wrap m j)
              else get2 a i j).
  { induction l as [|i0 l IH] using rev_ind; intros Hnd Hin.
    - simpl. split; [exact Hd|]. reflexivity.
    - rewrite fold_left_app. simpl.
      apply NoDup_remove in Hnd. rewrite app_nil_r in Hnd.
      destruct Hnd as [Hnd Hi0].
      assert (Hi0n : (0 <= i0 < n)%Z)
        by (apply Hin, in_or_app; right; now left).
      destruct IH as [IHd IH]; auto.
      { intros i Hi. apply Hin. apply in_or_app. now left. }
      split; [unfold bc_y_field; now repeat apply dims_set2|].
      intros i j Hij. rewrite (bc_y_field_get _ n m) by auto.
      destruct (i =? i0)%Z eqn:Ei.
      + apply Z.eqb_eq in Ei. subst i0.
        rewrite IH by (destruct Hij; split;
                       [lia | pose proof (wrap_in_range m j); lia]).
        destruct (in_dec Z.eq_dec i l); [contradiction|].
        destruct (in_dec Z.eq_dec i (l ++ [i])) as [_|Hout];
          [reflexivity|].
        exfalso. apply Hout. apply in_or_app. right. now left.
      + apply Z.eqb_neq in Ei. rewrite IH by exact Hij.
        destruct (in_dec Z.eq_dec i l) as [Hl|Hl];
          destruct (in_dec Z.eq_dec i (l ++ [i0])) as [Hl'|Hl'];
          try reflexivity.
        * exfalso. apply Hl'. apply in_or_app. now left.
        * exfalso. apply in_app_or in Hl'. destruct Hl' as [?|[?|[]]];
            [contradiction | congruence]. }
  destruct (H (range 0 n)) as [H1 H2].
  - apply NoDup_range.
  - intros i Hi. now apply in_range in Hi.
  - split; [exact H1|]. intros i j Hij. rewrite H2 by exact Hij.
    destruct (in_dec Z.eq_dec i (range 0 n)) as [_|Hout]; [reflexivity|].
    exfalso. apply Hout. apply in_range. destruct Hij. lia.
Qed.

Lemma fproj_map_fields (f : matrix -> matrix) (flow : FlowField) (k : fsel) :
  fproj k (map_fields f flow) = f (fproj k flow).
Proof. destruct k; reflexivity. Qed.

Lemma fproj_for_loop_map_fields (f : Z -> matrix -> matrix) (lo hi : Z)
      (flow : FlowField) (k : fsel) :
  fproj k (for_loop lo hi (fun i => map_fields (f i)) flow) =
  for_loop lo hi f (fproj k flow).
Proof.
  unfold for_loop. revert flow.
  induction (range lo hi) as [|i l IH]; intros flow; simpl.
  - reflexivity.
  - rewrite IH. now rewrite fproj_map_fields.
Qed.

(** ** The GLM loop and the whole step *)

Lemma rem_in_range (a n : Z) :
  (0 <= a)%Z -> (0 < n)%Z -> (0 <= Z.rem a n < n)%Z.
Proof. intros Ha Hn. now apply Z.rem_bound_pos. Qed.

Lemma glm_loop_cells (flow f2 : FlowField) (dt nu : R) :
  let n := nx (fl_rho flow) in
  let m := ny (fl_rho flow) in
  let f3 := for_loop2 0 n 0 m
                      (glm_cell (fl_rho flow) (final_bufs flow dt nu) dt) f2 in
  valid_flow flow -> flow_dims f2 n m ->
  flow_dims f3 n m /\
  forall i j, in_grid n m i j ->
    (forall k, k <> Fpsi -> get2 (fproj k f3) i j = get2 (fproj k f2) i j) /\
    get2 (fproj Fpsi f3) i j = glm_psi flow dt nu i j.
Proof.
  intros n m f3 Hv Hd2. subst f3.
  destruct (final_bufs_cells flow dt nu Hv) as [Hbd Hbv]. fold n m in Hbd, Hbv.
  set (b := final_bufs flow dt nu) in *.
  assert (Hn : (3 <= n)%Z) by apply Hv.
  assert (Hm : (3 <= m)%Z) by apply Hv.
  assert (Hsame : forall i j f, flow_dims f n m -> in_grid n m i j ->
            forall k, get2 (fproj k (glm_cell (fl_rho flow) b dt i j f)) i j =
                      match k with
                      | Fpsi => glm_psi flow dt nu i j
                      | _ => get2 (fproj k f) i j
                      end).
  { intros i j f Hf [Hi Hj] k.
    destruct k; unfold fproj; simpl; try reflexivity.
    rewrite (get2_set2_same _ n m)
      by first [ fdims_of Hf | split; assumption ].
    unfold glm_psi. fold n m.
    pose proof (rem_in_range (i + 1) n ltac:(lia) ltac:(lia)).
    pose proof (rem_in_range (i - 1 + n) n ltac:(lia) ltac:(lia)).
    pose proof (rem_in_range (j + 1) m ltac:(lia) ltac:(lia)).
    pose proof (rem_in_range (j - 1 + m) m ltac:(lia) ltac:(lia)).
    rewrite <- !Hbv by (split; lia). reflexivity. }
  destruct (for_loop2_cells FlowField fsel
              (fun f k i j => get2 (fproj k f) i j)
              (fun f => flow_dims f n m) (in_grid n m)
              (glm_cell (fl_rho flow) b dt)) with
      (ilo := 0%Z) (ihi := n) (jlo := 0%Z) (jhi := m)
      (s0 := f2) as [Hok Hc].
  - intros i j f Hf k. destruct k; unfold fproj; simpl;
      first [ apply dims_set2; fdims_of Hf | fdims_of Hf ].
  - intros i j f k i' j' Hne. destruct k; unfold fproj; simpl;
      try reflexivity; now apply get2_set2_other.
  - intros i j f f0 Hf Hf0 Hij Hview k.
    rewrite (Hsame i j f Hf Hij k), (Hsame i j f0 Hf0 Hij k).
    destruct k; try reflexivity; apply Hview.
  - intros i j Hi Hj. split; assumption.
  - exact Hd2.
  - split; [exact Hok|]. intros i j Hij. split.
    + intros k Hk. destruct (Hc k i j) as [Ha _]. rewrite Ha by exact Hij.
      rewrite Hsame by auto. destruct k; try reflexivity. congruence.
    + destruct (Hc Fpsi i j) as [Ha _]. rewrite Ha by exact Hij.
      now rewrite Hsame by auto.
Qed.

Lemma flow_dims_map_loop (f : Z -> matrix -> matrix) (lo hi n m : Z)
      (flow : FlowField) :
  (forall a, dims a n m -> dims (for_loop lo hi f a) n m) ->
  flow_dims flow n m ->
  flow_dims (for_loop lo hi (fun i => map_fields (f i)) flow) n m.
Proof.
  intros Hf Hd k. rewrite fproj_for_loop_map_fields. apply Hf, Hd.
Qed.

(** Every cell of the state after the step, for a given clamped [dt]: the
    seven fields other than [psi] hold the written-back value of the
    interior cell they mirror; [psi] holds the value of the GLM loop. *)
Lemma step_cells (flow : FlowField) (dt nu : R) :
  let n := nx (fl_rho flow) in
  let m := ny (fl_rho flow) in
  valid_flow flow ->
  flow_dims (step_with_dt flow dt nu) n m /\
  forall i j, in_grid n m i j ->
    (forall k, k <> Fpsi ->
       get2 (fproj k (step_with_dt flow dt nu)) i j
       = committed flow dt nu k (wrap n i) (wrap m j)) /\
    get2 (fproj Fpsi (step_with_dt flow dt nu)) i j = glm_psi flow dt nu i j.
Proof.
  intros n m Hv. unfold step_with_dt. fold n m.
  assert (Hn : (3 <= n)%Z) by apply Hv.
  assert (Hm : (3 <= m)%Z) by apply Hv.
  destruct (commit_loop_cells flow dt nu Hv) as [Hd1 Hc1]. fold n m in Hd1, Hc1.
  set (f1 := for_loop2 1 (n - 1) 1 (m - 1)
                       (commit_cell (final_bufs flow dt nu)) flow) in *.
  set (f2 := for_loop 0 m (fun j => map_fields (bc_x_field n j)) f1).
  set (f3 := for_loop 0 n (fun i => map_fields (bc_y_field m i)) f2).
  assert (Hd2 : flow_dims f2 n m).
  { apply flow_dims_map_loop; [|exact Hd1].
    intros a Ha. now apply bc_x_loop. }
  assert (Hd3 : flow_dims f3 n m).
  { apply flow_dims_map_loop; [|exact Hd2].
    intros a Ha. now apply bc_y_loop. }
  destruct (glm_loop_cells flow f3 dt nu Hv Hd3) as [Hd4 Hc4].
  fold n m in Hd4, Hc4.
  split; [exact Hd4|]. intros i j Hij.
  destruct (Hc4 i j Hij) as [Hk Hpsi]. split; [|exact Hpsi].
  intros k Hne. rewrite Hk by exact Hne.
  unfold f3. rewrite fproj_for_loop_map_fields.
  destruct (bc_y_loop (fproj k f2) n m Hm (Hd2 k)) as [_ Hy].
  rewrite Hy by exact Hij.
  unfold f2. rewrite fproj_for_loop_map_fields.
  destruct (bc_x_loop (fproj k f1) n m Hn (Hd1 k)) as [_ Hx].
  destruct Hij as [Hi Hj].
  pose proof (wrap_in_range n i Hn Hi). pose proof (wrap_in_range m j Hm Hj).
  rewrite Hx by (split; lia).
  apply Hc1. split; lia.
Qed.

(** The same, field by field, in the form used on concrete states. *)
Lemma step_psi_cell (flow : FlowField) (dt nu : R) (i j : Z) :
  valid_flow flow ->
  in_grid (nx (fl_rho flow)) (ny (fl_rho flow)) i j ->
  get2 (data (fl_psi (step_with_dt flow dt nu))) i j = glm_psi flow dt nu i j.
Proof.
  intros Hv Hij. destruct (step_cells flow dt nu Hv) as [_ Hc].
  now destruct (Hc i j Hij) as [_ H].
Qed.

Lemma step_rho_cell (flow : FlowField) (dt nu : R) (i j : Z) :
  valid_flow flow ->
  in_grid (nx (fl_rho flow)) (ny (fl_rho flow)) i j ->
  get2 (data (fl_rho (step_with_dt flow dt nu))) i j
  = committed flow dt nu Frho (wrap (nx (fl_rho flow)) i)
              (wrap (ny (fl_rho flow)) j).
Proof.
  intros Hv Hij. destruct (step_cells flow dt nu Hv) as [_ Hc].
  destruct (Hc i j Hij) as [H _]. apply (H Frho). discriminate.
Qed.

Lemma step_bx_cell (flow : FlowField) (dt nu : R) (i j : Z) :
  valid_flow flow ->
  in_grid (nx (fl_rho flow)) (ny (fl_rho flow)) i j ->
  get2 (data (fl_bx (step_with_dt flow dt nu))) i j
  = committed flow dt nu Fbx (wrap (nx (fl_rho flow)) i)
              (wrap (ny (fl_rho flow)) j).
Proof.
  intros Hv Hij. destruct (step_cells flow dt nu Hv) as [_ Hc].
  destruct (Hc i j Hij) as [H _]. apply (H Fbx). discriminate.
Qed.

Lemma step_by_cell (flow : FlowField) (dt nu : R) (i j : Z) :
  valid_flow flow ->
  in_grid (nx (fl_rho flow)) (ny (fl_rho flow)) i j ->
  get2 (data (fl_by (step_with_dt flow dt nu))) i j
  = committed flow dt nu Fby (wrap (nx (fl_rho flow)) i)
              (wrap (ny (fl_rho flow)) j).
Proof.
  intros Hv Hij. destruct (step_cells flow dt nu Hv) as [_ Hc].
  destruct (Hc i j Hij) as [H _]. apply (H Fby). discriminate.
Qed.

(* ================================================================== *)
(** * Construction of grids (grid.cpp) *)

Lemma vector_fill_ok {A : Type} (n : Z) (x : A) :
  (0 <= n)%Z -> vector_fill n x = Ok (repeat x (Z.to_nat n)).
Proof.
  intros H. unfold vector_fill.
  destruct (n <? 0)%Z eqn:E; [apply Z.ltb_lt in E; lia|reflexivity].
Qed.

Lemma dims_repeat (n m : Z) (x : R) :
  (0 <= n)%Z -> (0 <= m)%Z ->
  dims (repeat (repeat x (Z.to_nat m)) (Z.to_nat n)) n m.
Proof.
  intros Hn Hm. split.
  - rewrite repeat_length. lia.
  - apply Forall_forall. intros r Hr. apply repeat_spec in Hr. subst r.
    rewrite repeat_length. lia.
Qed.

Lemma Grid_ctor_ok (n m : Z) (h k a b : R) :
  (3 <= n)%Z -> (3 <= m)%Z ->
  Grid_ctor n m h k a b =
  Ok (mkGrid n m h k a b (repeat (repeat 0 (Z.to_nat m)) (Z.to_nat n))).
Proof.
  intros Hn Hm. unfold Grid_ctor.
  rewrite (vector_fill_ok m) by lia. simpl.
  rewrite (vector_fill_ok n) by lia. simpl.
  replace ((n <? 3) || (m <? 3))%Z with false; [reflexivity|].
  symmetry. apply orb_false_intro; apply Z.ltb_ge; lia.
Qed.

Lemma Grid_ctor_throws (n m : Z) (h k a b : R) :
  (n < 3)%Z \/ (m < 3)%Z -> throws (Grid_ctor n m h k a b).
Proof.
  intros H. unfold Grid_ctor, vector_fill, throws.
  destruct (m <? 0)%Z eqn:Em; simpl; [eauto|].
  destruct (n <? 0)%Z eqn:En; simpl; [eauto|].
  replace ((n <? 3) || (m <? 3))%Z with true; [eauto|].
  symmetry. apply orb_true_iff. rewrite !Z.ltb_lt. exact H.
Qed.

(** C9. Constructing a [Grid] or a [FlowField] throws exactly when
    [nx < 3] or [ny < 3]; for [nx >= 3] and [ny >= 3] it succeeds, the grid
    records the requested sizes and every data array has exactly [nx] rows
    of [ny] cells. *)
Theorem C9_construction_size_check (n m : Z) (h k a b : R) :
  (throws (Grid_ctor n m h k a b) <-> (n < 3)%Z \/ (m < 3)%Z) /\
  (throws (FlowField_ctor n m h k a b) <-> (n < 3)%Z \/ (m < 3)%Z) /\
  ((3 <= n)%Z /\ (3 <= m)%Z ->
   (exists g, Grid_ctor n m h k a b = Ok g /\
              nx g = n /\ ny g = m /\ dims (data g) n m) /\
   (exists f, FlowField_ctor n m h k a b = Ok f /\
              nx (fl_rho f) = n /\ ny (fl_rho f) = m /\ flow_dims f n m)).
Proof.
  assert (Hok : (3 <= n)%Z /\ (3 <= m)%Z ->
                FlowField_ctor n m h k a b =
                let g := mkGrid n m h k a b
                           (repeat (repeat 0 (Z.to_nat m)) (Z.to_nat n)) in
                Ok (mkFlowField g g g g g g g g)).
  { intros [Hn Hm]. unfold FlowField_ctor.
    rewrite !Grid_ctor_ok by assumption. simpl.
    replace ((n <? 3) || (m <? 3))%Z with false; [reflexivity|].
    symmetry. apply orb_false_intro; apply Z.ltb_ge; lia. }
  split; [|split].
  - split.
    + intros [x Hx]. destruct (Z_lt_ge_dec n 3) as [?|Hn]; [now left|].
      destruct (Z_lt_ge_dec m 3) as [?|Hm]; [now right|].
      rewrite Grid_ctor_ok in Hx by lia. discriminate.
    + apply Grid_ctor_throws.
  - split.
    + intros [x Hx]. destruct (Z_lt_ge_dec n 3) as [?|Hn]; [now left|].
      destruct (Z_lt_ge_dec m 3) as [?|Hm]; [now right|].
      rewrite Hok in Hx by lia. discriminate.
    + intros H. unfold FlowField_ctor.
      destruct (Grid_ctor_throws n m h k a b H) as [x Hx].
      rewrite Hx. simpl. now exists x.
  - intros [Hn Hm]. split.
    + eexists. split; [now apply Grid_ctor_ok|]. simpl.
      repeat split; auto; apply dims_repeat; lia.
    + eexists. split; [now apply Hok|]. simpl.
      split; [reflexivity|]. split; [reflexivity|].
      intros []; apply dims_repeat; lia.
Qed.

Lemma C9_witness :
  ((3 <= 3)%Z /\ (3 <= 4)%Z) /\
  (exists g, Grid_ctor 3 4 1 1 0 0 = Ok g /\
             nx g = 3%Z /\ ny g = 4%Z /\ dims (data g) 3 4) /\
  (exists f, FlowField_ctor 3 4 1 1 0 0 = Ok f /\
             nx (fl_rho f) = 3%Z /\ ny (fl_rho f) = 4%Z /\ flow_dims f 3 4).
Proof.
  split; [lia|].
  apply (proj2 (proj2 (C9_construction_size_check 3 4 1 1 0 0))). lia.
Defined.

(* ================================================================== *)
(** * The timestep used by [solve_MHD] *)

Lemma dt_used_idem (flow : FlowField) (dt : R) :
  dt_used flow (dt_used flow dt) = dt_used flow dt.
Proof.
  unfold dt_used.
  set (c := compute_cfl_timestep flow default_cfl_number).
  unfold Rmin. destruct (Rle_dec dt c); destruct (Rle_dec dt c);
    try contradiction.
  - destruct (Rle_dec dt c); [reflexivity|contradiction].
  - destruct (Rle_dec c c); reflexivity.
Qed.

Lemma solve_MHD_state (flow : FlowField) (dt nu : R) :
  fst (solve_MHD flow dt nu) = step_with_dt flow (dt_used flow dt) nu.
Proof. reflexivity. Qed.

(** C2, counterexample: on a 3 by 3 state at rest, with [dt = 0.1] and no
    viscosity, the value handed back by [solve_MHD] is not the timestep
    [min(dt, dt_cfl)] (the function is declared [void]). *)
Lemma C2_counterexample :
  snd (solve_MHD (rest_flow 3 3 0.1 1 1 0 0) 0.1 0)
  <> Double (Rmin 0.1 (compute_cfl_timestep (rest_flow 3 3 0.1 1 1 0 0)
                                             default_cfl_number)).
Proof. simpl. discriminate. Qed.

(** C2, as amended: [solve_MHD] hands nothing back to its caller; the
    update it performs uses the timestep [min(dt, dt_cfl)], where [dt_cfl]
    is [compute_cfl_timestep] with the default safety factor, so that the
    resulting state is the one obtained when the caller passes that clamped
    timestep itself. *)
Theorem C2_timestep_clamped_not_returned (flow : FlowField) (dt nu : R) :
  snd (solve_MHD flow dt nu) = Void /\
  dt_used flow dt = Rmin dt (compute_cfl_timestep flow default_cfl_number) /\
  fst (solve_MHD flow dt nu) = step_with_dt flow (dt_used flow dt) nu /\
  fst (solve_MHD flow dt nu) = fst (solve_MHD flow (dt_used flow dt) nu).
Proof.
  repeat split.
  rewrite !solve_MHD_state. now rewrite dt_used_idem.
Qed.

(* ================================================================== *)
(** * Concrete states are valid *)

Lemma dims_const (n m : nat) (x : R) :
  dims (repeat (repeat x m) n) (Z.of_nat n) (Z.of_nat m).
Proof.
  split.
  - now rewrite repeat_length.
  - apply Forall_forall. intros r Hr. apply repeat_spec in Hr. subst r.
    now rewrite repeat_length.
Qed.

Lemma get2_const (n m : nat) (x : R) (i j : Z) :
  in_grid (Z.of_nat n) (Z.of_nat m) i j ->
  get2 (repeat (repeat x m) n) i j = x.
Proof.
  intros [Hi Hj]. unfold get2.
  replace ((i <? 0) || (j <? 0))%Z with false
    by (symmetry; apply orb_false_intro; apply Z.ltb_ge; lia).
  rewrite (nth_indep _ [] (repeat x m)) by (rewrite repeat_length; lia).
  rewrite nth_repeat_default.
  rewrite (nth_indep _ 0 x) by (rewrite repeat_length; lia).
  apply nth_repeat_default.
Qed.

Lemma rest_flow_valid (n m : nat) (h rho0 p0 bx0 by0 : R) :
  (3 <= n)%nat -> (3 <= m)%nat -> valid_flow (rest_flow n m h rho0 p0 bx0 by0).
Proof.
  intros Hn Hm. unfold valid_flow. simpl. repeat split; try lia;
    destruct k; apply dims_const.
Qed.

(* ================================================================== *)
(** * The CFL timestep *)

Lemma fold_Rmin_spec {X : Type} (f : X -> R) (l : list X) (a0 : R) :
  let r := fold_left (fun acc x => Rmin acc (f x)) l a0 in
  r <= a0 /\ (forall x, In x l -> r <= f x) /\
  (r = a0 \/ exists x, In x l /\ r = f x).
Proof.
  revert a0. induction l as [|y l IH]; intros a0; simpl.
  - split; [apply Rle_refl|]. split; [tauto|now left].
  - destruct (IH (Rmin a0 (f y))) as (H1 & H2 & H3).
    split; [|split].
    + eapply Rle_trans; [exact H1|apply Rmin_l].
    + intros x [->|Hx].
      * eapply Rle_trans; [exact H1|apply Rmin_r].
      * now apply H2.
    + destruct H3 as [H3|[x [Hx H3]]].
      * destruct (Rle_dec a0 (f y)) as [Hle|Hgt].
        -- left. rewrite H3. now apply Rmin_left.
        -- right. exists y. split; [now left|].
           rewrite H3. apply Rmin_right. lra.
      * right. exists x. split; [now right|exact H3].
Qed.

Lemma cell_dt_spec (flow : FlowField) (i j : Z) :
  cell_dt flow i j = spec_cell_dt flow i j.
Proof. reflexivity. Qed.

(** The reduction of the CFL loop: the smaller of the initial [1e10] and
    the minimum over the interior cells. *)
Lemma cfl_loop_min (flow : FlowField) (pm : R) :
  is_physical_min flow pm ->
  for_loop2 1 (nx (fl_rho flow) - 1) 1 (ny (fl_rho flow) - 1)
            (fun i j dt_min => Rmin dt_min (cell_dt flow i j)) 1e10
  = Rmin 1e10 pm.
Proof.
  intros [[i0 [j0 [Hint Hpm]]] Hmin]. rewrite for_loop2_idx2.
  pose proof (fold_Rmin_spec (fun ij => cell_dt flow (fst ij) (snd ij))
                (idx2 1 (nx (fl_rho flow) - 1) 1 (ny (fl_rho flow) - 1))
                1e10) as H.
  cbv zeta in H. destruct H as (H1 & H2 & H3).
  remember (fold_left _ _ _) as r eqn:Er. clear Er.
  assert (Hr : r <= pm).
  { rewrite <- Hpm. apply (H2 (i0, j0)). now apply in_idx2. }
  destruct H3 as [H3|[[i j] [Hin H3]]].
  - subst r. symmetry. now apply Rmin_left.
  - apply in_idx2 in Hin. simpl in H3.
    pose proof (Hmin i j Hin) as Hge. rewrite <- cell_dt_spec, <- H3 in Hge.
    assert (Heq : r = pm) by (apply Rle_antisym; assumption).
    rewrite Heq in H1. rewrite Heq. symmetry. now apply Rmin_right.
Qed.

Lemma list_min_exists {X : Type} (f : X -> R) (l : list X) :
  l <> [] -> exists x, In x l /\ forall y, In y l -> f x <= f y.
Proof.
  induction l as [|a l IH]; intros Hne; [congruence|].
  destruct l as [|b l].
  - exists a. split; [now left|]. intros y [<-|[]]. apply Rle_refl.
  - destruct IH as [x [Hx Hmin]]; [discriminate|].
    destruct (Rle_dec (f a) (f x)) as [Hle|Hgt].
    + exists a. split; [now left|]. intros y [<-|Hy]; [apply Rle_refl|].
      eapply Rle_trans; [exact Hle|now apply Hmin].
    + exists x. split; [now right|]. intros y [<-|Hy]; [lra|].
      now apply Hmin.
Qed.

(** A grid of at least 3 by 3 cells has interior cells, so the minimum
    over them exists. *)
Lemma physical_min_exists (flow : FlowField) :
  (3 <= nx (fl_rho flow))%Z -> (3 <= ny (fl_rho flow))%Z ->
  exists pm, is_physical_min flow pm.
Proof.
  intros Hn Hm.
  destruct (list_min_exists
              (fun ij => spec_cell_dt flow (fst ij) (snd ij))
              (idx2 1 (nx (fl_rho flow) - 1) 1 (ny (fl_rho flow) - 1)))
    as [[i j] [Hin Hmin]].
  - intros E.
    assert (H : In (1%Z, 1%Z)
                   (idx2 1 (nx (fl_rho flow) - 1) 1 (ny (fl_rho flow) - 1)))
      by (apply in_idx2; lia).
    rewrite E in H. destruct H.
  - exists (spec_cell_dt flow i j). split.
    + exists i, j. split; [now apply in_idx2 in Hin|reflexivity].
    + intros i' j' Hint. apply (Hmin (i', j')). now apply in_idx2.
Qed.

(* ================================================================== *)
(** * The HLL flux *)

Lemma fast_speed_nonneg (rho p Bx By : R) :
  0 <= compute_fast_speed rho p Bx By.
Proof. unfold compute_fast_speed. apply sqrt_pos. Qed.

Section HLLCases.
Variables rhoL uL vL pL BxL ByL psiL rhoR uR vR pR BxR ByR psiR : R.

Let B2L := BxL * BxL + ByL * ByL.
Let B2R := BxR * BxR + ByR * ByR.
Let ptL := pL + 0.5 * B2L.
Let ptR := pR + 0.5 * B2R.
Let EL := pL / (gamma_gas - 1) + 0.5 * rhoL * (uL * uL + vL * vL) + 0.5 * B2L.
Let ER := pR / (gamma_gas - 1) + 0.5 * rhoR * (uR * uR + vR * vR) + 0.5 * B2R.
Let cfL := compute_fast_speed rhoL pL BxL ByL.
Let cfR := compute_fast_speed rhoR pR BxR ByR.
Let fx :=
  compute_hll_flux_x rhoL uL vL pL BxL ByL psiL rhoR uR vR pR BxR ByR psiR.
Let fy :=
  compute_hll_flux_y rhoL uL vL pL BxL ByL psiL rhoR uR vR pR BxR ByR psiR.

(** The physical flux of the left state, with the GLM coupling. *)
Lemma hll_flux_x_left :
  Rmin (uL - cfL) (uR - cfR) > 0 ->
  fx = mkHLLFlux (rhoL * uL)
                 (rhoL * uL * uL + ptL - BxL * BxL)
                 (rhoL * uL * vL - BxL * ByL)
                 ((EL + ptL) * uL - BxL * (uL * BxL + vL * ByL))
                 psiL (uL * ByL - vL * BxL) (CH * CH * BxL).
Proof.
  intros H. unfold fx, compute_hll_flux_x. fold cfL cfR.
  destruct (Rgt_dec (Rmin (uL - cfL) (uR - cfR)) 0); [reflexivity|].
  contradiction.
Qed.

Lemma hll_flux_y_left :
  Rmin (vL - cfL) (vR - cfR) > 0 ->
  fy = mkHLLFlux (rhoL * vL)
                 (rhoL * vL * uL - ByL * BxL)
                 (rhoL * vL * vL + ptL - ByL * ByL)
                 ((EL + ptL) * vL - ByL * (uL * BxL + vL * ByL))
                 (vL * BxL - uL * ByL) psiL (CH * CH * ByL).
Proof.
  intros H. unfold fy, compute_hll_flux_y. fold cfL cfR.
  destruct (Rgt_dec (Rmin (vL - cfL) (vR - cfR)) 0); [reflexivity|].
  contradiction.
Qed.

Lemma hll_speeds_ordered (a b : R) :
  Rmin (a - cfL) (b - cfR) <= Rmax (a + cfL) (b + cfR).
Proof.
  pose proof (fast_speed_nonneg rhoL pL BxL ByL) as HL. fold cfL in HL.
  apply Rle_trans with (a - cfL); [apply Rmin_l|].
  apply Rle_trans with (a + cfL); [lra|apply Rmax_l].
Qed.

(** The physical flux of the right state, with the GLM coupling. *)
Lemma hll_flux_x_right :
  Rmax (uL + cfL) (uR + cfR) < 0 ->
  fx = mkHLLFlux (rhoR * uR)
                 (rhoR * uR * uR + ptR - BxR * BxR)
                 (rhoR * uR * vR - BxR * ByR)
                 ((ER + ptR) * uR - BxR * (uR * BxR + vR * ByR))
                 psiR (uR * ByR - vR * BxR) (CH * CH * BxR).
Proof.
  intros H. unfold fx, compute_hll_flux_x. fold cfL cfR.
  pose proof (hll_speeds_ordered uL uR).
  destruct (Rgt_dec (Rmin (uL - cfL) (uR - cfR)) 0); [lra|].
  destruct (Rlt_dec (Rmax (uL + cfL) (uR + cfR)) 0); [reflexivity|].
  contradiction.
Qed.

Lemma hll_flux_y_right :
  Rmax (vL + cfL) (vR + cfR) < 0 ->
  fy = mkHLLFlux (rhoR * vR)
                 (rhoR * vR * uR - ByR * BxR)
                 (rhoR * vR * vR + ptR - ByR * ByR)
                 ((ER + ptR) * vR - ByR * (uR * BxR + vR * ByR))
                 (vR * BxR - uR * ByR) psiR (CH * CH * ByR).
Proof.
  intros H. unfold fy, compute_hll_flux_y. fold cfL cfR.
  pose proof (hll_speeds_ordered vL vR).
  destruct (Rgt_dec (Rmin (vL - cfL) (vR - cfR)) 0); [lra|].
  destruct (Rlt_dec (Rmax (vL + cfL) (vR + cfR)) 0); [reflexivity|].
  contradiction.
Qed.

(** Between the two signal speeds: the HLL average for six components;
    the [psi] component is [CH^2] times the average of [B_normal] taken
    as flux and [psi] as state, so its [S_L*S_R*(psi_R - psi_L)] term
    carries the factor [CH^2] too. *)
Lemma hll_flux_x_middle :
  let SL := Rmin (uL - cfL) (uR - cfR) in
  let SR := Rmax (uL + cfL) (uR + cfR) in
  ~ SL > 0 -> ~ SR < 0 ->
  F_rho fx = hll_average SL SR (rhoL * uL) (rhoR * uR) rhoL rhoR /\
  F_momx fx = hll_average SL SR (rhoL * uL * uL + ptL - BxL * BxL)
                          (rhoR * uR * uR + ptR - BxR * BxR)
                          (rhoL * uL) (rhoR * uR) /\
  F_momy fx = hll_average SL SR (rhoL * uL * vL - BxL * ByL)
                          (rhoR * uR * vR - BxR * ByR)
                          (rhoL * vL) (rhoR * vR) /\
  F_E fx = hll_average SL SR
                       ((EL + ptL) * uL - BxL * (uL * BxL + vL * ByL))
                       ((ER + ptR) * uR - BxR * (uR * BxR + vR * ByR))
                       EL ER /\
  F_Bx fx = hll_average SL SR psiL psiR BxL BxR /\
  F_By fx = hll_average SL SR (uL * ByL - vL * BxL) (uR * ByR - vR * BxR)
                        ByL ByR /\
  F_psi fx = CH * CH * hll_average SL SR BxL BxR psiL psiR.
Proof.
  intros SL SR H1 H2. unfold fx, compute_hll_flux_x. fold cfL cfR SL SR.
  destruct (Rgt_dec SL 0); [contradiction|].
  destruct (Rlt_dec SR 0); [contradiction|].
  simpl. unfold hll_average. repeat split; try reflexivity.
  unfold Rdiv. ring.
Qed.

Lemma hll_flux_y_middle :
  let SL := Rmin (vL - cfL) (vR - cfR) in
  let SR := Rmax (vL + cfL) (vR + cfR) in
  ~ SL > 0 -> ~ SR < 0 ->
  F_rho fy = hll_average SL SR (rhoL * vL) (rhoR * vR) rhoL rhoR /\
  F_momx fy = hll_average SL SR (rhoL * vL * uL - ByL * BxL)
                          (rhoR * vR * uR - ByR * BxR)
                          (rhoL * uL) (rhoR * uR) /\
  F_momy fy = hll_average SL SR (rhoL * vL * vL + ptL - ByL * ByL)
                          (rhoR * vR * vR + ptR - ByR * ByR)
                          (rhoL * vL) (rhoR * vR) /\
  F_E fy = hll_average SL SR
                       ((EL + ptL) * vL - ByL * (uL * BxL + vL * ByL))
                       ((ER + ptR) * vR - ByR * (uR * BxR + vR * ByR))
                       EL ER /\
  F_Bx fy = hll_average SL SR (vL * BxL - uL * ByL) (vR * BxR - uR * ByR)
                        BxL BxR /\
  F_By fy = hll_average SL SR psiL psiR ByL ByR /\
  F_psi fy = CH * CH * hll_average SL SR ByL ByR psiL psiR.
Proof.
  intros SL SR H1 H2. unfold fy, compute_hll_flux_y. fold cfL cfR SL SR.
  destruct (Rgt_dec SL 0); [contradiction|].
  destruct (Rlt_dec SR 0); [contradiction|].
  simpl. unfold hll_average. repeat split; try reflexivity.
  unfold Rdiv. ring.
Qed.
End HLLCases.

Lemma fast_speed_unit : compute_fast_speed 1 0.6 0 0 = 1.
Proof.
  unfold compute_fast_speed, gamma_gas.
  replace (5 / 3 * 0.6 / 1 + (0 * 0 + 0 * 0) / 1) with 1 by lra.
  apply sqrt_1.
Qed.

(** C7, evaluated at the failing input: both states at rest with
    [rho = 1], [p = 0.6], [B = 0] (fast speed [1], so [S_L = -1] and
    [S_R = 1]), [psi_L = 0] and [psi_R = 1].  The HLL average of the [psi]
    component, with flux [c_h^2 * B_normal] and state [psi], is [-1/2];
    both flux functions return [-0.32], that is [c_h^2] times it. *)
Theorem C7_psi_flux_is_scaled_average :
  Rmin (0 - compute_fast_speed 1 0.6 0 0) (0 - compute_fast_speed 1 0.6 0 0)
  = -1 /\
  Rmax (0 + compute_fast_speed 1 0.6 0 0) (0 + compute_fast_speed 1 0.6 0 0)
  = 1 /\
  hll_average (-1) 1 (CH * CH * 0) (CH * CH * 0) 0 1 = - (1 / 2) /\
  F_psi (compute_hll_flux_x 1 0 0 0.6 0 0 0 1 0 0 0.6 0 0 1) = - 0.32 /\
  F_psi (compute_hll_flux_y 1 0 0 0.6 0 0 0 1 0 0 0.6 0 0 1) = - 0.32.
Proof.
  rewrite fast_speed_unit.
  assert (Hmin : Rmin (0 - 1) (0 - 1) = -1)
    by (rewrite Rmin_left by lra; lra).
  assert (Hmax : Rmax (0 + 1) (0 + 1) = 1)
    by (rewrite Rmax_left by lra; lra).
  split; [exact Hmin|]. split; [exact Hmax|].
  split; [unfold hll_average, CH; lra|].
  split.
  - destruct (hll_flux_x_middle 1 0 0 0.6 0 0 0 1 0 0 0.6 0 0 1)
      as (_ & _ & _ & _ & _ & _ & H);
      rewrite ?fast_speed_unit, ?Hmin, ?Hmax; try lra.
    rewrite H, fast_speed_unit, Hmin, Hmax. unfold hll_average, CH. lra.
  - destruct (hll_flux_y_middle 1 0 0 0.6 0 0 0 1 0 0 0.6 0 0 1)
      as (_ & _ & _ & _ & _ & _ & H);
      rewrite ?fast_speed_unit, ?Hmin, ?Hmax; try lra.
    rewrite H, fast_speed_unit, Hmin, Hmax. unfold hll_average, CH. lra.
Qed.

(* ================================================================== *)
(** * Fields that do not vary *)

Lemma minmod_opposite (a b : R) : a * b <= 0 -> minmod a b = 0.
Proof.
  intros H. unfold minmod. destruct (Rle_dec (a * b) 0); [reflexivity|].
  contradiction.
Qed.

Lemma minmod_same (c d : R) : minmod (c - c) (d - c) = 0.
Proof. apply minmod_opposite. replace (c - c) with 0 by ring. lra. Qed.

Lemma slope_range_x (n m i j : Z) :
  ((1 <=? i) && (i <? n - 1) && (0 <=? j) && (j <? m))%Z = true ->
  in_grid n m (i - 1) j /\ in_grid n m i j /\ in_grid n m (i + 1) j.
Proof.
  rewrite !andb_true_iff, !Z.leb_le, !Z.ltb_lt. unfold in_grid. lia.
Qed.

Lemma slope_range_y (n m i j : Z) :
  ((0 <=? i) && (i <? n) && (1 <=? j) && (j <? m - 1))%Z = true ->
  in_grid n m i (j - 1) /\ in_grid n m i j /\ in_grid n m i (j + 1).
Proof.
  rewrite !andb_true_iff, !Z.leb_le, !Z.ltb_lt. unfold in_grid. lia.
Qed.

(** A field that is constant over the grid has zero limited slopes. *)
Lemma const_field_slopes (flow : FlowField) (k : ssel) (c : R) :
  (3 <= nx (fl_rho flow))%Z -> (3 <= ny (fl_rho flow))%Z ->
  (forall i j, in_grid (nx (fl_rho flow)) (ny (fl_rho flow)) i j ->
               get2 (fproj (ssrc k) flow) i j = c) ->
  forall i j,
    get2 (sproj k (compute_slopes_x flow)) i j = 0 /\
    get2 (sproj k (compute_slopes_y flow)) i j = 0.
Proof.
  intros Hn Hm Hc i j. split.
  - rewrite slopes_x_cell by assumption.
    destruct ((1 <=? i) && _ && _ && _)%Z eqn:E; [|reflexivity].
    apply slope_range_x in E. destruct E as (E1 & E2 & E3).
    unfold slope_x_at. rewrite !Hc by assumption. apply minmod_same.
  - rewrite slopes_y_cell by assumption.
    destruct ((0 <=? i) && _ && _ && _)%Z eqn:E; [|reflexivity].
    apply slope_range_y in E. destruct E as (E1 & E2 & E3).
    unfold slope_y_at. rewrite !Hc by assumption. apply minmod_same.
Qed.

Lemma fv_update_same (g : Grid) (dt U a b : R) : fv_update g dt U a a b b = U.
Proof. unfold fv_update. ring. Qed.

Lemma laplacian_const (g : Grid) (i j : Z) (c : R) :
  get2 (data g) (i + 1) j = c -> get2 (data g) (i - 1) j = c ->
  get2 (data g) i (j + 1) = c -> get2 (data g) i (j - 1) = c ->
  get2 (data g) i j = c ->
  laplacian g i j = 0.
Proof.
  intros H1 H2 H3 H4 H5. unfold laplacian. rewrite H1, H2, H3, H4, H5.
  unfold Rdiv. ring.
Qed.

(** Specialise a fact stated for every slope array to the seven arrays. *)
Ltac all_slopes H :=
  pose proof (H Srho); pose proof (H Su); pose proof (H Sv);
  pose proof (H Sp); pose proof (H Sbx); pose proof (H Sby);
  pose proof (H Spsi).

(** Two opposite X faces carry the same flux when the seven transported
    fields agree on the three cells involved and their slopes vanish. *)
Lemma flux_x_same (flow : FlowField) (sx : Slopes) (i j : Z) :
  (forall k, get2 (fproj (ssrc k) flow) (i + 1) j
             = get2 (fproj (ssrc k) flow) i j) ->
  (forall k, get2 (fproj (ssrc k) flow) (i - 1) j
             = get2 (fproj (ssrc k) flow) i j) ->
  (forall k, get2 (sproj k sx) (i + 1) j = 0) ->
  (forall k, get2 (sproj k sx) i j = 0) ->
  (forall k, get2 (sproj k sx) (i - 1) j = 0) ->
  flux_xp flow sx i j = flux_xm flow sx i j.
Proof.
  intros Hp Hm Sp S0 Sm. unfold flux_xp, flux_xm.
  all_slopes Hp. all_slopes Hm. all_slopes Sp. all_slopes S0. all_slopes Sm.
  unfold fproj in *. simpl in *.
  repeat match goal with H : get2 _ _ _ = _ |- _ => rewrite H; clear H end.
  repeat match goal with |- context [0.5 * 0] =>
    replace (0.5 * 0) with 0 by ring end.
  now rewrite !Rplus_0_r, !Rminus_0_r.
Qed.

Lemma flux_y_same (flow : FlowField) (sy : Slopes) (i j : Z) :
  (forall k, get2 (fproj (ssrc k) flow) i (j + 1)
             = get2 (fproj (ssrc k) flow) i j) ->
  (forall k, get2 (fproj (ssrc k) flow) i (j - 1)
             = get2 (fproj (ssrc k) flow) i j) ->
  (forall k, get2 (sproj k sy) i (j + 1) = 0) ->
  (forall k, get2 (sproj k sy) i j = 0) ->
  (forall k, get2 (sproj k sy) i (j - 1) = 0) ->
  flux_yp flow sy i j = flux_ym flow sy i j.
Proof.
  intros Hp Hm Sp S0 Sm. unfold flux_yp, flux_ym.
  all_slopes Hp. all_slopes Hm. all_slopes Sp. all_slopes S0. all_slopes Sm.
  unfold fproj in *. simpl in *.
  repeat match goal with H : get2 _ _ _ = _ |- _ => rewrite H; clear H end.
  repeat match goal with |- context [0.5 * 0] =>
    replace (0.5 * 0) with 0 by ring end.
  now rewrite !Rplus_0_r, !Rminus_0_r.
Qed.

(* ================================================================== *)
(** * A spatially constant state at rest *)

Section UniformRest.
Variable flow : FlowField.
Variables rho0 p0 bx0 by0 e0 : R.
Hypothesis Hvalid : valid_flow flow.
Hypothesis Hunif : uniform_rest flow rho0 p0 bx0 by0 e0.

Let n := nx (fl_rho flow).
Let m := ny (fl_rho flow).

Lemma uniform_slopes (k : ssel) (i j : Z) :
  get2 (sproj k (compute_slopes_x flow)) i j = 0 /\
  get2 (sproj k (compute_slopes_y flow)) i j = 0.
Proof.
  apply (const_field_slopes flow k (uval rho0 p0 bx0 by0 e0 (ssrc k)));
    try apply Hvalid.
  intros i' j' Hij. now apply Hunif.
Qed.

Lemma uniform_fluxes (i j : Z) :
  interior n m i j ->
  flux_xp flow (compute_slopes_x flow) i j
  = flux_xm flow (compute_slopes_x flow) i j /\
  flux_yp flow (compute_slopes_y flow) i j
  = flux_ym flow (compute_slopes_y flow) i j.
Proof.
  intros [Hi Hj]. split.
  - apply flux_x_same; intros k; try apply uniform_slopes;
      rewrite !Hunif by (split; fold n m; lia); reflexivity.
  - apply flux_y_same; intros k; try apply uniform_slopes;
      rewrite !Hunif by (split; fold n m; lia); reflexivity.
Qed.

Lemma uniform_laplacian (k : fsel) (i j : Z) :
  interior n m i j -> laplacian (fgrid k flow) i j = 0.
Proof.
  intros [Hi Hj].
  apply (laplacian_const _ _ _ (uval rho0 p0 bx0 by0 e0 k));
    apply (Hunif k); split; fold n m; lia.
Qed.

(** The temporary arrays of a constant state at rest. *)
Lemma uniform_bufs (dt nu : R) (i j : Z) :
  interior n m i j ->
  rho_unfloored flow dt i j = rho0 /\
  new_momx flow dt nu i j = 0 /\
  new_momy flow dt nu i j = 0 /\
  new_e flow dt i j = rest_e_after rho0 bx0 by0 e0 /\
  new_bx flow dt i j = bx0 /\
  new_by flow dt i j = by0 /\
  new_psi flow dt i j = 0.
Proof.
  intros Hint. destruct (uniform_fluxes i j Hint) as [Hx Hy].
  pose proof (interior_in_grid _ _ _ _ Hint) as Hg. fold n m in Hg.
  pose proof (Hunif Frho i j Hg) as Erho. pose proof (Hunif Fu i j Hg) as Eu.
  pose proof (Hunif Fv i j Hg) as Ev. pose proof (Hunif Fe i j Hg) as Ee.
  pose proof (Hunif Fbx i j Hg) as Ebx. pose proof (Hunif Fby i j Hg) as Eby.
  pose proof (Hunif Fpsi i j Hg) as Epsi.
  pose proof (uniform_laplacian Fu i j Hint) as Lu.
  pose proof (uniform_laplacian Fv i j Hint) as Lv.
  pose proof (uniform_laplacian Fbx i j Hint) as Lbx.
  pose proof (uniform_laplacian Fby i j Hint) as Lby.
  unfold fproj in *. simpl in *.
  assert (Hrho : rho_unfloored flow dt i j = rho0).
  { unfold rho_unfloored. rewrite Hx, Hy, fv_update_same. exact Erho. }
  split; [exact Hrho|].
  split.
  { unfold new_momx. rewrite Hx, Hy, fv_update_same, Erho, Eu.
    rewrite Lu.
    destruct (Rgt_dec nu 0); ring. }
  split.
  { unfold new_momy. rewrite Hx, Hy, fv_update_same, Erho, Ev.
    rewrite Lv.
    destruct (Rgt_dec nu 0); ring. }
  split.
  { unfold new_e, e_adjusted. rewrite Hrho, Hx, Hy, fv_update_same.
    rewrite Eu, Ev, Ee, Ebx, Eby. reflexivity. }
  split.
  { unfold new_bx, flux_bx. rewrite Hx, Hy, fv_update_same, Ebx.
    rewrite Lbx. ring. }
  split.
  { unfold new_by, flux_by. rewrite Hx, Hy, fv_update_same, Eby.
    rewrite Lby. ring. }
  unfold new_psi. rewrite Hx, Hy, fv_update_same. exact Epsi.
Qed.

Lemma uniform_bufv_B (dt nu : R) (i j : Z) :
  in_grid n m i j ->
  bufv flow dt nu Bbx i j = bx0 /\ bufv flow dt nu Bby i j = by0 /\
  bufv flow dt nu Bpsi i j = 0.
Proof.
  intros Hg. unfold bufv. fold n m.
  destruct (interiorb n m i j) eqn:E.
  - apply interiorb_iff in E.
    destruct (uniform_bufs dt nu i j E) as (_ & _ & _ & _ & H1 & H2 & H3).
    simpl. auto.
  - simpl. repeat split; [apply (Hunif Fbx) | apply (Hunif Fby)
                          | apply (Hunif Fpsi)]; assumption.
Qed.

(** After the step the state is again constant and at rest, with the
    floors applied to density, energy and pressure. *)
Lemma uniform_step (dt nu : R) (k : fsel) (i j : Z) :
  in_grid n m i j ->
  get2 (fproj k (step_with_dt flow dt nu)) i j
  = uval (rest_rho_after rho0) (rest_p_after rho0 bx0 by0 e0) bx0 by0
         (rest_e_after rho0 bx0 by0 e0) k.
Proof.
  intros Hg. destruct (step_cells flow dt nu Hvalid) as [_ Hc].
  fold n m in Hc. destruct (Hc i j Hg) as [Hk Hpsi].
  assert (Hn : (3 <= n)%Z) by apply Hvalid.
  assert (Hm : (3 <= m)%Z) by apply Hvalid.
  assert (Hrem :
    in_grid n m (Z.rem (i + 1) n) j /\ in_grid n m (Z.rem (i - 1 + n) n) j /\
    in_grid n m i (Z.rem (j + 1) m) /\ in_grid n m i (Z.rem (j - 1 + m) m)).
  { destruct Hg as [Hi Hj].
    pose proof (rem_in_range (i + 1) n ltac:(lia) ltac:(lia)).
    pose proof (rem_in_range (i - 1 + n) n ltac:(lia) ltac:(lia)).
    pose proof (rem_in_range (j + 1) m ltac:(lia) ltac:(lia)).
    pose proof (rem_in_range (j - 1 + m) m ltac:(lia) ltac:(lia)).
    unfold in_grid. lia. }
  destruct Hrem as (R1 & R2 & R3 & R4).
  assert (Epsi : get2 (fproj Fpsi (step_with_dt flow dt nu)) i j = 0).
  { rewrite Hpsi. unfold glm_psi. fold n m.
    destruct (uniform_bufv_B dt nu _ _ R1) as (-> & _ & _).
    destruct (uniform_bufv_B dt nu _ _ R2) as (-> & _ & _).
    destruct (uniform_bufv_B dt nu _ _ R3) as (_ & -> & _).
    destruct (uniform_bufv_B dt nu _ _ R4) as (_ & -> & _).
    destruct (uniform_bufv_B dt nu _ _ Hg) as (_ & _ & ->).
    unfold Rdiv. ring. }
  destruct Hg as [Hi Hj].
  pose proof (wrap_in_range n i Hn Hi) as Wi.
  pose proof (wrap_in_range m j Hm Hj) as Wj.
  assert (Hint : interior n m (wrap n i) (wrap m j)) by (split; lia).
  destruct (uniform_bufs dt nu _ _ Hint)
    as (B1 & B2 & B3 & B4 & B5 & B6 & B7).
  destruct k; try (rewrite Hk by discriminate; unfold committed; fold n m;
                   rewrite (interiorb_true _ _ _ _ Hint);
                   unfold prim_cell, new_rho;
                   rewrite ?B1, ?B2, ?B3, ?B4, ?B5, ?B6, ?B7).
  - reflexivity.
  - simpl. unfold Rdiv. ring.
  - simpl. unfold Rdiv. ring.
  - reflexivity.
  - reflexivity.
  - reflexivity.
  - reflexivity.
  - exact Epsi.
Qed.
End UniformRest.

(* ================================================================== *)
(** * Equality of states *)

Lemma for_loop_inv {S : Type} (P : S -> Prop) (lo hi : Z)
      (body : Z -> S -> S) (s : S) :
  (forall i x, P x -> P (body i x)) -> P s -> P (for_loop lo hi body s).
Proof.
  intros Hb. unfold for_loop. revert s.
  induction (range lo hi) as [|i l IH]; intros s Hs; simpl; auto.
Qed.

Lemma for_loop2_inv {S : Type} (P : S -> Prop) (ilo ihi jlo jhi : Z)
      (body : Z -> Z -> S -> S) (s : S) :
  (forall i j x, P x -> P (body i j x)) -> P s ->
  P (for_loop2 ilo ihi jlo jhi body s).
Proof.
  intros Hb Hs. unfold for_loop2. apply for_loop_inv; [|exact Hs].
  intros i x Hx. apply for_loop_inv; [|exact Hx]. intros j y. apply Hb.
Qed.

(** The step never touches the geometry of the eight grids. *)
Lemma step_geom (flow : FlowField) (dt nu : R) (k : fsel) :
  geom (fgrid k (step_with_dt flow dt nu)) = geom (fgrid k flow).
Proof.
  revert k. unfold step_with_dt.
  apply (for_loop2_inv
           (fun f => forall k, geom (fgrid k f) = geom (fgrid k flow))).
  { intros i j f Hf k. rewrite <- Hf. destruct k; reflexivity. }
  apply (for_loop_inv
           (fun f => forall k, geom (fgrid k f) = geom (fgrid k flow))).
  { intros i f Hf k. rewrite <- Hf. destruct k; reflexivity. }
  apply (for_loop_inv
           (fun f => forall k, geom (fgrid k f) = geom (fgrid k flow))).
  { intros i f Hf k. rewrite <- Hf. destruct k; reflexivity. }
  apply (for_loop2_inv
           (fun f => forall k, geom (fgrid k f) = geom (fgrid k flow))).
  { intros i j f Hf k. rewrite <- Hf. destruct k; reflexivity. }
  reflexivity.
Qed.

Lemma get2_nth (a : matrix) (i j : nat) :
  get2 a (Z.of_nat i) (Z.of_nat j) = nth j (nth i a []) 0.
Proof.
  unfold get2.
  replace ((Z.of_nat i <? 0) || (Z.of_nat j <? 0))%Z with false
    by (symmetry; apply orb_false_intro; apply Z.ltb_ge; lia).
  now rewrite !Nat2Z.id.
Qed.

(** Two arrays of the same size with the same cells are equal. *)
Lemma matrix_ext (a b : matrix) (n m : Z) :
  dims a n m -> dims b n m ->
  (forall i j, in_grid n m i j -> get2 a i j = get2 b i j) ->
  a = b.
Proof.
  intros Ha Hb Hc.
  assert (Hlen : List.length a = List.length b)
    by (destruct Ha, Hb; lia).
  apply (nth_ext a b [] []); [exact Hlen|].
  intros i Hi.
  pose proof (dims_nth_length a n m i Ha Hi) as La.
  pose proof (dims_nth_length b n m i Hb ltac:(lia)) as Lb.
  apply (nth_ext _ _ 0 0); [lia|].
  intros j Hj. rewrite <- !get2_nth. apply Hc.
  destruct Ha as [Hn _]. unfold in_grid. lia.
Qed.

Lemma grid_ext (g h : Grid) :
  geom g = geom h -> data g = data h -> g = h.
Proof.
  destruct g, h. unfold geom. simpl. intros Hg Hd.
  inversion Hg. subst. reflexivity.
Qed.

Lemma flow_ext (f g : FlowField) :
  (forall k, fgrid k f = fgrid k g) -> f = g.
Proof.
  intros H. destruct f, g.
  pose proof (H Frho). pose proof (H Fu). pose proof (H Fv).
  pose proof (H Fp). pose proof (H Fe). pose proof (H Fbx).
  pose proof (H Fby). pose proof (H Fpsi). simpl in *. congruence.
Qed.

Lemma rest_flow_uniform (n m : nat) (h rho0 p0 bx0 by0 : R) :
  uniform_rest (rest_flow n m h rho0 p0 bx0 by0) rho0 p0 bx0 by0
               (p0 / (gamma_gas - 1) + 0.5 * (bx0 * bx0 + by0 * by0)).
Proof.
  intros k i j Hij. simpl in Hij.
  destruct k; unfold fproj; simpl; now apply get2_const.
Qed.

(** C8, counterexample: a constant state at rest with density [1] and the
    positive pressure [1e-11] (energy [p/(gamma-1)], no magnetic field)
    meets every hypothesis of the claim, with [dt] the CFL timestep
    itself, yet the step raises the pressure of the interior cell to
    [(gamma-1) * 1e-10], so the state changes. *)
Lemma C8_counterexample :
  (valid_flow tiny_pressure_flow /\
   uniform_rest tiny_pressure_flow 1 1e-11 0 0
                (1e-11 / (gamma_gas - 1) + 0.5 * (0 * 0 + 0 * 0)) /\
   1 > 1e-10 /\ 1e-11 > 0 /\
   compute_cfl_timestep tiny_pressure_flow default_cfl_number
   <= compute_cfl_timestep tiny_pressure_flow default_cfl_number) /\
  get2 (data (fl_p tiny_pressure_flow)) 1 1 = 1e-11 /\
  get2 (data (fl_p (fst (solve_MHD
                           tiny_pressure_flow
                           (compute_cfl_timestep tiny_pressure_flow
                                                 default_cfl_number) 0))))
       1 1 = 2 / 3 * 1e-10 /\
  fst (solve_MHD tiny_pressure_flow
                 (compute_cfl_timestep tiny_pressure_flow default_cfl_number)
                 0)
  <> tiny_pressure_flow.
Proof.
  assert (Hv : valid_flow tiny_pressure_flow)
    by (apply rest_flow_valid; lia).
  assert (Hu : uniform_rest tiny_pressure_flow 1 1e-11 0 0
                 (1e-11 / (gamma_gas - 1) + 0.5 * (0 * 0 + 0 * 0)))
    by apply rest_flow_uniform.
  assert (Hold : get2 (data (fl_p tiny_pressure_flow)) 1 1 = 1e-11)
    by (apply (get2_const 3 3); unfold in_grid; simpl; lia).
  assert (Hnew : get2 (data (fl_p (fst (solve_MHD
                   tiny_pressure_flow
                   (compute_cfl_timestep tiny_pressure_flow
                                         default_cfl_number) 0)))) 1 1
                 = 2 / 3 * 1e-10).
  { rewrite solve_MHD_state.
    pose proof (uniform_step _ _ _ _ _ _ Hv Hu
                  (dt_used tiny_pressure_flow
                     (compute_cfl_timestep tiny_pressure_flow
                                           default_cfl_number)) 0 Fp 1 1) as H.
    unfold fproj, fgrid in H. rewrite H
      by (unfold in_grid; simpl; lia).
    unfold uval, rest_p_after, rest_e_after, rest_rho_after, gamma_gas.
    replace (5 / 3 - 1) with (2 / 3) by lra.
    destruct (Rlt_dec _ _) as [_|Hn]; [|exfalso; apply Hn; lra].
    rewrite (Rmax_left 1 1e-10) by lra.
    rewrite (Rmax_left (_ + _ + 1e-10) 1e-10) by lra.
    rewrite Rmax_left by lra. lra. }
  split; [repeat split; auto; try lra; apply Hv|].
  split; [exact Hold|]. split; [exact Hnew|].
  intros E. rewrite E in Hnew. rewrite Hold in Hnew. lra.
Qed.

(** C8, as amended: a spatially constant state with [u = v = 0],
    [psi = 0], density at least the floor [1e-10], pressure at least
    [(gamma-1) * 1e-10] (so that the internal energy [p/(gamma-1)] is not
    below the floor) and total energy [p/(gamma-1) + (Bx^2+By^2)/2] is left
    unchanged, field by field, by one call to [solve_MHD], for every [dt]
    (those satisfying the CFL bound included) and every viscosity. *)
Theorem C8_uniform_rest_state_unchanged
        (flow : FlowField) (rho0 p0 bx0 by0 dt nu : R) :
  valid_flow flow ->
  uniform_rest flow rho0 p0 bx0 by0
               (p0 / (gamma_gas - 1) + 0.5 * (bx0 * bx0 + by0 * by0)) ->
  1e-10 <= rho0 ->
  (gamma_gas - 1) * 1e-10 <= p0 ->
  fst (solve_MHD flow dt nu) = flow.
Proof.
  intros Hv Hu Hrho Hp. rewrite solve_MHD_state.
  set (dt' := dt_used flow dt).
  set (e0 := p0 / (gamma_gas - 1) + 0.5 * (bx0 * bx0 + by0 * by0)) in *.
  assert (Hie : 1e-10 <= p0 / (gamma_gas - 1)).
  { unfold gamma_gas in *. lra. }
  assert (Hme : 0 <= 0.5 * (bx0 * bx0 + by0 * by0)) by nra.
  assert (E1 : rest_rho_after rho0 = rho0)
    by (unfold rest_rho_after; now apply Rmax_left).
  assert (E2 : rest_e_after rho0 bx0 by0 e0 = e0).
  { unfold rest_e_after.
    destruct (Rlt_dec _ _) as [Hlt|_]; [unfold e0 in Hlt; lra|].
    apply Rmax_left. unfold e0. lra. }
  assert (E3 : rest_p_after rho0 bx0 by0 e0 = p0).
  { unfold rest_p_after. rewrite E1, E2.
    unfold Rdiv at 2 3 4 5. rewrite !Rmult_0_l.
    rewrite Rmax_left by (unfold e0; lra).
    unfold e0, gamma_gas. replace (5 / 3 - 1) with (2 / 3) by lra. lra. }
  apply flow_ext. intros k. apply grid_ext; [apply step_geom|].
  destruct (step_cells flow dt' nu Hv) as [Hd _].
  apply (matrix_ext _ _ (nx (fl_rho flow)) (ny (fl_rho flow)));
    [apply (Hd k) | apply Hv |].
  intros i j Hij.
  change (get2 (fproj k (step_with_dt flow dt' nu)) i j
          = get2 (fproj k flow) i j).
  rewrite (uniform_step flow rho0 p0 bx0 by0 e0 Hv Hu dt' nu k i j Hij).
  rewrite E1, E2, E3. symmetry. now apply Hu.
Qed.

Lemma C8_witness :
  (valid_flow (rest_flow 3 3 0.1 1 1 0 0) /\
   uniform_rest (rest_flow 3 3 0.1 1 1 0 0) 1 1 0 0
                (1 / (gamma_gas - 1) + 0.5 * (0 * 0 + 0 * 0)) /\
   1e-10 <= 1 /\ (gamma_gas - 1) * 1e-10 <= 1) /\
  fst (solve_MHD (rest_flow 3 3 0.1 1 1 0 0) 0.1 0)
  = rest_flow 3 3 0.1 1 1 0 0.
Proof.
  assert (Hv : valid_flow (rest_flow 3 3 0.1 1 1 0 0))
    by (apply rest_flow_valid; lia).
  assert (Hu : uniform_rest (rest_flow 3 3 0.1 1 1 0 0) 1 1 0 0
                 (1 / (gamma_gas - 1) + 0.5 * (0 * 0 + 0 * 0)))
    by apply rest_flow_uniform.
  assert (H1 : 1e-10 <= 1) by lra.
  assert (H2 : (gamma_gas - 1) * 1e-10 <= 1) by (unfold gamma_gas; lra).
  split; [repeat split; auto; apply Hv|].
  exact (C8_uniform_rest_state_unchanged
           (rest_flow 3 3 0.1 1 1 0 0) 1 1 0 0 0.1 0 Hv Hu H1 H2).
Defined.

(* ================================================================== *)
(** * States that vary along X only *)

Lemma range_from_length (lo : Z) (n : nat) :
  List.length (range_from lo n) = n.
Proof. revert lo; induction n as [|n IH]; intros lo; simpl; auto. Qed.

Lemma nth_map_range_from {A : Type} (g : Z -> A) (lo : Z) (n k : nat) (d : A) :
  (k < n)%nat -> nth k (map g (range_from lo n)) d = g (lo + Z.of_nat k)%Z.
Proof.
  revert lo k; induction n as [|n IH]; intros lo [|k] Hk; simpl; try lia.
  - f_equal. lia.
  - rewrite IH by lia. f_equal. lia.
Qed.

Lemma range_0_of_nat (n : nat) : range 0 (Z.of_nat n) = range_from 0 n.
Proof. unfold range. f_equal. lia. Qed.

Lemma get2_mk_matrix (n m : nat) (f : Z -> Z -> R) (i j : Z) :
  in_grid (Z.of_nat n) (Z.of_nat m) i j -> get2 (mk_matrix n m f) i j = f i j.
Proof.
  intros [Hi Hj]. unfold get2, mk_matrix.
  replace ((i <? 0) || (j <? 0))%Z with false
    by (symmetry; apply orb_false_intro; apply Z.ltb_ge; lia).
  rewrite !range_0_of_nat.
  rewrite (nth_map_range_from _ 0 n (Z.to_nat i) []) by lia.
  rewrite (nth_map_range_from _ 0 m (Z.to_nat j) 0) by lia.
  f_equal; lia.
Qed.

Lemma dims_mk_matrix (n m : nat) (f : Z -> Z -> R) :
  dims (mk_matrix n m f) (Z.of_nat n) (Z.of_nat m).
Proof.
  unfold mk_matrix. rewrite !range_0_of_nat. split.
  - now rewrite length_map, range_from_length.
  - apply Forall_forall. intros r Hr. apply in_map_iff in Hr.
    destruct Hr as [i [<- _]]. now rewrite length_map, range_from_length.
Qed.

Lemma fast_speed_pos (rho p Bx By : R) :
  0 < rho -> 0 < p -> 0 < compute_fast_speed rho p Bx By.
Proof.
  intros Hr Hp. unfold compute_fast_speed. apply sqrt_lt_R0.
  assert (H1 : 0 < gamma_gas * p / rho).
  { apply Rdiv_lt_0_compat; [unfold gamma_gas; lra|exact Hr]. }
  assert (H2 : 0 <= (Bx * Bx + By * By) / rho).
  { apply Rmult_le_pos; [nra|]. left. now apply Rinv_0_lt_compat. }
  lra.
Qed.

Lemma Rmin_opp_Rmax (a b : R) : Rmin (0 - a) (0 - b) = - Rmax a b.
Proof.
  unfold Rmin, Rmax.
  destruct (Rle_dec (0 - a) (0 - b)); destruct (Rle_dec a b); lra.
Qed.

Lemma Rmax_0_plus (a b : R) : Rmax (0 + a) (0 + b) = Rmax a b.
Proof. now rewrite !Rplus_0_l. Qed.

(** The X flux between two states with no normal velocity: the signal
    speeds are [-c] and [c], [c] the larger fast speed. *)
Lemma hll_x_at_rest (rhoL vL pL BxL ByL psiL rhoR vR pR BxR ByR psiR : R) :
  let c := Rmax (compute_fast_speed rhoL pL BxL ByL)
                (compute_fast_speed rhoR pR BxR ByR) in
  0 < c ->
  F_rho (compute_hll_flux_x rhoL 0 vL pL BxL ByL psiL
                            rhoR 0 vR pR BxR ByR psiR)
  = c * (rhoL - rhoR) / 2 /\
  F_psi (compute_hll_flux_x rhoL 0 vL pL BxL ByL psiL
                            rhoR 0 vR pR BxR ByR psiR)
  = CH * CH * ((BxL + BxR) / 2 - c * (psiR - psiL) / 2).
Proof.
  intros c Hc.
  destruct (hll_flux_x_middle rhoL 0 vL pL BxL ByL psiL
                              rhoR 0 vR pR BxR ByR psiR)
    as (H1 & _ & _ & _ & _ & _ & H7);
    rewrite ?Rmin_opp_Rmax, ?Rmax_0_plus; fold c; try lra.
  rewrite H1, H7, Rmin_opp_Rmax, Rmax_0_plus. fold c.
  unfold hll_average. split; field; lra.
Qed.

Lemma hll_x_By_rest (rhoL pL BxL psiL rhoR pR BxR psiR : R) :
  F_By (compute_hll_flux_x rhoL 0 0 pL BxL 0 psiL rhoR 0 0 pR BxR 0 psiR) = 0.
Proof.
  unfold compute_hll_flux_x.
  destruct (Rgt_dec _ _); [simpl; ring|].
  destruct (Rlt_dec _ _); [simpl; ring|].
  simpl. unfold Rdiv. ring.
Qed.

Section ColumnFlow.
Variables n m : nat.
Variable h : R.
Variables r pp b : Z -> R.
Hypothesis Hn : (3 <= n)%nat.
Hypothesis Hm : (3 <= m)%nat.

Let F := column_flow n m h r pp b.
Let N := Z.of_nat n.
Let M := Z.of_nat m.

Lemma column_flow_valid : valid_flow F.
Proof.
  unfold valid_flow. split; [simpl; lia|]. split; [simpl; lia|].
  intros k. destruct k; first [apply dims_const | apply dims_mk_matrix].
Qed.

Lemma column_get (k : fsel) (i j : Z) :
  in_grid N M i j -> get2 (fproj k F) i j = cval r pp b k i.
Proof.
  intros Hij. destruct k; unfold fproj; simpl;
    first [ now apply get2_const | now apply get2_mk_matrix ].
Qed.

Lemma column_slopes_y (k : ssel) (i j : Z) :
  get2 (sproj k (compute_slopes_y F)) i j = 0.
Proof.
  rewrite slopes_y_cell by (simpl; lia).
  destruct ((0 <=? i) && _ && _ && _)%Z eqn:E; [|reflexivity].
  apply slope_range_y in E. destruct E as (E1 & E2 & E3).
  unfold slope_y_at. rewrite !column_get by assumption. apply minmod_same.
Qed.

Lemma column_slopes_x (k : ssel) (i j : Z) :
  (0 <= j < M)%Z ->
  get2 (sproj k (compute_slopes_x F)) i j
  = profile_slope N (cval r pp b (ssrc k)) i.
Proof.
  intros Hj. rewrite slopes_x_cell by (simpl; lia).
  change (nx (fl_rho F)) with N. change (ny (fl_rho F)) with M.
  unfold profile_slope.
  replace ((0 <=? j) && (j <? M))%Z with true in *
    by (symmetry; apply andb_true_iff; rewrite Z.leb_le, Z.ltb_lt; lia).
  rewrite <- andb_assoc.
  replace ((0 <=? j) && (j <? M))%Z with true
    by (symmetry; apply andb_true_iff; rewrite Z.leb_le, Z.ltb_lt; lia).
  rewrite andb_true_r.
  destruct ((1 <=? i) && (i <? N - 1))%Z eqn:E; [|reflexivity].
  apply andb_true_iff in E. rewrite Z.leb_le, Z.ltb_lt in E.
  unfold slope_x_at. rewrite !column_get by (unfold in_grid; lia).
  reflexivity.
Qed.

Lemma if_same {A : Type} (c : bool) (x : A) : (if c then x else x) = x.
Proof. now destruct c. Qed.

Lemma profile_slope_const (c : R) (i : Z) :
  profile_slope N (fun _ => c) i = 0.
Proof.
  unfold profile_slope. destruct (_ && _)%Z; [|reflexivity].
  apply minmod_same.
Qed.

(** An X face of a column state, inside the grid. *)
Lemma column_flux_xp (i j : Z) :
  (0 <= i < N - 1)%Z -> (0 <= j < M)%Z ->
  flux_xp F (compute_slopes_x F) i j = column_face N r pp b i.
Proof.
  intros Hi Hj. unfold flux_xp, column_face.
  pose proof (fun k i => column_slopes_x k i j Hj) as Hs.
  pose proof (fun k i (Hi : (0 <= i < N)%Z) =>
                column_get k i j (conj Hi Hj)) as Hg.
  all_slopes (fun k => Hs k i). all_slopes (fun k => Hs k (i + 1)%Z).
  pose proof (fun k => Hg k i ltac:(lia)) as Hg0.
  pose proof (fun k => Hg k (i + 1)%Z ltac:(lia)) as Hg1.
  pose proof (Hg0 Frho). pose proof (Hg0 Fu). pose proof (Hg0 Fv).
  pose proof (Hg0 Fp). pose proof (Hg0 Fbx). pose proof (Hg0 Fby).
  pose proof (Hg0 Fpsi).
  pose proof (Hg1 Frho). pose proof (Hg1 Fu). pose proof (Hg1 Fv).
  pose proof (Hg1 Fp). pose proof (Hg1 Fbx). pose proof (Hg1 Fby).
  pose proof (Hg1 Fpsi).
  clear Hs Hg Hg0 Hg1. unfold fproj in *. simpl in *.
  repeat match goal with H : get2 _ _ _ = _ |- _ => rewrite H; clear H end.
  unfold profile_slope. cbn [cval]. rewrite !minmod_same, !if_same.
  replace (0 + 0.5 * 0) with 0 by lra. replace (0 - 0.5 * 0) with 0 by lra.
  reflexivity.
Qed.

Lemma column_flux_xm (i j : Z) :
  (1 <= i < N)%Z -> (0 <= j < M)%Z ->
  flux_xm F (compute_slopes_x F) i j = column_face N r pp b (i - 1).
Proof.
  intros Hi Hj. rewrite <- (column_flux_xp (i - 1) j) by lia.
  unfold flux_xm, flux_xp.
  replace (i - 1 + 1)%Z with i by lia. reflexivity.
Qed.

Lemma column_flux_y (i j : Z) :
  interior N M i j ->
  flux_yp F (compute_slopes_y F) i j = flux_ym F (compute_slopes_y F) i j.
Proof.
  intros [Hi Hj]. apply flux_y_same; intros k;
    try apply column_slopes_y;
    rewrite !column_get by (unfold in_grid; lia); reflexivity.
Qed.

(** The updated density, [psi] and [By] of an interior cell of a column
    state: only the two X faces contribute. *)
Lemma column_cells (dt : R) (i j : Z) :
  interior N M i j ->
  rho_unfloored F dt i j
  = r i - dt / h * (F_rho (column_face N r pp b i)
                    - F_rho (column_face N r pp b (i - 1))) /\
  new_psi F dt i j
  = 0 - dt / h * (F_psi (column_face N r pp b i)
                  - F_psi (column_face N r pp b (i - 1))) /\
  new_by F dt i j = 0.
Proof.
  intros Hint. pose proof (column_flux_y i j Hint) as Hy.
  destruct Hint as [Hi Hj].
  pose proof (column_flux_xp i j ltac:(lia) ltac:(lia)) as Hp.
  pose proof (column_flux_xm i j ltac:(lia) ltac:(lia)) as Hmi.
  assert (Hg : in_grid N M i j) by (unfold in_grid; lia).
  split; [|split].
  - unfold rho_unfloored. rewrite Hp, Hmi, Hy.
    rewrite (column_get Frho i j Hg : get2 (data (fl_rho F)) i j = _).
    unfold fv_update. simpl. ring.
  - unfold new_psi. rewrite Hp, Hmi, Hy.
    rewrite (column_get Fpsi i j Hg : get2 (data (fl_psi F)) i j = _).
    unfold fv_update. simpl. ring.
  - unfold new_by, flux_by. rewrite Hp, Hmi, Hy.
    rewrite (column_get Fby i j Hg : get2 (data (fl_by F)) i j = _).
    unfold column_face. rewrite !hll_x_By_rest.
    rewrite (laplacian_const (fl_by F) i j 0);
      try (apply (column_get Fby); unfold in_grid; lia).
    unfold fv_update. simpl. ring.
Qed.
End ColumnFlow.

(* ================================================================== *)
(** * Positivity of the timestep *)

Lemma cfl_timestep_pos (flow : FlowField) (cfl_number : R) :
  0 < cfl_number -> 0 < dx (fl_rho flow) -> 0 < dy (fl_rho flow) ->
  (forall i j, interior (nx (fl_rho flow)) (ny (fl_rho flow)) i j ->
               0 < cell_dt flow i j) ->
  0 < compute_cfl_timestep flow cfl_number.
Proof.
  intros Hc Hx Hy Hcell. unfold compute_cfl_timestep.
  rewrite for_loop2_idx2.
  pose proof (fold_Rmin_spec (fun ij => cell_dt flow (fst ij) (snd ij))
                (idx2 1 (nx (fl_rho flow) - 1) 1 (ny (fl_rho flow) - 1))
                1e10) as H.
  cbv zeta in H. destruct H as (_ & _ & H3).
  remember (fold_left _ _ _) as r eqn:Er. clear Er.
  assert (Hr : 0 < r).
  { destruct H3 as [->|[[i j] [Hin ->]]]; [lra|].
    apply in_idx2 in Hin. now apply Hcell. }
  assert (Hglm : 0 < Rmin (dx (fl_rho flow)) (dy (fl_rho flow)) / CH).
  { apply Rdiv_lt_0_compat; [|unfold CH; lra].
    unfold Rmin. destruct (Rle_dec _ _); assumption. }
  apply Rmult_lt_0_compat; [exact Hc|].
  destruct (Rgt_dec r 1); unfold Rmin; destruct (Rle_dec _ _); assumption.
Qed.

Lemma dt_used_bounds (flow : FlowField) (dt : R) :
  0 < dt -> 0 < compute_cfl_timestep flow default_cfl_number ->
  0 < dt_used flow dt <= dt.
Proof.
  intros Hd Hc. unfold dt_used. split; [|apply Rmin_l].
  unfold Rmin. destruct (Rle_dec _ _); assumption.
Qed.

Lemma column_dt_used_bounds (n m : nat) (h : R) (r pp b : Z -> R) (dt : R) :
  (3 <= n)%nat -> (3 <= m)%nat -> 0 < h -> 0 < dt ->
  (forall i, 0 < r i) -> (forall i, 0 < pp i) ->
  0 < dt_used (column_flow n m h r pp b) dt <= dt.
Proof.
  intros Hn Hm Hh Hdt Hr Hp. apply dt_used_bounds; [exact Hdt|].
  apply cfl_timestep_pos; try assumption.
  - unfold default_cfl_number. lra.
  - intros i j Hint. apply interior_in_grid in Hint.
    unfold cell_dt.
    rewrite (column_get n m h r pp b Frho i j Hint
             : get2 (data (fl_rho (column_flow n m h r pp b))) i j = _).
    rewrite (column_get n m h r pp b Fu i j Hint
             : get2 (data (fl_u (column_flow n m h r pp b))) i j = _).
    rewrite (column_get n m h r pp b Fv i j Hint
             : get2 (data (fl_v (column_flow n m h r pp b))) i j = _).
    rewrite (column_get n m h r pp b Fp i j Hint
             : get2 (data (fl_p (column_flow n m h r pp b))) i j = _).
    simpl cval. rewrite Rabs_R0, Rplus_0_l.
    set (cf := compute_fast_speed _ _ _ _).
    assert (Hcf : 0 < cf) by (apply fast_speed_pos; auto).
    assert (0 < h / cf) by (now apply Rdiv_lt_0_compat).
    simpl dx. simpl dy.
    unfold Rmin. destruct (Rle_dec _ _); assumption.
Qed.

(** The content of the temporary [Bx], [By] and [psi] arrays of a column
    state after the main loop. *)
Lemma column_bufv (n m : nat) (h : R) (r pp b : Z -> R) (dt nu : R) (i j : Z) :
  (3 <= n)%nat -> (3 <= m)%nat ->
  in_grid (Z.of_nat n) (Z.of_nat m) i j ->
  let F := column_flow n m h r pp b in
  bufv F dt nu Bbx i j
  = (if interiorb (Z.of_nat n) (Z.of_nat m) i j
     then new_bx F dt i j else b i) /\
  bufv F dt nu Bby i j = 0 /\
  bufv F dt nu Bpsi i j
  = (if interiorb (Z.of_nat n) (Z.of_nat m) i j
     then new_psi F dt i j else 0).
Proof.
  intros Hn Hm Hg F. unfold bufv.
  change (nx (fl_rho F)) with (Z.of_nat n).
  change (ny (fl_rho F)) with (Z.of_nat m).
  destruct (interiorb _ _ i j) eqn:E; simpl bufs_cell; simpl bufs_init.
  - apply interiorb_iff in E.
    destruct (column_cells n m h r pp b Hn Hm dt i j E) as (_ & _ & Hby).
    repeat split; auto.
  - repeat split.
    + apply (column_get n m h r pp b Fbx i j Hg).
    + apply (column_get n m h r pp b Fby i j Hg).
    + apply (column_get n m h r pp b Fpsi i j Hg).
Qed.

Lemma column_periodic (n m : nat) (h : R) (r pp b : Z -> R) :
  (3 <= n)%nat -> (3 <= m)%nat ->
  (forall k, cval r pp b k 0 = cval r pp b k (Z.of_nat n - 2) /\
             cval r pp b k (Z.of_nat n - 1) = cval r pp b k 1) ->
  periodic_flow (column_flow n m h r pp b).
Proof.
  intros Hn Hm Hc. unfold periodic_flow.
  change (nx (fl_rho (column_flow n m h r pp b))) with (Z.of_nat n).
  change (ny (fl_rho (column_flow n m h r pp b))) with (Z.of_nat m).
  intros k. split.
  - intros j Hj. rewrite !column_get by (unfold in_grid; lia). apply Hc.
  - intros i Hi. rewrite !column_get by (unfold in_grid; lia).
    split; reflexivity.
Qed.

(* ================================================================== *)
(** * Periodicity after the step *)

(** Every field but [psi] is periodic after the step: the two boundary
    loops leave each boundary cell equal to the interior cell it mirrors,
    corners included. *)
Lemma step_periodic_six_fields (flow : FlowField) (dt nu : R) (k : fsel) :
  let n := nx (fl_rho flow) in
  let m := ny (fl_rho flow) in
  let after := fst (solve_MHD flow dt nu) in
  valid_flow flow -> k <> Fpsi ->
  (forall j, (0 <= j < m)%Z ->
     get2 (fproj k after) 0 j = get2 (fproj k after) (n - 2) j /\
     get2 (fproj k after) (n - 1) j = get2 (fproj k after) 1 j) /\
  (forall i, (0 <= i < n)%Z ->
     get2 (fproj k after) i 0 = get2 (fproj k after) i (m - 2) /\
     get2 (fproj k after) i (m - 1) = get2 (fproj k after) i 1).
Proof.
  intros n m after Hv Hk. subst after. rewrite solve_MHD_state.
  destruct (step_cells flow (dt_used flow dt) nu Hv) as [_ Hc].
  fold n m in Hc.
  assert (Hn : (3 <= n)%Z) by apply Hv.
  assert (Hm : (3 <= m)%Z) by apply Hv.
  assert (W0 : forall q, (3 <= q)%Z -> wrap q 0 = (q - 2)%Z).
  { intros q Hq. reflexivity. }
  assert (W1 : forall q, (3 <= q)%Z -> wrap q (q - 1) = 1%Z).
  { intros q Hq. unfold wrap.
    destruct (q - 1 =? 0)%Z eqn:E; [apply Z.eqb_eq in E; lia|].
    now rewrite Z.eqb_refl. }
  assert (W2 : forall q, (3 <= q)%Z -> wrap q (q - 2) = (q - 2)%Z).
  { intros q Hq. apply wrap_interior. lia. }
  assert (W3 : forall q, (3 <= q)%Z -> wrap q 1 = 1%Z).
  { intros q Hq. apply wrap_interior. lia. }
  split.
  - intros j Hj.
    destruct (Hc 0%Z j) as [H0 _]; [unfold in_grid; lia|].
    destruct (Hc (n - 2)%Z j) as [H1 _]; [unfold in_grid; lia|].
    destruct (Hc (n - 1)%Z j) as [H2 _]; [unfold in_grid; lia|].
    destruct (Hc 1%Z j) as [H3 _]; [unfold in_grid; lia|].
    rewrite H0, H1, H2, H3 by exact Hk.
    now rewrite W0, W1, W2, W3.
  - intros i Hi.
    destruct (Hc i 0%Z) as [H0 _]; [unfold in_grid; lia|].
    destruct (Hc i (m - 2)%Z) as [H1 _]; [unfold in_grid; lia|].
    destruct (Hc i (m - 1)%Z) as [H2 _]; [unfold in_grid; lia|].
    destruct (Hc i 1%Z) as [H3 _]; [unfold in_grid; lia|].
    rewrite H0, H1, H2, H3 by exact Hk.
    now rewrite W0, W1, W2, W3.
Qed.

(** Evaluate the tests on literal indices. *)
Ltac eval_conds :=
  repeat match goal with
    | |- context [if ?c then _ else _] =>
        lazymatch type of c with bool => idtac end;
        let v := eval vm_compute in c in
        first [ constr_eq v true | constr_eq v false ];
        change c with v; cbv iota
    end.

(** ** The state [seam_flow] *)

Lemma seam_flow_valid : valid_flow seam_flow.
Proof. apply column_flow_valid; lia. Qed.

Lemma seam_flow_periodic : periodic_flow seam_flow.
Proof.
  apply column_periodic; try lia. intros k. destruct k; split; reflexivity.
Qed.

Lemma seam_dt_bounds : 0 < dt_used seam_flow 0.1 <= 0.1.
Proof.
  apply column_dt_used_bounds; try lia; try lra; intros; lra.
Qed.

Lemma seam_bx_slope (i : Z) : profile_slope 5 seam_bx i = 0.
Proof.
  unfold profile_slope. destruct (_ && _)%Z; [|reflexivity].
  apply minmod_opposite. unfold seam_bx.
  destruct (i =? 2)%Z eqn:E0; destruct (i - 1 =? 2)%Z eqn:E1;
    destruct (i + 1 =? 2)%Z eqn:E2; lra.
Qed.

(** The [psi] flux through the X faces of [seam_flow]. *)
Lemma seam_face_psi (i : Z) :
  F_psi (column_face 5 (fun _ => 1) (fun _ => 0.6) seam_bx i)
  = CH * CH * ((seam_bx i + seam_bx (i + 1)) / 2).
Proof.
  unfold column_face.
  rewrite !seam_bx_slope, !(profile_slope_const 5).
  replace (1 + 0.5 * 0) with 1 by lra. replace (1 - 0.5 * 0) with 1 by lra.
  replace (0.6 + 0.5 * 0) with 0.6 by lra.
  replace (0.6 - 0.5 * 0) with 0.6 by lra.
  replace (seam_bx i + 0.5 * 0) with (seam_bx i) by lra.
  replace (seam_bx (i + 1) - 0.5 * 0) with (seam_bx (i + 1)) by lra.
  destruct (hll_x_at_rest 1 0 0.6 (seam_bx i) 0 0 1 0 0.6
                          (seam_bx (i + 1)) 0 0) as [_ H].
  - apply Rlt_le_trans with (compute_fast_speed 1 0.6 (seam_bx i) 0);
      [apply fast_speed_pos; lra | apply Rmax_l].
  - rewrite H. unfold Rdiv. ring.
Qed.

Lemma seam_new_psi (dt : R) :
  new_psi seam_flow dt 3 1 = 0.32 * dt.
Proof.
  destruct (column_cells 5 3 1 (fun _ => 1) (fun _ => 0.6) seam_bx
                         ltac:(lia) ltac:(lia) dt 3 1) as (_ & H & _).
  { unfold interior. simpl. lia. }
  unfold seam_flow. rewrite H. change (Z.of_nat 5) with 5%Z.
  rewrite !seam_face_psi. unfold seam_bx, CH.
  change (3 - 1)%Z with 2%Z. change (3 + 1)%Z with 4%Z.
  change (2 + 1)%Z with 3%Z. eval_conds. clear. lra.
Qed.

(** The final [psi] in two boundary cells of [seam_flow] that should
    mirror each other. *)
Lemma seam_psi_after (dt nu : R) :
  get2 (data (fl_psi (step_with_dt seam_flow dt nu))) 0 0 = 0 /\
  get2 (data (fl_psi (step_with_dt seam_flow dt nu))) 3 0 = 0.32 * dt.
Proof.
  assert (Hb : forall i j, in_grid 5 3 i j ->
             bufv seam_flow dt nu Bbx i j
             = (if interiorb 5 3 i j then new_bx seam_flow dt i j
                else seam_bx i) /\
             bufv seam_flow dt nu Bby i j = 0 /\
             bufv seam_flow dt nu Bpsi i j
             = (if interiorb 5 3 i j then new_psi seam_flow dt i j else 0)).
  { intros i j Hij.
    apply (column_bufv 5 3 1 (fun _ => 1) (fun _ => 0.6) seam_bx dt nu i j);
      try lia. exact Hij. }
  assert (G : forall i j, (0 <= i < 5)%Z -> (0 <= j < 3)%Z -> in_grid 5 3 i j)
    by (intros; split; assumption).
  split.
  - rewrite (step_psi_cell seam_flow dt nu 0 0 seam_flow_valid)
      by (apply G; lia).
    unfold glm_psi.
    change (nx (fl_rho seam_flow)) with 5%Z.
    change (ny (fl_rho seam_flow)) with 3%Z.
    change (dx (fl_rho seam_flow)) with 1.
    change (dy (fl_rho seam_flow)) with 1.
    change (Z.rem (0 + 1) 5) with 1%Z. change (Z.rem (0 - 1 + 5) 5) with 4%Z.
    change (Z.rem (0 + 1) 3) with 1%Z. change (Z.rem (0 - 1 + 3) 3) with 2%Z.
    destruct (Hb 0%Z 0%Z) as (_ & _ & ->); [apply G; lia|].
    destruct (Hb 1%Z 0%Z) as (-> & _ & _); [apply G; lia|].
    destruct (Hb 4%Z 0%Z) as (-> & _ & _); [apply G; lia|].
    destruct (Hb 0%Z 1%Z) as (_ & -> & _); [apply G; lia|].
    destruct (Hb 0%Z 2%Z) as (_ & -> & _); [apply G; lia|].
    unfold seam_bx. eval_conds. clear. lra.
  - rewrite (step_psi_cell seam_flow dt nu 3 0 seam_flow_valid)
      by (apply G; lia).
    unfold glm_psi.
    change (nx (fl_rho seam_flow)) with 5%Z.
    change (ny (fl_rho seam_flow)) with 3%Z.
    change (dx (fl_rho seam_flow)) with 1.
    change (dy (fl_rho seam_flow)) with 1.
    change (Z.rem (3 + 1) 5) with 4%Z. change (Z.rem (3 - 1 + 5) 5) with 2%Z.
    change (Z.rem (0 + 1) 3) with 1%Z. change (Z.rem (0 - 1 + 3) 3) with 2%Z.
    destruct (Hb 3%Z 0%Z) as (_ & _ & ->); [apply G; lia|].
    destruct (Hb 4%Z 0%Z) as (-> & _ & _); [apply G; lia|].
    destruct (Hb 2%Z 0%Z) as (-> & _ & _); [apply G; lia|].
    destruct (Hb 3%Z 1%Z) as (_ & -> & _); [apply G; lia|].
    destruct (Hb 3%Z 2%Z) as (_ & -> & _); [apply G; lia|].
    unfold seam_bx, CH, CR. eval_conds. clear. lra.
Qed.

(** C3, evaluated at the failing input [seam_flow], a valid periodic 5 by
    3 state at rest, uniform but for [Bx = 1] in column 2, with
    [dt = 0.1] and no viscosity: after the step [psi[0][0] = 0] while
    [psi[nx-2][0] = 0.32 * dt_used] with [dt_used > 0]; the GLM loop has
    overwritten the periodic copy of [psi]. *)
Theorem C3_psi_not_periodic_after_step :
  valid_flow seam_flow /\ periodic_flow seam_flow /\
  0 < dt_used seam_flow 0.1 /\
  get2 (data (fl_psi (fst (solve_MHD seam_flow 0.1 0)))) 0 0 = 0 /\
  get2 (data (fl_psi (fst (solve_MHD seam_flow 0.1 0)))) (5 - 2) 0
  = 0.32 * dt_used seam_flow 0.1 /\
  get2 (data (fl_psi (fst (solve_MHD seam_flow 0.1 0)))) 0 0
  <> get2 (data (fl_psi (fst (solve_MHD seam_flow 0.1 0)))) (5 - 2) 0.
Proof.
  pose proof seam_dt_bounds as [Hd _].
  destruct (seam_psi_after (dt_used seam_flow 0.1) 0) as [H0 H3].
  rewrite solve_MHD_state. change (5 - 2)%Z with 3%Z.
  split; [exact seam_flow_valid|]. split; [exact seam_flow_periodic|].
  split; [exact Hd|]. split; [exact H0|]. split; [exact H3|].
  rewrite H0, H3. lra.
Qed.

(* ================================================================== *)
(** * The GLM source term against its specification *)

(** The specified value of [psi] in the corner cell of [seam_flow]. *)
Lemma seam_psi_spec (dt nu : R) :
  glm_psi_spec seam_flow dt nu 0 0 = 0.32 * dt * (1 - 0.01 * dt).
Proof.
  assert (G : forall i j, (0 <= i < 5)%Z -> (0 <= j < 3)%Z ->
                          in_grid (nx (fl_rho seam_flow))
                                  (ny (fl_rho seam_flow)) i j)
    by (intros; split; assumption).
  unfold glm_psi_spec.
  change (nx (fl_rho seam_flow)) with 5%Z.
  change (ny (fl_rho seam_flow)) with 3%Z.
  change (dx (fl_rho seam_flow)) with 1.
  change (dy (fl_rho seam_flow)) with 1.
  change ((0 + 1) mod 5)%Z with 1%Z. change ((0 - 1) mod 5)%Z with 4%Z.
  change ((0 + 1) mod 3)%Z with 1%Z. change ((0 - 1) mod 3)%Z with 2%Z.
  rewrite (step_bx_cell seam_flow dt nu 1 0 seam_flow_valid) by (apply G; lia).
  rewrite (step_bx_cell seam_flow dt nu 4 0 seam_flow_valid) by (apply G; lia).
  rewrite (step_by_cell seam_flow dt nu 0 1 seam_flow_valid) by (apply G; lia).
  rewrite (step_by_cell seam_flow dt nu 0 2 seam_flow_valid) by (apply G; lia).
  change (nx (fl_rho seam_flow)) with 5%Z.
  change (ny (fl_rho seam_flow)) with 3%Z.
  change (wrap 5 0) with 3%Z. change (wrap 5 1) with 1%Z.
  change (wrap 5 4) with 1%Z. change (wrap 3 0) with 1%Z.
  change (wrap 3 1) with 1%Z. change (wrap 3 2) with 1%Z.
  destruct (column_bufv 5 3 1 (fun _ => 1) (fun _ => 0.6) seam_bx dt nu 3 1)
    as (_ & _ & Hpsi); try lia.
  { split; simpl; lia. }
  fold seam_flow in Hpsi. rewrite Hpsi.
  change (interiorb (Z.of_nat 5) (Z.of_nat 3) 3 1) with true. cbv iota.
  rewrite seam_new_psi. unfold CH, CR, Rdiv. ring.
Qed.

(** C4, evaluated at the failing input [seam_flow] (valid, periodic, at
    rest, [Bx = 1] in column 2 only) with [dt = 0.1] and no viscosity, in
    the corner cell [(0,0)]: the specified value, computed from the wrapped
    preliminary [psi] and the wrapped new [Bx], [By], is
    [0.32 * dt_used * (1 - 0.01 * dt_used)], which is positive; the code,
    which reads the temporary arrays that never receive the periodic wrap,
    stores [0]. *)
Theorem C4_glm_source_reads_unwrapped_arrays :
  valid_flow seam_flow /\ periodic_flow seam_flow /\
  0 < dt_used seam_flow 0.1 <= 0.1 /\
  get2 (data (fl_psi (fst (solve_MHD seam_flow 0.1 0)))) 0 0 = 0 /\
  glm_psi_spec seam_flow (dt_used seam_flow 0.1) 0 0 0
  = 0.32 * dt_used seam_flow 0.1 * (1 - 0.01 * dt_used seam_flow 0.1) /\
  get2 (data (fl_psi (fst (solve_MHD seam_flow 0.1 0)))) 0 0
  <> glm_psi_spec seam_flow (dt_used seam_flow 0.1) 0 0 0.
Proof.
  pose proof seam_dt_bounds as Hd.
  destruct (seam_psi_after (dt_used seam_flow 0.1) 0) as [H0 _].
  pose proof (seam_psi_spec (dt_used seam_flow 0.1) 0) as Hs.
  rewrite solve_MHD_state.
  split; [exact seam_flow_valid|]. split; [exact seam_flow_periodic|].
  split; [exact Hd|]. split; [exact H0|]. split; [exact Hs|].
  rewrite H0, Hs. revert Hd. generalize (dt_used seam_flow 0.1).
  intros d Hd. nra.
Qed.

(** Away from the boundary and its neighbours the code and the
    specification agree: there the temporary arrays and the wrapped
    fields hold the same values. *)
Lemma glm_psi_deep_interior (flow : FlowField) (dt nu : R) (i j : Z) :
  let n := nx (fl_rho flow) in
  let m := ny (fl_rho flow) in
  valid_flow flow ->
  (2 <= i < n - 2)%Z -> (2 <= j < m - 2)%Z ->
  get2 (data (fl_psi (step_with_dt flow dt nu))) i j
  = glm_psi_spec flow dt nu i j.
Proof.
  intros n m Hv Hi Hj.
  assert (G : forall a b, (0 <= a < n)%Z -> (0 <= b < m)%Z ->
                          in_grid (nx (fl_rho flow)) (ny (fl_rho flow)) a b)
    by (intros; split; assumption).
  rewrite step_psi_cell by (auto; apply G; lia).
  unfold glm_psi, glm_psi_spec. fold n m.
  rewrite (Z.rem_small (i + 1) n), (Z.rem_small (j + 1) m) by lia.
  rewrite (Z.mod_small (i + 1) n), (Z.mod_small (j + 1) m) by lia.
  rewrite (Z.mod_small (i - 1) n), (Z.mod_small (j - 1) m) by lia.
  replace (Z.rem (i - 1 + n) n) with (i - 1)%Z.
  2:{ rewrite Z.rem_mod_nonneg by lia.
      replace (i - 1 + n)%Z with (i - 1 + 1 * n)%Z by lia.
      rewrite Z.mod_add by lia. symmetry. apply Z.mod_small. lia. }
  replace (Z.rem (j - 1 + m) m) with (j - 1)%Z.
  2:{ rewrite Z.rem_mod_nonneg by lia.
      replace (j - 1 + m)%Z with (j - 1 + 1 * m)%Z by lia.
      rewrite Z.mod_add by lia. symmetry. apply Z.mod_small. lia. }
  rewrite !step_bx_cell, !step_by_cell by (auto; apply G; lia).
  fold n m. rewrite !wrap_interior by lia.
  unfold committed, bufv. fold n m.
  rewrite !interiorb_true by (split; lia).
  reflexivity.
Qed.

(* ================================================================== *)
(** * Mass balance *)

Lemma sum_over_ext (l : list Z) (f g : Z -> R) :
  (forall i, In i l -> f i = g i) -> sum_over l f = sum_over l g.
Proof.
  induction l as [|a l IH]; intros H; simpl; [reflexivity|].
  rewrite (H a) by now left. rewrite IH; [reflexivity|].
  intros i Hi. apply H. now right.
Qed.

Lemma sum_over_zero (l : list Z) : sum_over l (fun _ => 0) = 0.
Proof. induction l as [|a l IH]; simpl; [reflexivity|]. rewrite IH. ring. Qed.

Lemma sum_over_lin (l : list Z) (f g h : Z -> R) (a b : R) :
  sum_over l (fun i => f i - a * g i - b * h i)
  = sum_over l f - a * sum_over l g - b * sum_over l h.
Proof.
  induction l as [|x l IH]; simpl; [ring|]. rewrite IH. ring.
Qed.

Lemma sum_over_plus (l : list Z) (f g : Z -> R) :
  sum_over l (fun i => f i + g i) = sum_over l f + sum_over l g.
Proof.
  induction l as [|x l IH]; simpl; [ring|]. rewrite IH. ring.
Qed.

Lemma sum_over_swap (l1 l2 : list Z) (f : Z -> Z -> R) :
  sum_over l1 (fun i => sum_over l2 (fun j => f i j))
  = sum_over l2 (fun j => sum_over l1 (fun i => f i j)).
Proof.
  induction l1 as [|a l1 IH]; simpl.
  - now rewrite sum_over_zero.
  - rewrite IH. now rewrite <- sum_over_plus.
Qed.

Lemma sum2_lin (l1 l2 : list Z) (f g h : Z -> Z -> R) (a b : R) :
  sum_over l1 (fun i => sum_over l2 (fun j => f i j - a * g i j - b * h i j))
  = sum_over l1 (fun i => sum_over l2 (fun j => f i j))
    - a * sum_over l1 (fun i => sum_over l2 (fun j => g i j))
    - b * sum_over l1 (fun i => sum_over l2 (fun j => h i j)).
Proof.
  rewrite <- sum_over_lin. apply sum_over_ext. intros i _.
  apply sum_over_lin.
Qed.

Lemma sum_over_telescope_from (F : Z -> R) (lo : Z) (k : nat) :
  sum_over (range_from lo k) (fun i => F i - F (i - 1)%Z)
  = F (lo + Z.of_nat k - 1)%Z - F (lo - 1)%Z.
Proof.
  revert lo. induction k as [|k IH]; intros lo.
  - simpl. replace (lo + 0 - 1)%Z with (lo - 1)%Z by lia. ring.
  - cbn [range_from sum_over fold_right]. fold (sum_over (range_from (lo + 1) k)
                                   (fun i => F i - F (i - 1)%Z)).
    rewrite IH.
    replace (lo + 1 + Z.of_nat k - 1)%Z with (lo + Z.of_nat (S k) - 1)%Z
      by lia.
    replace (lo + 1 - 1)%Z with lo by lia. ring.
Qed.

(** A sum of differences of consecutive face values leaves the two outer
    faces. *)
Lemma sum_over_telescope (F : Z -> R) (lo hi : Z) :
  (lo <= hi)%Z ->
  sum_over (range lo hi) (fun i => F i - F (i - 1)%Z)
  = F (hi - 1)%Z - F (lo - 1)%Z.
Proof.
  intros H. unfold range. rewrite sum_over_telescope_from.
  replace (lo + Z.of_nat (Z.to_nat (hi - lo)) - 1)%Z with (hi - 1)%Z by lia.
  reflexivity.
Qed.

Lemma flux_xm_shift (flow : FlowField) (sx : Slopes) (i j : Z) :
  flux_xm flow sx i j = flux_xp flow sx (i - 1) j.
Proof.
  unfold flux_xm, flux_xp. replace (i - 1 + 1)%Z with i by lia. reflexivity.
Qed.

Lemma flux_ym_shift (flow : FlowField) (sy : Slopes) (i j : Z) :
  flux_ym flow sy i j = flux_yp flow sy i (j - 1).
Proof.
  unfold flux_ym, flux_yp. replace (j - 1 + 1)%Z with j by lia. reflexivity.
Qed.

(** The density written back in an interior cell when the floor does not
    trigger there. *)
Lemma step_rho_interior (flow : FlowField) (dt nu : R) (i j : Z) :
  valid_flow flow ->
  interior (nx (fl_rho flow)) (ny (fl_rho flow)) i j ->
  1e-10 <= rho_unfloored flow dt i j ->
  get2 (data (fl_rho (step_with_dt flow dt nu))) i j
  = rho_unfloored flow dt i j.
Proof.
  intros Hv Hint Hfl.
  rewrite step_rho_cell by (auto; now apply interior_in_grid).
  destruct Hint as [Hi Hj]. rewrite !wrap_interior by assumption.
  unfold committed. rewrite interiorb_true by (split; assumption).
  unfold prim_cell, new_rho. now apply Rmax_left.
Qed.

(** The flux telescoping identity: when the density floor does not
    trigger, the interior mass changes by the net mass flux through the
    first and last X faces and the first and last Y faces. *)
Lemma mass_balance (flow : FlowField) (dt nu : R) :
  let n := nx (fl_rho flow) in
  let m := ny (fl_rho flow) in
  let Fx := fun i j => F_rho (flux_xp flow (compute_slopes_x flow) i j) in
  let Gy := fun i j => F_rho (flux_yp flow (compute_slopes_y flow) i j) in
  valid_flow flow ->
  (forall i j, interior n m i j -> 1e-10 <= rho_unfloored flow dt i j) ->
  interior_sum (data (fl_rho (step_with_dt flow dt nu))) n m
  = interior_sum (data (fl_rho flow)) n m
    - dt / dx (fl_rho flow)
      * sum_over (range 1 (m - 1)) (fun j => Fx (n - 2)%Z j - Fx 0%Z j)
    - dt / dy (fl_rho flow)
      * sum_over (range 1 (n - 1)) (fun i => Gy i (m - 2)%Z - Gy i 0%Z).
Proof.
  intros n m Fx Gy Hv Hfl.
  assert (Hn : (3 <= n)%Z) by apply Hv.
  assert (Hm : (3 <= m)%Z) by apply Hv.
  unfold interior_sum.
  rewrite (sum_over_ext _ _
    (fun i => sum_over (range 1 (m - 1))
       (fun j => get2 (data (fl_rho flow)) i j
                 - dt / dx (fl_rho flow) * (Fx i j - Fx (i - 1)%Z j)
                 - dt / dy (fl_rho flow) * (Gy i j - Gy i (j - 1)%Z)))).
  2:{ intros i Hi. apply sum_over_ext. intros j Hj.
      apply in_range in Hi, Hj.
      rewrite (step_rho_interior flow dt nu i j Hv (conj Hi Hj)
                                 (Hfl i j (conj Hi Hj))).
      unfold rho_unfloored, fv_update, Fx, Gy.
      now rewrite flux_xm_shift, flux_ym_shift. }
  rewrite sum2_lin. f_equal; [f_equal|].
  - f_equal. rewrite sum_over_swap. apply sum_over_ext. intros j _.
    rewrite (sum_over_telescope (fun i => Fx i j)) by lia.
    f_equal. f_equal. lia.
  - f_equal. apply sum_over_ext. intros i _.
    rewrite (sum_over_telescope (fun j => Gy i j)) by lia.
    f_equal. f_equal. lia.
Qed.

Lemma slopes_x_outside (flow : FlowField) (k : ssel) (i j : Z) :
  valid_flow flow ->
  (i <= 0 \/ nx (fl_rho flow) - 1 <= i)%Z ->
  get2 (sproj k (compute_slopes_x flow)) i j = 0.
Proof.
  intros Hv Hi. rewrite slopes_x_cell by apply Hv.
  destruct ((1 <=? i) && _ && _ && _)%Z eqn:E; [|reflexivity].
  rewrite !andb_true_iff, !Z.leb_le, !Z.ltb_lt in E. lia.
Qed.

Lemma slopes_y_outside (flow : FlowField) (k : ssel) (i j : Z) :
  valid_flow flow ->
  (j <= 0 \/ ny (fl_rho flow) - 1 <= j)%Z ->
  get2 (sproj k (compute_slopes_y flow)) i j = 0.
Proof.
  intros Hv Hj. rewrite slopes_y_cell by apply Hv.
  destruct ((0 <=? i) && _ && _ && _)%Z eqn:E; [|reflexivity].
  rewrite !andb_true_iff, !Z.leb_le, !Z.ltb_lt in E. lia.
Qed.

Lemma uniform_periodic (flow : FlowField) (rho0 p0 bx0 by0 e0 : R) :
  valid_flow flow -> uniform_rest flow rho0 p0 bx0 by0 e0 ->
  periodic_flow flow.
Proof.
  intros (Hn & Hm & _) Hu k. split.
  - intros j Hj. rewrite !Hu by (unfold in_grid; lia). split; reflexivity.
  - intros i Hi. rewrite !Hu by (unfold in_grid; lia). split; reflexivity.
Qed.

Lemma uniform_no_floor (flow : FlowField) (rho0 p0 bx0 by0 e0 dt : R) :
  valid_flow flow -> uniform_rest flow rho0 p0 bx0 by0 e0 ->
  1e-10 <= rho0 -> no_density_floor flow dt.
Proof.
  intros Hv Hu Hr i j Hint.
  destruct (uniform_bufs flow rho0 p0 bx0 by0 e0 Hv Hu (dt_used flow dt) 0
                         i j Hint) as [H _].
  now rewrite H.
Qed.

(* ================================================================== *)
(** * The state [mass_flow] *)

Lemma minmod_pos_small (a b : R) : 0 < a -> a < b -> minmod a b = a.
Proof.
  intros Ha Hb. unfold minmod.
  destruct (Rle_dec (a * b) 0) as [H|_]; [nra|].
  rewrite !Rabs_pos_eq by lra.
  destruct (Rlt_dec a b); [reflexivity|contradiction].
Qed.

Lemma minmod_scale (c a b : R) :
  0 < c -> minmod (c * a) (c * b) = c * minmod a b.
Proof.
  intros Hc. unfold minmod.
  rewrite !Rabs_mult, (Rabs_pos_eq c) by lra.
  assert (Hcc : 0 < c * c) by (now apply Rmult_lt_0_compat).
  replace (c * a * (c * b)) with (c * c * (a * b)) by ring.
  destruct (Rle_dec (c * c * (a * b)) 0) as [H|H];
    destruct (Rle_dec (a * b) 0) as [H'|H'].
  - ring.
  - exfalso. apply Rnot_le_lt in H'.
    pose proof (Rmult_lt_0_compat _ _ Hcc H'). lra.
  - exfalso. apply H.
    replace 0 with (c * c * 0) by ring.
    apply Rmult_le_compat_l; lra.
  - destruct (Rlt_dec (c * Rabs a) (c * Rabs b)) as [L|L];
      destruct (Rlt_dec (Rabs a) (Rabs b)) as [L'|L']; try reflexivity.
    + exfalso. apply L'. now apply Rmult_lt_reg_l with c.
    + exfalso. apply L. now apply Rmult_lt_compat_l.
Qed.

Lemma profile_slope_scale (n : Z) (c : R) (r : Z -> R) (i : Z) :
  0 < c ->
  profile_slope n (fun q => c * r q) i = c * profile_slope n r i.
Proof.
  intros Hc. unfold profile_slope. destruct (_ && _)%Z; [|ring].
  rewrite <- minmod_scale by exact Hc. f_equal; ring.
Qed.

Lemma mass_rho_pos (i : Z) : 0 < mass_rho i.
Proof.
  unfold mass_rho.
  destruct (i =? 1)%Z; [lra|]. destruct (i =? 2)%Z; [lra|].
  destruct (i =? 4)%Z; lra.
Qed.

Lemma mass_p_pos (i : Z) : 0 < mass_p i.
Proof. unfold mass_p. pose proof (mass_rho_pos i). lra. Qed.

Lemma mass_rho_values :
  mass_rho 0 = 1 /\ mass_rho 1 = 2 /\ mass_rho 2 = 4 /\
  mass_rho 3 = 1 /\ mass_rho 4 = 2.
Proof. unfold mass_rho. repeat split; eval_conds; reflexivity. Qed.

(** The limited density slopes of [mass_flow]: [1] in column 1, zero in
    the other columns. *)
Lemma mass_rho_slopes :
  profile_slope 5 mass_rho 0 = 0 /\ profile_slope 5 mass_rho 1 = 1 /\
  profile_slope 5 mass_rho 2 = 0 /\ profile_slope 5 mass_rho 3 = 0 /\
  profile_slope 5 mass_rho 4 = 0.
Proof.
  destruct mass_rho_values as (V0 & V1 & V2 & V3 & V4).
  unfold profile_slope. repeat split; eval_conds; try reflexivity.
  - change (1 - 1)%Z with 0%Z. change (1 + 1)%Z with 2%Z.
    rewrite V0, V1, V2. replace (4 - 2) with 2 by lra.
    replace (2 - 1) with 1 by lra. apply minmod_pos_small; lra.
  - change (2 - 1)%Z with 1%Z. change (2 + 1)%Z with 3%Z.
    rewrite V1, V2, V3. apply minmod_opposite. lra.
  - change (3 - 1)%Z with 2%Z. change (3 + 1)%Z with 4%Z.
    rewrite V2, V3, V4. apply minmod_opposite. lra.
Qed.

Lemma fast_speed_iso (rho : R) :
  0 < rho -> compute_fast_speed rho (0.6 * rho) 0 0 = 1.
Proof.
  intros Hr. unfold compute_fast_speed, gamma_gas.
  replace (5 / 3 * (0.6 * rho) / rho + (0 * 0 + 0 * 0) / rho) with 1.
  - apply sqrt_1.
  - replace 0.6 with (3 / 5) by lra. field. lra.
Qed.

(** The mass flux between two states at rest with [p = 0.6 * rho] and no
    magnetic field. *)
Lemma iso_face_rho (rhoL rhoR : R) :
  0 < rhoL -> 0 < rhoR ->
  F_rho (compute_hll_flux_x rhoL 0 0 (0.6 * rhoL) 0 0 0
                            rhoR 0 0 (0.6 * rhoR) 0 0 0)
  = (rhoL - rhoR) / 2.
Proof.
  intros HL HR.
  destruct (hll_x_at_rest rhoL 0 (0.6 * rhoL) 0 0 0 rhoR 0 (0.6 * rhoR) 0 0 0)
    as [H _].
  - rewrite !fast_speed_iso by assumption. rewrite Rmax_left; lra.
  - rewrite H, !fast_speed_iso by assumption. rewrite Rmax_left by lra.
    lra.
Qed.

Lemma mass_face (i : Z) (rhoL rhoR : R) :
  mass_rho i + 0.5 * profile_slope 5 mass_rho i = rhoL ->
  mass_rho (i + 1) - 0.5 * profile_slope 5 mass_rho (i + 1) = rhoR ->
  0 < rhoL -> 0 < rhoR ->
  F_rho (column_face 5 mass_rho mass_p (fun _ => 0) i) = (rhoL - rhoR) / 2.
Proof.
  intros HL HR PL PR. unfold column_face.
  rewrite !(profile_slope_const 5).
  change mass_p with (fun q => 0.6 * mass_rho q).
  rewrite !profile_slope_scale by lra. cbv beta.
  replace (0.6 * mass_rho i + 0.5 * (0.6 * profile_slope 5 mass_rho i))
    with (0.6 * rhoL) by (rewrite <- HL; ring).
  replace (0.6 * mass_rho (i + 1)
           - 0.5 * (0.6 * profile_slope 5 mass_rho (i + 1)))
    with (0.6 * rhoR) by (rewrite <- HR; ring).
  rewrite HL, HR.
  replace (0 + 0.5 * 0) with 0 by lra. replace (0 - 0.5 * 0) with 0 by lra.
  now apply iso_face_rho.
Qed.

(** The mass flux through the four X faces of a row of [mass_flow]. *)
Lemma mass_faces :
  F_rho (column_face 5 mass_rho mass_p (fun _ => 0) 0) = - 0.25 /\
  F_rho (column_face 5 mass_rho mass_p (fun _ => 0) 1) = - 0.75 /\
  F_rho (column_face 5 mass_rho mass_p (fun _ => 0) 2) = 1.5 /\
  F_rho (column_face 5 mass_rho mass_p (fun _ => 0) 3) = - 0.5.
Proof.
  destruct mass_rho_values as (V0 & V1 & V2 & V3 & V4).
  destruct mass_rho_slopes as (S0 & S1 & S2 & S3 & S4).
  repeat split.
  - rewrite (mass_face 0 1 1.5); change (0 + 1)%Z with 1%Z;
      rewrite ?V0, ?V1, ?S0, ?S1; lra.
  - rewrite (mass_face 1 2.5 4); change (1 + 1)%Z with 2%Z;
      rewrite ?V1, ?V2, ?S1, ?S2; lra.
  - rewrite (mass_face 2 4 1); change (2 + 1)%Z with 3%Z;
      rewrite ?V2, ?V3, ?S2, ?S3; lra.
  - rewrite (mass_face 3 1 2); change (3 + 1)%Z with 4%Z;
      rewrite ?V3, ?V4, ?S3, ?S4; lra.
Qed.

Lemma mass_flow_valid : valid_flow mass_flow.
Proof. apply column_flow_valid; lia. Qed.

Lemma mass_flow_periodic : periodic_flow mass_flow.
Proof.
  apply column_periodic; try lia.
  destruct mass_rho_values as (V0 & V1 & V2 & V3 & V4).
  change (Z.of_nat 5 - 2)%Z with 3%Z. change (Z.of_nat 5 - 1)%Z with 4%Z.
  intros k. destruct k; unfold cval, mass_p; rewrite ?V0, ?V1, ?V3, ?V4;
    split; reflexivity.
Qed.

Lemma mass_dt_bounds : 0 < dt_used mass_flow 0.01 <= 0.01.
Proof.
  apply column_dt_used_bounds; try lia; try lra.
  - apply mass_rho_pos.
  - apply mass_p_pos.
Qed.

(** The updated densities of the three interior cells of [mass_flow]. *)
Lemma mass_rho_unfloored (dt : R) :
  rho_unfloored mass_flow dt 1 1 = 2 + 0.5 * dt /\
  rho_unfloored mass_flow dt 2 1 = 4 - 2.25 * dt /\
  rho_unfloored mass_flow dt 3 1 = 1 + 2 * dt.
Proof.
  destruct mass_rho_values as (V0 & V1 & V2 & V3 & V4).
  destruct mass_faces as (F0 & F1 & F2 & F3).
  assert (C : forall i, (1 <= i < 4)%Z ->
            rho_unfloored mass_flow dt i 1
            = mass_rho i
              - dt / 1 * (F_rho (column_face 5 mass_rho mass_p (fun _ => 0) i)
                          - F_rho (column_face 5 mass_rho mass_p
                                               (fun _ => 0) (i - 1)))).
  { intros i Hi.
    destruct (column_cells 5 3 1 mass_rho mass_p (fun _ => 0)
                           ltac:(lia) ltac:(lia) dt i 1) as [H _];
      [split; simpl; lia | exact H]. }
  repeat split.
  - rewrite (C 1%Z) by lia. change (1 - 1)%Z with 0%Z.
    rewrite V1, F1, F0. lra.
  - rewrite (C 2%Z) by lia. change (2 - 1)%Z with 1%Z.
    rewrite V2, F2, F1. lra.
  - rewrite (C 3%Z) by lia. change (3 - 1)%Z with 2%Z.
    rewrite V3, F3, F2. lra.
Qed.

Lemma mass_no_floor : no_density_floor mass_flow 0.01.
Proof.
  intros i j [Hi Hj]. simpl in Hi, Hj.
  pose proof mass_dt_bounds as Hd.
  destruct (mass_rho_unfloored (dt_used mass_flow 0.01)) as (R1 & R2 & R3).
  assert (Ej : j = 1%Z) by lia. subst j.
  assert (Ei : i = 1%Z \/ i = 2%Z \/ i = 3%Z) by lia.
  destruct Ei as [E | [E | E]]; subst i; rewrite ?R1, ?R2, ?R3; lra.
Qed.

(** C1, counterexample: [mass_flow] is a valid periodic 5 by 3 state at
    rest (densities [1, 2, 4, 1, 2] along X, [p = 0.6 * rho], no magnetic
    field); with [dt = 0.01] and viscosity [0] no density floor triggers,
    yet the interior mass grows from [7] to [7 + 0.25 * dt_used].  The
    limited density slope is [1] in column 1 and is used for the face
    between columns 0 and 1, while the face between columns 3 and 4, its
    periodic image, is reconstructed with the zero slope of the boundary
    column. *)
Lemma C1_counterexample :
  (valid_flow mass_flow /\ periodic_flow mass_flow /\
   no_density_floor mass_flow 0.01) /\
  0 < dt_used mass_flow 0.01 /\
  interior_sum (data (fl_rho mass_flow)) 5 3 = 7 /\
  interior_sum (data (fl_rho (fst (solve_MHD mass_flow 0.01 0)))) 5 3
  = 7 + 0.25 * dt_used mass_flow 0.01 /\
  interior_sum (data (fl_rho (fst (solve_MHD mass_flow 0.01 0)))) 5 3
  <> interior_sum (data (fl_rho mass_flow)) 5 3.
Proof.
  pose proof mass_dt_bounds as Hd.
  pose proof mass_no_floor as Hf.
  destruct mass_rho_values as (V0 & V1 & V2 & V3 & V4).
  destruct (mass_rho_unfloored (dt_used mass_flow 0.01)) as (R1 & R2 & R3).
  assert (G : forall i, (1 <= i < 4)%Z ->
            interior (nx (fl_rho mass_flow)) (ny (fl_rho mass_flow)) i 1)
    by (intros; split; simpl; lia).
  assert (Hold : interior_sum (data (fl_rho mass_flow)) 5 3 = 7).
  { unfold interior_sum. change (range 1 (5 - 1)) with [1; 2; 3]%Z.
    change (range 1 (3 - 1)) with [1%Z]. cbv [sum_over fold_right].
    assert (Hget : forall i, (0 <= i < 5)%Z ->
                     get2 (data (fl_rho mass_flow)) i 1 = mass_rho i).
    { intros i Hi.
      apply (column_get 5 3 1 mass_rho mass_p (fun _ => 0) Frho i 1).
      split; simpl; lia. }
    rewrite !Hget by lia. rewrite V1, V2, V3. lra. }
  assert (Hnew : interior_sum
                   (data (fl_rho (fst (solve_MHD mass_flow 0.01 0)))) 5 3
                 = 7 + 0.25 * dt_used mass_flow 0.01).
  { rewrite solve_MHD_state. unfold interior_sum.
    change (range 1 (5 - 1)) with [1; 2; 3]%Z.
    change (range 1 (3 - 1)) with [1%Z]. cbv [sum_over fold_right].
    rewrite (step_rho_interior mass_flow _ 0 1 1 mass_flow_valid)
      by (try apply G; try apply Hf; try apply G; lia).
    rewrite (step_rho_interior mass_flow _ 0 2 1 mass_flow_valid)
      by (try apply G; try apply Hf; try apply G; lia).
    rewrite (step_rho_interior mass_flow _ 0 3 1 mass_flow_valid)
      by (try apply G; try apply Hf; try apply G; lia).
    rewrite R1, R2, R3. lra. }
  split; [exact (conj mass_flow_valid (conj mass_flow_periodic Hf))|].
  split; [apply Hd|]. split; [exact Hold|]. split; [exact Hnew|].
  rewrite Hold, Hnew. lra.
Qed.

(* ================================================================== *)
(** * States with positive density and pressure *)

Lemma rest_positive_state (n m : nat) (h rho0 p0 bx0 by0 : R) :
  (3 <= n)%nat -> (3 <= m)%nat -> 0 < h -> 0 < rho0 -> 0 < p0 ->
  positive_state (rest_flow n m h rho0 p0 bx0 by0).
Proof.
  intros Hn Hm Hh Hr Hp.
  split; [now apply rest_flow_valid|].
  split; [exact Hh|]. split; [exact Hh|].
  intros i j Hij.
  rewrite (rest_flow_uniform n m h rho0 p0 bx0 by0 Frho i j Hij
           : get2 (data (fl_rho (rest_flow n m h rho0 p0 bx0 by0))) i j = _).
  rewrite (rest_flow_uniform n m h rho0 p0 bx0 by0 Fp i j Hij
           : get2 (data (fl_p (rest_flow n m h rho0 p0 bx0 by0))) i j = _).
  simpl. split; assumption.
Qed.

Lemma column_positive_state (n m : nat) (h : R) (r pp b : Z -> R) :
  (3 <= n)%nat -> (3 <= m)%nat -> 0 < h ->
  (forall i, 0 < r i) -> (forall i, 0 < pp i) ->
  positive_state (column_flow n m h r pp b).
Proof.
  intros Hn Hm Hh Hr Hp.
  split; [now apply column_flow_valid|].
  split; [exact Hh|]. split; [exact Hh|].
  intros i j Hij.
  rewrite (column_get n m h r pp b Frho i j Hij
           : get2 (data (fl_rho (column_flow n m h r pp b))) i j = _).
  rewrite (column_get n m h r pp b Fp i j Hij
           : get2 (data (fl_p (column_flow n m h r pp b))) i j = _).
  cbn [cval]. split; [apply Hr|apply Hp].
Qed.

Lemma seam_flow_positive : positive_state seam_flow.
Proof.
  apply column_positive_state; try lia; try lra; intros; lra.
Qed.

Lemma thin_flow_positive : positive_state thin_flow.
Proof. apply rest_positive_state; try lia; lra. Qed.

Lemma tiny_pressure_positive : positive_state tiny_pressure_flow.
Proof. apply rest_positive_state; try lia; lra. Qed.

(** ** The state [thin_flow] *)

(** The density of a uniform state at rest after one step. *)
Lemma uniform_rho_after (flow : FlowField) (rho0 p0 bx0 by0 e0 dt nu : R)
      (i j : Z) :
  valid_flow flow -> uniform_rest flow rho0 p0 bx0 by0 e0 ->
  in_grid (nx (fl_rho flow)) (ny (fl_rho flow)) i j ->
  get2 (data (fl_rho (step_with_dt flow dt nu))) i j = rest_rho_after rho0.
Proof.
  intros Hv Hu Hij.
  exact (uniform_step flow rho0 p0 bx0 by0 e0 Hv Hu dt nu Frho i j Hij).
Qed.

Lemma thin_flow_valid : valid_flow thin_flow.
Proof. apply rest_flow_valid; lia. Qed.

(** The density floor acts on [thin_flow]: the density [1e-11] of every
    cell is raised to [1e-10] by one step. *)
Lemma thin_flow_floored (dt nu : R) (i j : Z) :
  in_grid 5 5 i j ->
  get2 (data (fl_rho thin_flow)) i j = 1e-11 /\
  get2 (data (fl_rho (fst (solve_MHD thin_flow dt nu)))) i j = 1e-10.
Proof.
  intros Hij. split.
  - exact (rest_flow_uniform 5 5 0.1 1e-11 1 0 0 Frho i j Hij).
  - rewrite solve_MHD_state.
    rewrite (uniform_rho_after thin_flow 1e-11 1 0 0 _ _ nu i j
               thin_flow_valid (rest_flow_uniform 5 5 0.1 1e-11 1 0 0) Hij).
    unfold rest_rho_after. apply Rmax_right. lra.
Qed.

(** ** The state [hot_flow] *)

Lemma hot_p_pos (i : Z) : 0 < hot_p i.
Proof. unfold hot_p. destruct (i =? 2)%Z; lra. Qed.

Lemma hot_flow_positive : positive_state hot_flow.
Proof.
  apply column_positive_state; try lia; try lra.
  - intros; lra.
  - apply hot_p_pos.
Qed.

Lemma sqrt_4 : sqrt 4 = 2.
Proof. replace 4 with (2 * 2) by lra. apply sqrt_square. lra. Qed.

(** The candidate timestep of the cells of [hot_flow]: [1], but [0.5] in
    column 2 where the fast speed is [2]. *)
Lemma hot_cell_dt (i j : Z) :
  in_grid 5 3 i j ->
  spec_cell_dt hot_flow i j = if (i =? 2)%Z then 0.5 else 1.
Proof.
  intros Hij. unfold spec_cell_dt, spec_fast_speed, hot_flow.
  rewrite (column_get 5 3 1 (fun _ => 1) hot_p (fun _ => 0) Frho i j Hij
           : get2 (data (fl_rho (column_flow 5 3 1 (fun _ => 1) hot_p
                                             (fun _ => 0)))) i j = _).
  rewrite (column_get 5 3 1 (fun _ => 1) hot_p (fun _ => 0) Fu i j Hij
           : get2 (data (fl_u (column_flow 5 3 1 (fun _ => 1) hot_p
                                           (fun _ => 0)))) i j = _).
  rewrite (column_get 5 3 1 (fun _ => 1) hot_p (fun _ => 0) Fv i j Hij
           : get2 (data (fl_v (column_flow 5 3 1 (fun _ => 1) hot_p
                                           (fun _ => 0)))) i j = _).
  rewrite (column_get 5 3 1 (fun _ => 1) hot_p (fun _ => 0) Fp i j Hij
           : get2 (data (fl_p (column_flow 5 3 1 (fun _ => 1) hot_p
                                           (fun _ => 0)))) i j = _).
  rewrite (column_get 5 3 1 (fun _ => 1) hot_p (fun _ => 0) Fbx i j Hij
           : get2 (data (fl_bx (column_flow 5 3 1 (fun _ => 1) hot_p
                                            (fun _ => 0)))) i j = _).
  rewrite (column_get 5 3 1 (fun _ => 1) hot_p (fun _ => 0) Fby i j Hij
           : get2 (data (fl_by (column_flow 5 3 1 (fun _ => 1) hot_p
                                            (fun _ => 0)))) i j = _).
  cbn [cval]. rewrite Rabs_R0.
  change (dx (fl_rho (column_flow 5 3 1 (fun _ => 1) hot_p (fun _ => 0))))
    with 1.
  change (dy (fl_rho (column_flow 5 3 1 (fun _ => 1) hot_p (fun _ => 0))))
    with 1.
  unfold hot_p. destruct (i =? 2)%Z.
  - replace (5 / 3 * 2.4 / 1 + (0 * 0 + 0 * 0) / 1) with 4 by lra.
    rewrite sqrt_4. rewrite Rmin_left by lra. lra.
  - replace (5 / 3 * 0.6 / 1 + (0 * 0 + 0 * 0) / 1) with 1 by lra.
    rewrite sqrt_1. rewrite Rmin_left by lra. lra.
Qed.

Lemma hot_interior (i j : Z) :
  interior (nx (fl_rho hot_flow)) (ny (fl_rho hot_flow)) i j ->
  in_grid 5 3 i j.
Proof. intros [Hi Hj]. simpl in Hi, Hj. unfold in_grid. lia. Qed.

(** The smallest candidate of [hot_flow] is the one of column 2. *)
Lemma hot_physical_min :
  is_physical_min hot_flow (spec_cell_dt hot_flow 2 1).
Proof.
  split.
  - exists 2%Z, 1%Z. split; [split; simpl; lia|reflexivity].
  - intros i j Hint. apply hot_interior in Hint.
    rewrite (hot_cell_dt 2 1) by (unfold in_grid; lia).
    rewrite (hot_cell_dt i j Hint).
    change (2 =? 2)%Z with true. cbv iota.
    destruct (i =? 2)%Z; lra.
Qed.

Lemma hot_interior_positive (i j : Z) :
  interior (nx (fl_rho hot_flow)) (ny (fl_rho hot_flow)) i j ->
  0 < get2 (data (fl_rho hot_flow)) i j /\
  0 < get2 (data (fl_p hot_flow)) i j.
Proof.
  intros Hint. destruct hot_flow_positive as (_ & _ & _ & H).
  apply H. now apply interior_in_grid.
Qed.

(** The timestep of [hot_flow] is set by column 2. *)
Lemma hot_flow_timestep : compute_cfl_timestep hot_flow 0.2 = 0.1.
Proof.
  unfold compute_cfl_timestep. cbv zeta.
  rewrite (cfl_loop_min hot_flow _ hot_physical_min).
  rewrite (hot_cell_dt 2 1) by (unfold in_grid; lia).
  change (2 =? 2)%Z with true. cbv iota.
  change (dx (fl_rho hot_flow)) with 1. change (dy (fl_rho hot_flow)) with 1.
  rewrite (Rmin_right 1e10 0.5) by lra.
  destruct (Rgt_dec 0.5 1) as [H|_]; [lra|].
  unfold CH. rewrite (Rmin_left 1 1) by lra.
  rewrite Rmin_left by lra. lra.
Qed.

(** ** The state [hump_flow] *)

Lemma hump_rho_pos (i : Z) : 0 < hump_rho i.
Proof. unfold hump_rho. destruct (i =? 2)%Z; lra. Qed.

Lemma hump_p_pos (i : Z) : 0 < hump_p i.
Proof. unfold hump_p. pose proof (hump_rho_pos i). lra. Qed.

Lemma hump_rho_values :
  hump_rho 0 = 1 /\ hump_rho 1 = 1 /\ hump_rho 2 = 2 /\
  hump_rho 3 = 1 /\ hump_rho 4 = 1.
Proof. unfold hump_rho. repeat split. Qed.

(** The hump is a local maximum between two flat stretches: the limited
    slope of the density vanishes in every column. *)
Lemma hump_rho_slope (i : Z) : profile_slope 5 hump_rho i = 0.
Proof.
  unfold profile_slope. destruct (_ && _)%Z; [|reflexivity].
  apply minmod_opposite. unfold hump_rho.
  destruct (i =? 2)%Z eqn:E0; destruct (i - 1 =? 2)%Z eqn:E1;
    destruct (i + 1 =? 2)%Z eqn:E2; lra.
Qed.

Lemma hump_p_slope (i : Z) : profile_slope 5 hump_p i = 0.
Proof.
  change hump_p with (fun q => 0.6 * hump_rho q).
  rewrite profile_slope_scale by lra. rewrite hump_rho_slope. ring.
Qed.

Lemma hump_flow_valid : valid_flow hump_flow.
Proof. apply column_flow_valid; lia. Qed.

Lemma hump_flow_positive : positive_state hump_flow.
Proof.
  apply column_positive_state; try lia; try lra.
  - apply hump_rho_pos.
  - apply hump_p_pos.
Qed.

Lemma hump_flow_periodic : periodic_flow hump_flow.
Proof.
  apply column_periodic; try lia.
  intros k. destruct k; split; reflexivity.
Qed.

Lemma hump_seam_slopes : seam_slopes_vanish hump_flow.
Proof.
  assert (Hx : forall k i j, (1 <= j < 3 - 1)%Z ->
            get2 (sproj k (compute_slopes_x hump_flow)) i j = 0).
  { intros k i j Hj. unfold hump_flow.
    rewrite (column_slopes_x 5 3 1 hump_rho hump_p (fun _ => 0)
                             ltac:(lia) ltac:(lia) k i j) by (simpl; lia).
    destruct k; cbn [ssrc cval];
      first [ apply hump_rho_slope | apply hump_p_slope
            | apply (profile_slope_const 5) ]. }
  split.
  - intros k _ j Hj. split; apply Hx; exact Hj.
  - intros k _ i Hi. unfold hump_flow.
    split; apply (column_slopes_y 5 3 1 hump_rho hump_p (fun _ => 0));
      lia.
Qed.

Lemma hump_dt_bounds : 0 < dt_used hump_flow 0.01 <= 0.01.
Proof.
  apply column_dt_used_bounds; try lia; try lra.
  - apply hump_rho_pos.
  - apply hump_p_pos.
Qed.

(** The mass flux through an X face of [hump_flow]: half the density jump,
    the fast speed being 1 on both sides. *)
Lemma hump_face (i : Z) :
  F_rho (column_face 5 hump_rho hump_p (fun _ => 0) i)
  = (hump_rho i - hump_rho (i + 1)) / 2.
Proof.
  unfold column_face.
  rewrite !(profile_slope_const 5), !hump_rho_slope, !hump_p_slope.
  unfold hump_p.
  replace (hump_rho i + 0.5 * 0) with (hump_rho i) by lra.
  replace (hump_rho (i + 1) - 0.5 * 0) with (hump_rho (i + 1)) by lra.
  replace (0.6 * hump_rho i + 0.5 * 0) with (0.6 * hump_rho i) by lra.
  replace (0.6 * hump_rho (i + 1) - 0.5 * 0) with (0.6 * hump_rho (i + 1))
    by lra.
  replace (0 + 0.5 * 0) with 0 by lra. replace (0 - 0.5 * 0) with 0 by lra.
  apply iso_face_rho; apply hump_rho_pos.
Qed.

(** The updated densities of the three interior cells of [hump_flow]: the
    middle cell loses [dt], each of its neighbours gains half of it. *)
Lemma hump_rho_unfloored (dt : R) :
  rho_unfloored hump_flow dt 1 1 = 1 + 0.5 * dt /\
  rho_unfloored hump_flow dt 2 1 = 2 - dt /\
  rho_unfloored hump_flow dt 3 1 = 1 + 0.5 * dt.
Proof.
  destruct hump_rho_values as (V0 & V1 & V2 & V3 & V4).
  assert (C : forall i, (1 <= i < 4)%Z ->
            rho_unfloored hump_flow dt i 1
            = hump_rho i
              - dt / 1 * (F_rho (column_face 5 hump_rho hump_p (fun _ => 0) i)
                          - F_rho (column_face 5 hump_rho hump_p
                                               (fun _ => 0) (i - 1)))).
  { intros i Hi.
    destruct (column_cells 5 3 1 hump_rho hump_p (fun _ => 0)
                           ltac:(lia) ltac:(lia) dt i 1) as [H _];
      [split; simpl; lia | exact H]. }
  repeat split.
  - rewrite (C 1%Z) by lia. rewrite !hump_face.
    change (1 - 1)%Z with 0%Z. change (1 + 1)%Z with 2%Z.
    change (0 + 1)%Z with 1%Z. rewrite V0, V1, V2. lra.
  - rewrite (C 2%Z) by lia. rewrite !hump_face.
    change (2 - 1)%Z with 1%Z. change (2 + 1)%Z with 3%Z.
    change (1 + 1)%Z with 2%Z. rewrite V1, V2, V3. lra.
  - rewrite (C 3%Z) by lia. rewrite !hump_face.
    change (3 - 1)%Z with 2%Z. change (3 + 1)%Z with 4%Z.
    change (2 + 1)%Z with 3%Z. rewrite V2, V3, V4. lra.
Qed.

Lemma hump_no_floor : no_density_floor hump_flow 0.01.
Proof.
  intros i j [Hi Hj]. simpl in Hi, Hj.
  pose proof hump_dt_bounds as Hd.
  destruct (hump_rho_unfloored (dt_used hump_flow 0.01)) as (R1 & R2 & R3).
  assert (Ej : j = 1%Z) by lia. subst j.
  assert (Ei : i = 1%Z \/ i = 2%Z \/ i = 3%Z) by lia.
  destruct Ei as [E | [E | E]]; subst i; rewrite ?R1, ?R2, ?R3; lra.
Qed.

(** Mass moves in [hump_flow]: after the step the middle cell has lost
    [dt_used] and each neighbour has gained half of it. *)
Lemma hump_rho_after :
  let d := dt_used hump_flow 0.01 in
  let after := fst (solve_MHD hump_flow 0.01 0) in
  0 < d /\
  get2 (data (fl_rho after)) 1 1 = 1 + 0.5 * d /\
  get2 (data (fl_rho after)) 2 1 = 2 - d /\
  get2 (data (fl_rho after)) 3 1 = 1 + 0.5 * d.
Proof.
  intros d after. unfold after. rewrite solve_MHD_state. fold d.
  pose proof hump_dt_bounds as Hd. fold d in Hd.
  destruct (hump_rho_unfloored d) as (R1 & R2 & R3).
  assert (G : forall i, (1 <= i < 4)%Z ->
            interior (nx (fl_rho hump_flow)) (ny (fl_rho hump_flow)) i 1)
    by (intros; split; simpl; lia).
  split; [apply Hd|].
  rewrite (step_rho_interior hump_flow d 0 1 1 hump_flow_valid)
    by (try (apply G; lia); rewrite R1; lra).
  rewrite (step_rho_interior hump_flow d 0 2 1 hump_flow_valid)
    by (try (apply G; lia); rewrite R2; lra).
  rewrite (step_rho_interior hump_flow d 0 3 1 hump_flow_valid)
    by (try (apply G; lia); rewrite R3; lra).
  rewrite R1, R2, R3. repeat split.
Qed.

(** The five-point stencil of [Bx] at the cell [(2,1)] of [seam_flow],
    where [Bx = 1] between two columns with [Bx = 0]. *)
Lemma seam_bx_stencil :
  let bx := get2 (data (fl_bx seam_flow)) in
  (bx 3%Z 1%Z - 2 * bx 2%Z 1%Z + bx 1%Z 1%Z)
    / (dx (fl_bx seam_flow) * dx (fl_bx seam_flow))
  + (bx 2%Z 2%Z - 2 * bx 2%Z 1%Z + bx 2%Z 0%Z)
    / (dy (fl_bx seam_flow) * dy (fl_bx seam_flow))
  = -2.
Proof.
  intros bx. unfold bx.
  assert (G : forall i j, (0 <= i < 5)%Z -> (0 <= j < 3)%Z ->
            get2 (data (fl_bx seam_flow)) i j = seam_bx i).
  { intros i j Hi Hj.
    apply (column_get 5 3 1 (fun _ => 1) (fun _ => 0.6) seam_bx Fbx i j).
    split; simpl; lia. }
  rewrite !G by lia.
  change (dx (fl_bx seam_flow)) with 1. change (dy (fl_bx seam_flow)) with 1.
  unfold seam_bx. eval_conds. lra.
Qed.

(* ================================================================== *)
(** * Positivity floors *)

(** C5. For every valid state (sizes as declared, positive spacings,
    positive density and pressure in every cell), every [dt] and every
    viscosity, after one call to [solve_MHD] every cell of the grid,
    boundary cells included, has density at least [1e-10] and total energy
    at least [1e-10]. *)
Theorem C5_density_energy_floor (flow : FlowField) (dt nu : R) (i j : Z) :
  positive_state flow ->
  in_grid (nx (fl_rho flow)) (ny (fl_rho flow)) i j ->
  1e-10 <= get2 (data (fl_rho (fst (solve_MHD flow dt nu)))) i j /\
  1e-10 <= get2 (data (fl_e (fst (solve_MHD flow dt nu)))) i j.
Proof.
  intros [Hv _] Hij. rewrite solve_MHD_state.
  destruct (step_cells flow (dt_used flow dt) nu Hv) as [_ Hc].
  destruct (Hc i j Hij) as [Hk _].
  pose proof (Hk Frho ltac:(discriminate)) as Hrho.
  pose proof (Hk Fe ltac:(discriminate)) as He.
  unfold fproj in Hrho, He. simpl in Hrho, He. rewrite Hrho, He.
  assert (Hn : (3 <= nx (fl_rho flow))%Z) by apply Hv.
  assert (Hm : (3 <= ny (fl_rho flow))%Z) by apply Hv.
  destruct Hij as [Hi Hj].
  pose proof (wrap_in_range _ i Hn Hi). pose proof (wrap_in_range _ j Hm Hj).
  unfold committed. rewrite interiorb_true by (split; lia).
  unfold prim_cell, new_rho, new_e. split; apply Rmax_r.
Qed.

(** The state [thin_flow], whose density [1e-11] lies below the floor: the
    floor acts in every cell (lemma [thin_flow_floored]). *)
Lemma C5_witness :
  (positive_state thin_flow /\ in_grid 5 5 0 2) /\
  1e-10 <= get2 (data (fl_rho (fst (solve_MHD thin_flow 0.1 0)))) 0 2 /\
  1e-10 <= get2 (data (fl_e (fst (solve_MHD thin_flow 0.1 0)))) 0 2.
Proof.
  assert (Hg : in_grid 5 5 0 2) by (unfold in_grid; lia).
  split; [exact (conj thin_flow_positive Hg)|].
  exact (C5_density_energy_floor thin_flow 0.1 0 0 2 thin_flow_positive Hg).
Defined.

(* ================================================================== *)
(** * Magnetic diffusion *)

(** C10. For every valid state with positive density and pressure, every
    [dt] and every viscosity [nu] (zero included), the new [Bx] of every
    interior cell is the flux-difference update plus
    [dt * 0.001 * ((Bx[i+1][j] - 2 Bx[i][j] + Bx[i-1][j]) / dx^2
                   + (Bx[i][j+1] - 2 Bx[i][j] + Bx[i][j-1]) / dy^2)],
    and likewise for [By], [dt] being the clamped timestep of the call:
    the constant [ETA] is [0.001], its guard [ETA > 0] always holds, and
    no argument of [solve_MHD] switches the term off. *)
Theorem C10_magnetic_diffusion_always_on
        (flow : FlowField) (dt nu : R) (i j : Z) :
  let d := dt_used flow dt in
  let bx := get2 (data (fl_bx flow)) in
  let by_ := get2 (data (fl_by flow)) in
  positive_state flow ->
  interior (nx (fl_rho flow)) (ny (fl_rho flow)) i j ->
  ETA = 0.001 /\ ETA > 0 /\
  get2 (data (fl_bx (fst (solve_MHD flow dt nu)))) i j
  = flux_bx flow d i j
    + d * 0.001
      * ((bx (i + 1)%Z j - 2 * bx i j + bx (i - 1)%Z j)
           / (dx (fl_bx flow) * dx (fl_bx flow))
         + (bx i (j + 1)%Z - 2 * bx i j + bx i (j - 1)%Z)
           / (dy (fl_bx flow) * dy (fl_bx flow))) /\
  get2 (data (fl_by (fst (solve_MHD flow dt nu)))) i j
  = flux_by flow d i j
    + d * 0.001
      * ((by_ (i + 1)%Z j - 2 * by_ i j + by_ (i - 1)%Z j)
           / (dx (fl_by flow) * dx (fl_by flow))
         + (by_ i (j + 1)%Z - 2 * by_ i j + by_ i (j - 1)%Z)
           / (dy (fl_by flow) * dy (fl_by flow))).
Proof.
  intros d bx by_ [Hv _] Hij. split; [reflexivity|]. split; [apply ETA_pos|].
  rewrite solve_MHD_state. fold d.
  pose proof (interior_in_grid _ _ _ _ Hij) as Hg.
  rewrite (step_bx_cell flow d nu i j Hv Hg).
  rewrite (step_by_cell flow d nu i j Hv Hg).
  destruct Hij as [Hi Hj]. rewrite !wrap_interior by assumption.
  unfold committed. rewrite interiorb_true by (split; assumption).
  unfold prim_cell, new_bx, new_by, ETA, laplacian, bx, by_.
  split; reflexivity.
Qed.

(** The cell [(2,1)] of [seam_flow], where the stencil of [Bx] is [-2]
    (lemma [seam_bx_stencil]), with viscosity zero. *)
Lemma C10_witness :
  (positive_state seam_flow /\
   interior (nx (fl_rho seam_flow)) (ny (fl_rho seam_flow)) 2 1) /\
  let flow := seam_flow in
  let d := dt_used flow 0.1 in
  let bx := get2 (data (fl_bx flow)) in
  let by_ := get2 (data (fl_by flow)) in
  ETA = 0.001 /\ ETA > 0 /\
  get2 (data (fl_bx (fst (solve_MHD flow 0.1 0)))) 2 1
  = flux_bx flow d 2 1
    + d * 0.001
      * ((bx (2 + 1)%Z 1%Z - 2 * bx 2%Z 1%Z + bx (2 - 1)%Z 1%Z)
           / (dx (fl_bx flow) * dx (fl_bx flow))
         + (bx 2%Z (1 + 1)%Z - 2 * bx 2%Z 1%Z + bx 2%Z (1 - 1)%Z)
           / (dy (fl_bx flow) * dy (fl_bx flow))) /\
  get2 (data (fl_by (fst (solve_MHD flow 0.1 0)))) 2 1
  = flux_by flow d 2 1
    + d * 0.001
      * ((by_ (2 + 1)%Z 1%Z - 2 * by_ 2%Z 1%Z + by_ (2 - 1)%Z 1%Z)
           / (dx (fl_by flow) * dx (fl_by flow))
         + (by_ 2%Z (1 + 1)%Z - 2 * by_ 2%Z 1%Z + by_ 2%Z (1 - 1)%Z)
           / (dy (fl_by flow) * dy (fl_by flow))).
Proof.
  assert (Hg : interior (nx (fl_rho seam_flow)) (ny (fl_rho seam_flow)) 2 1)
    by (split; simpl; lia).
  split; [exact (conj seam_flow_positive Hg)|].
  exact (C10_magnetic_diffusion_always_on
           seam_flow 0.1 0 2 1 seam_flow_positive Hg).
Defined.

(* ================================================================== *)
(** * The CFL timestep against its specification *)

(** C6. For a state with positive density and pressure in the interior
    cells, with [physical_min] the minimum over the interior cells of
    [min(dx/(|u|+c_f), dy/(|v|+c_f))], [c_f = sqrt(gamma*p/rho +
    (Bx^2+By^2)/rho)], [gamma = 5/3], and [glm_bound = min(dx,dy)/0.8],
    [compute_cfl_timestep(flow, cfl_number)] returns
    [cfl_number * min(physical_min, glm_bound)] where [physical_min] is
    replaced by [glm_bound] when it exceeds [1.0]; the default
    [cfl_number] is [0.2]. *)
Theorem C6_cfl_timestep (flow : FlowField) (cfl_number pm : R) :
  (forall i j, interior (nx (fl_rho flow)) (ny (fl_rho flow)) i j ->
     0 < get2 (data (fl_rho flow)) i j /\ 0 < get2 (data (fl_p flow)) i j) ->
  is_physical_min flow pm ->
  compute_cfl_timestep flow cfl_number = spec_cfl_timestep flow cfl_number pm
  /\ default_cfl_number = 0.2.
Proof.
  intros _ Hpm. split; [|reflexivity].
  unfold compute_cfl_timestep, spec_cfl_timestep.
  rewrite (cfl_loop_min flow pm Hpm). unfold CH.
  set (glm := Rmin (dx (fl_rho flow)) (dy (fl_rho flow)) / 0.8).
  destruct (Rgt_dec (Rmin 1e10 pm) 1) as [Hgt|Hle];
    destruct (Rgt_dec pm 1) as [Hgt'|Hle']; try reflexivity.
  - exfalso. apply Hle'. eapply Rlt_le_trans; [exact Hgt|apply Rmin_r].
  - exfalso. apply Hle. unfold Rmin. destruct (Rle_dec 1e10 pm); lra.
  - rewrite (Rmin_right 1e10 pm) by lra. reflexivity.
Qed.

(** The state [hot_flow]: three interior cells with candidates [1], [0.5]
    and [1]; the minimum is the one of column 2 and the timestep is
    [0.2 * 0.5] (lemmas [hot_cell_dt], [hot_flow_timestep]). *)
Lemma C6_witness :
  ((forall i j, interior (nx (fl_rho hot_flow)) (ny (fl_rho hot_flow)) i j ->
      0 < get2 (data (fl_rho hot_flow)) i j /\
      0 < get2 (data (fl_p hot_flow)) i j) /\
   is_physical_min hot_flow (spec_cell_dt hot_flow 2 1)) /\
  compute_cfl_timestep hot_flow 0.2
  = spec_cfl_timestep hot_flow 0.2 (spec_cell_dt hot_flow 2 1)
  /\ default_cfl_number = 0.2.
Proof.
  split; [exact (conj hot_interior_positive hot_physical_min)|].
  exact (C6_cfl_timestep hot_flow 0.2 _ hot_interior_positive
                         hot_physical_min).
Defined.

(* ================================================================== *)
(** * Conservation of mass across the periodic seam *)

(** The mass flux along X reads neither the tangential velocity nor
    [psi]. *)
Lemma F_rho_x_reads
      (rhoL uL vL pL BxL ByL psiL rhoR uR vR pR BxR ByR psiR
       vL' psiL' vR' psiR' : R) :
  F_rho (compute_hll_flux_x rhoL uL vL pL BxL ByL psiL
                            rhoR uR vR pR BxR ByR psiR)
  = F_rho (compute_hll_flux_x rhoL uL vL' pL BxL ByL psiL'
                              rhoR uR vR' pR BxR ByR psiR').
Proof.
  unfold compute_hll_flux_x. cbv zeta.
  destruct (Rgt_dec _ _); [reflexivity|].
  destruct (Rlt_dec _ _); reflexivity.
Qed.

Lemma F_rho_y_reads
      (rhoL uL vL pL BxL ByL psiL rhoR uR vR pR BxR ByR psiR
       uL' psiL' uR' psiR' : R) :
  F_rho (compute_hll_flux_y rhoL uL vL pL BxL ByL psiL
                            rhoR uR vR pR BxR ByR psiR)
  = F_rho (compute_hll_flux_y rhoL uL' vL pL BxL ByL psiL'
                              rhoR uR' vR pR BxR ByR psiR').
Proof.
  unfold compute_hll_flux_y. cbv zeta.
  destruct (Rgt_dec _ _); [reflexivity|].
  destruct (Rlt_dec _ _); reflexivity.
Qed.

Section PeriodicSeam.
Variable flow : FlowField.
Hypothesis Hvalid : valid_flow flow.
Hypothesis Hper : periodic_flow flow.
Hypothesis Hseam : seam_slopes_vanish flow.

(** With a periodic state and no slope of the fields it reads next to the
    boundary, the mass flux through the first and the last X face of a
    row is the same. *)
Lemma seam_flux_x (j : Z) :
  (1 <= j < ny (fl_rho flow) - 1)%Z ->
  F_rho (flux_xp flow (compute_slopes_x flow) (nx (fl_rho flow) - 2) j)
  = F_rho (flux_xp flow (compute_slopes_x flow) 0 j).
Proof.
  intros Hj. unfold flux_xp.
  replace (nx (fl_rho flow) - 2 + 1)%Z with (nx (fl_rho flow) - 1)%Z by lia.
  change (0 + 1)%Z with 1%Z.
  etransitivity;
    [apply (F_rho_x_reads _ _ _ _ _ _ _ _ _ _ _ _ _ _ 0 0 0 0)|].
  symmetry.
  etransitivity;
    [apply (F_rho_x_reads _ _ _ _ _ _ _ _ _ _ _ _ _ _ 0 0 0 0)|].
  symmetry.
  destruct Hseam as [Hsx _].
  pose proof (fun k (Hk : mass_reads_x k) => proj1 (Hsx k Hk j Hj)) as S1.
  pose proof (fun k (Hk : mass_reads_x k) => proj2 (Hsx k Hk j Hj)) as S2.
  pose proof (S1 Srho ltac:(unfold mass_reads_x; tauto)).
  pose proof (S1 Su ltac:(unfold mass_reads_x; tauto)).
  pose proof (S1 Sp ltac:(unfold mass_reads_x; tauto)).
  pose proof (S1 Sbx ltac:(unfold mass_reads_x; tauto)).
  pose proof (S1 Sby ltac:(unfold mass_reads_x; tauto)).
  pose proof (S2 Srho ltac:(unfold mass_reads_x; tauto)).
  pose proof (S2 Su ltac:(unfold mass_reads_x; tauto)).
  pose proof (S2 Sp ltac:(unfold mass_reads_x; tauto)).
  pose proof (S2 Sbx ltac:(unfold mass_reads_x; tauto)).
  pose proof (S2 Sby ltac:(unfold mass_reads_x; tauto)).
  clear S1 S2 Hsx.
  all_slopes (fun k => slopes_x_outside flow k 0 j Hvalid ltac:(lia)).
  all_slopes (fun k => slopes_x_outside flow k (nx (fl_rho flow) - 1) j
                                        Hvalid ltac:(lia)).
  all_slopes (fun k => proj1 (proj1 (Hper (ssrc k)) j ltac:(lia))).
  all_slopes (fun k => proj2 (proj1 (Hper (ssrc k)) j ltac:(lia))).
  unfold fproj in *. simpl in *.
  repeat match goal with H : get2 _ _ _ = _ |- _ => rewrite H; clear H end.
  reflexivity.
Qed.

Lemma seam_flux_y (i : Z) :
  (1 <= i < nx (fl_rho flow) - 1)%Z ->
  F_rho (flux_yp flow (compute_slopes_y flow) i (ny (fl_rho flow) - 2))
  = F_rho (flux_yp flow (compute_slopes_y flow) i 0).
Proof.
  intros Hi. unfold flux_yp.
  replace (ny (fl_rho flow) - 2 + 1)%Z with (ny (fl_rho flow) - 1)%Z by lia.
  change (0 + 1)%Z with 1%Z.
  etransitivity;
    [apply (F_rho_y_reads _ _ _ _ _ _ _ _ _ _ _ _ _ _ 0 0 0 0)|].
  symmetry.
  etransitivity;
    [apply (F_rho_y_reads _ _ _ _ _ _ _ _ _ _ _ _ _ _ 0 0 0 0)|].
  symmetry.
  destruct Hseam as [_ Hsy].
  pose proof (fun k (Hk : mass_reads_y k) => proj1 (Hsy k Hk i Hi)) as S1.
  pose proof (fun k (Hk : mass_reads_y k) => proj2 (Hsy k Hk i Hi)) as S2.
  pose proof (S1 Srho ltac:(unfold mass_reads_y; tauto)).
  pose proof (S1 Sv ltac:(unfold mass_reads_y; tauto)).
  pose proof (S1 Sp ltac:(unfold mass_reads_y; tauto)).
  pose proof (S1 Sbx ltac:(unfold mass_reads_y; tauto)).
  pose proof (S1 Sby ltac:(unfold mass_reads_y; tauto)).
  pose proof (S2 Srho ltac:(unfold mass_reads_y; tauto)).
  pose proof (S2 Sv ltac:(unfold mass_reads_y; tauto)).
  pose proof (S2 Sp ltac:(unfold mass_reads_y; tauto)).
  pose proof (S2 Sbx ltac:(unfold mass_reads_y; tauto)).
  pose proof (S2 Sby ltac:(unfold mass_reads_y; tauto)).
  clear S1 S2 Hsy.
  all_slopes (fun k => slopes_y_outside flow k i 0 Hvalid ltac:(lia)).
  all_slopes (fun k => slopes_y_outside flow k i (ny (fl_rho flow) - 1)
                                        Hvalid ltac:(lia)).
  all_slopes (fun k => proj1 (proj2 (Hper (ssrc k)) i ltac:(lia))).
  all_slopes (fun k => proj2 (proj2 (Hper (ssrc k)) i ltac:(lia))).
  unfold fproj in *. simpl in *.
  repeat match goal with H : get2 _ _ _ = _ |- _ => rewrite H; clear H end.
  reflexivity.
Qed.
End PeriodicSeam.

(** C1, as amended: for every valid state with positive density and
    pressure whose boundary cells mirror the interior periodically and in
    which the limited slopes read by the mass flux (density, normal
    velocity, pressure, [Bx], [By]) vanish in the interior cells next to
    the boundary (X slopes in columns 1 and nx-2, Y slopes in rows 1 and
    ny-2), one call to [solve_MHD] leaves the sum of the density over the
    interior cells unchanged, provided no density floor triggers.  This
    holds for every viscosity (zero included) and with the GLM damping
    rate of the code; neither enters the density update. *)
Theorem C1_mass_conserved_with_flat_seam (flow : FlowField) (dt nu : R) :
  positive_state flow ->
  periodic_flow flow ->
  seam_slopes_vanish flow ->
  no_density_floor flow dt ->
  interior_sum (data (fl_rho (fst (solve_MHD flow dt nu))))
               (nx (fl_rho flow)) (ny (fl_rho flow))
  = interior_sum (data (fl_rho flow)) (nx (fl_rho flow)) (ny (fl_rho flow)).
Proof.
  intros [Hv _] Hp Hs Hfl. rewrite solve_MHD_state.
  rewrite (mass_balance flow (dt_used flow dt) nu Hv Hfl).
  rewrite (sum_over_ext _ _ (fun _ => 0)).
  2:{ intros j Hj. apply in_range in Hj.
      rewrite (seam_flux_x flow Hv Hp Hs j Hj). ring. }
  rewrite (sum_over_ext (range 1 (nx (fl_rho flow) - 1)) _ (fun _ => 0)).
  2:{ intros i Hi. apply in_range in Hi.
      rewrite (seam_flux_y flow Hv Hp Hs i Hi). ring. }
  rewrite !sum_over_zero. ring.
Qed.

(** The state [hump_flow]: three interior columns, mass leaves the middle
    one and enters its two neighbours (lemma [hump_rho_after]). *)
Lemma C1_witness :
  (positive_state hump_flow /\ periodic_flow hump_flow /\
   seam_slopes_vanish hump_flow /\ no_density_floor hump_flow 0.01) /\
  interior_sum (data (fl_rho (fst (solve_MHD hump_flow 0.01 0))))
               (nx (fl_rho hump_flow)) (ny (fl_rho hump_flow))
  = interior_sum (data (fl_rho hump_flow))
                 (nx (fl_rho hump_flow)) (ny (fl_rho hump_flow)).
Proof.
  split; [exact (conj hump_flow_positive
                   (conj hump_flow_periodic
                      (conj hump_seam_slopes hump_no_floor)))|].
  exact (C1_mass_conserved_with_flat_seam
           hump_flow 0.01 0 hump_flow_positive hump_flow_periodic
           hump_seam_slopes hump_no_floor).
Defined.

(* ================================================================== *)
(** * The minmod limiter *)

Lemma Rabs_eq_same_sign (a b : R) : 0 < a * b -> Rabs a = Rabs b -> a = b.
Proof.
  intros Hab He. unfold Rabs in He.
  destruct (Rcase_abs a), (Rcase_abs b); nra.
Qed.

Lemma minmod_opp (a b : R) : minmod (- a) (- b) = - minmod a b.
Proof.
  unfold minmod. rewrite !Rabs_Ropp.
  replace (- a * - b) with (a * b) by ring.
  destruct (Rle_dec (a * b) 0); [ring|].
  destruct (Rlt_dec (Rabs a) (Rabs b)); reflexivity.
Qed.

Lemma minmod_abs_le (a b : R) :
  Rabs (minmod a b) <= Rabs a /\ Rabs (minmod a b) <= Rabs b.
Proof.
  unfold minmod. destruct (Rle_dec (a * b) 0).
  - rewrite Rabs_R0. split; apply Rabs_pos.
  - destruct (Rlt_dec (Rabs a) (Rabs b)); split; lra.
Qed.

Lemma minmod_sign (a b : R) : 0 <= a * minmod a b /\ 0 <= b * minmod a b.
Proof.
  unfold minmod. destruct (Rle_dec (a * b) 0).
  - split; lra.
  - destruct (Rlt_dec (Rabs a) (Rabs b)); split; nra.
Qed.

Lemma minmod_comm (a b : R) : minmod a b = minmod b a.
Proof.
  unfold minmod. rewrite (Rmult_comm b a).
  destruct (Rle_dec (a * b) 0) as [H|H]; [reflexivity|].
  destruct (Rlt_dec (Rabs a) (Rabs b)) as [H1|H1];
    destruct (Rlt_dec (Rabs b) (Rabs a)) as [H2|H2]; try reflexivity.
  - lra.
  - symmetry. apply Rabs_eq_same_sign; lra.
Qed.

(** X1.  The limiter does not depend on the order of its two arguments,
    [minmod a b = minmod b a], and it is odd: changing the sign of both
    arguments changes the sign of the result,
    [minmod (-a) (-b) = - minmod a b]. *)
Theorem X1_minmod_symmetric_odd (a b : R) :
  minmod a b = minmod b a /\ minmod (- a) (- b) = - minmod a b.
Proof.
  split; [apply minmod_comm|apply minmod_opp].
Qed.

(** X2.  The limited slope is never larger in magnitude than either of its
    arguments and never has the opposite sign of either of them. *)
Theorem X2_minmod_bounded_by_arguments (a b : R) :
  Rabs (minmod a b) <= Rmin (Rabs a) (Rabs b) /\
  0 <= a * minmod a b /\ 0 <= b * minmod a b.
Proof.
  destruct (minmod_abs_le a b) as [H1 H2].
  destruct (minmod_sign a b) as [H3 H4].
  split; [|split; assumption].
  apply Rmin_glb; assumption.
Qed.

(** ** Reconstructed face values *)

(** With the slope [s = minmod (c - l) (r - c)], the two face values
    [c + s/2] and [c - s/2] lie between the cell and its neighbour. *)
Lemma minmod_face (l c r : R) :
  let s := minmod (c - l) (r - c) in
  (Rmin c r <= c + 0.5 * s <= Rmax c r) /\
  (Rmin l c <= c - 0.5 * s <= Rmax l c).
Proof.
  intros s.
  destruct (minmod_abs_le (c - l) (r - c)) as [H1 H2].
  destruct (minmod_sign (c - l) (r - c)) as [H3 H4].
  fold s in H1, H2, H3, H4.
  unfold Rmin, Rmax.
  destruct (Rle_dec c r), (Rle_dec l c); unfold Rabs in H1, H2;
    destruct (Rcase_abs s), (Rcase_abs (c - l)), (Rcase_abs (r - c));
    split; split; nra.
Qed.

Lemma zero_face (c x y : R) :
  Rmin c x <= c + 0.5 * 0 <= Rmax c x /\ Rmin y c <= c - 0.5 * 0 <= Rmax y c.
Proof.
  unfold Rmin, Rmax. destruct (Rle_dec c x), (Rle_dec y c); split; lra.
Qed.

Lemma slopes_x_faces (flow : FlowField) (k : ssel) (i j : Z) :
  valid_flow flow ->
  let c := get2 (fproj (ssrc k) flow) in
  let s := get2 (sproj k (compute_slopes_x flow)) i j in
  (Rmin (c i j) (c (i + 1)%Z j) <= c i j + 0.5 * s
   <= Rmax (c i j) (c (i + 1)%Z j)) /\
  (Rmin (c (i - 1)%Z j) (c i j) <= c i j - 0.5 * s
   <= Rmax (c (i - 1)%Z j) (c i j)).
Proof.
  intros (Hn & Hm & Hd) c s. unfold s.
  rewrite slopes_x_cell by assumption.
  destruct ((1 <=? i) && (i <? nx (fl_rho flow) - 1) && (0 <=? j)
            && (j <? ny (fl_rho flow)))%Z.
  - apply minmod_face.
  - apply zero_face.
Qed.

Lemma slopes_y_faces (flow : FlowField) (k : ssel) (i j : Z) :
  valid_flow flow ->
  let c := get2 (fproj (ssrc k) flow) in
  let s := get2 (sproj k (compute_slopes_y flow)) i j in
  (Rmin (c i j) (c i (j + 1)%Z) <= c i j + 0.5 * s
   <= Rmax (c i j) (c i (j + 1)%Z)) /\
  (Rmin (c i (j - 1)%Z) (c i j) <= c i j - 0.5 * s
   <= Rmax (c i (j - 1)%Z) (c i j)).
Proof.
  intros (Hn & Hm & Hd) c s. unfold s.
  rewrite slopes_y_cell by assumption.
  destruct ((0 <=? i) && (i <? nx (fl_rho flow)) && (1 <=? j)
            && (j <? ny (fl_rho flow) - 1))%Z.
  - apply minmod_face.
  - apply zero_face.
Qed.

(** X3.  The reconstruction creates no new extremum: in every field and at
    every cell, the two face values obtained from the limited slope of
    either axis lie between the cell value and the value of the neighbour
    across that face. *)
Theorem X3_face_values_between_neighbours
        (flow : FlowField) (k : ssel) (i j : Z) :
  valid_flow flow ->
  let c := get2 (fproj (ssrc k) flow) in
  let sx := get2 (sproj k (compute_slopes_x flow)) i j in
  let sy := get2 (sproj k (compute_slopes_y flow)) i j in
  (Rmin (c i j) (c (i + 1)%Z j) <= c i j + 0.5 * sx
   <= Rmax (c i j) (c (i + 1)%Z j)) /\
  (Rmin (c (i - 1)%Z j) (c i j) <= c i j - 0.5 * sx
   <= Rmax (c (i - 1)%Z j) (c i j)) /\
  (Rmin (c i j) (c i (j + 1)%Z) <= c i j + 0.5 * sy
   <= Rmax (c i j) (c i (j + 1)%Z)) /\
  (Rmin (c i (j - 1)%Z) (c i j) <= c i j - 0.5 * sy
   <= Rmax (c i (j - 1)%Z) (c i j)).
Proof.
  intros Hv c sx sy.
  destruct (slopes_x_faces flow k i j Hv) as [H1 H2].
  destruct (slopes_y_faces flow k i j Hv) as [H3 H4].
  exact (conj H1 (conj H2 (conj H3 H4))).
Qed.

Lemma X3_witness :
  valid_flow mass_flow /\
  let flow := mass_flow in
  let c := get2 (fproj (ssrc Srho) flow) in
  let sx := get2 (sproj Srho (compute_slopes_x flow)) 1 1 in
  let sy := get2 (sproj Srho (compute_slopes_y flow)) 1 1 in
  (Rmin (c 1 1)%Z (c (1 + 1) 1)%Z <= c 1%Z 1%Z + 0.5 * sx
   <= Rmax (c 1 1)%Z (c (1 + 1) 1)%Z) /\
  (Rmin (c (1 - 1) 1)%Z (c 1 1)%Z <= c 1%Z 1%Z - 0.5 * sx
   <= Rmax (c (1 - 1) 1)%Z (c 1 1)%Z) /\
  (Rmin (c 1 1)%Z (c 1 (1 + 1))%Z <= c 1%Z 1%Z + 0.5 * sy
   <= Rmax (c 1 1)%Z (c 1 (1 + 1))%Z) /\
  (Rmin (c 1 (1 - 1))%Z (c 1 1)%Z <= c 1%Z 1%Z - 0.5 * sy
   <= Rmax (c 1 (1 - 1))%Z (c 1 1)%Z).
Proof.
  split; [exact mass_flow_valid|].
  exact (X3_face_values_between_neighbours mass_flow Srho 1 1
                                           mass_flow_valid).
Defined.

(** X4.  Positivity is kept by the reconstruction: when a field (density,
    pressure) is positive in every cell of a valid flow, so are the four
    face values reconstructed from it at every cell. *)
Theorem X4_reconstructed_values_positive
        (flow : FlowField) (k : ssel) (i j : Z) :
  let n := nx (fl_rho flow) in
  let m := ny (fl_rho flow) in
  let c := get2 (fproj (ssrc k) flow) in
  valid_flow flow ->
  (forall i' j', in_grid n m i' j' -> 0 < c i' j') ->
  in_grid n m i j ->
  0 < c i j + 0.5 * get2 (sproj k (compute_slopes_x flow)) i j /\
  0 < c i j - 0.5 * get2 (sproj k (compute_slopes_x flow)) i j /\
  0 < c i j + 0.5 * get2 (sproj k (compute_slopes_y flow)) i j /\
  0 < c i j - 0.5 * get2 (sproj k (compute_slopes_y flow)) i j.
Proof.
  intros n m c Hv Hpos Hij.
  pose proof Hv as (Hn & Hm & Hd). fold n in Hn. fold m in Hm.
  pose proof (Hpos i j Hij) as Hc.
  assert (Hmin : forall a b, 0 < a -> 0 < b -> 0 < Rmin a b).
  { intros a b Ha Hb. unfold Rmin. destruct (Rle_dec a b); assumption. }
  assert (Hx : 0 < c i j + 0.5 * get2 (sproj k (compute_slopes_x flow)) i j /\
               0 < c i j - 0.5 * get2 (sproj k (compute_slopes_x flow)) i j).
  { rewrite slopes_x_cell by assumption. fold n m.
    destruct ((1 <=? i) && (i <? n - 1) && (0 <=? j) && (j <? m))%Z eqn:E.
    - destruct (slope_range_x n m i j E) as (Ha & _ & Hb).
      destruct (minmod_face (c (i - 1)%Z j) (c i j) (c (i + 1)%Z j))
        as [[H1 _] [H2 _]].
      pose proof (Hmin _ _ Hc (Hpos _ _ Hb)).
      pose proof (Hmin _ _ (Hpos _ _ Ha) Hc).
      unfold slope_x_at. fold c. split; lra.
    - split; lra. }
  assert (Hy : 0 < c i j + 0.5 * get2 (sproj k (compute_slopes_y flow)) i j /\
               0 < c i j - 0.5 * get2 (sproj k (compute_slopes_y flow)) i j).
  { rewrite slopes_y_cell by assumption. fold n m.
    destruct ((0 <=? i) && (i <? n) && (1 <=? j) && (j <? m - 1))%Z eqn:E.
    - destruct (slope_range_y n m i j E) as (Ha & _ & Hb).
      destruct (minmod_face (c i (j - 1)%Z) (c i j) (c i (j + 1)%Z))
        as [[H1 _] [H2 _]].
      pose proof (Hmin _ _ Hc (Hpos _ _ Hb)).
      pose proof (Hmin _ _ (Hpos _ _ Ha) Hc).
      unfold slope_y_at. fold c. split; lra.
    - split; lra. }
  destruct Hx as [Hx1 Hx2]. destruct Hy as [Hy1 Hy2].
  exact (conj Hx1 (conj Hx2 (conj Hy1 Hy2))).
Qed.

Lemma X4_witness :
  (valid_flow mass_flow /\
   (forall i' j', in_grid 5 3 i' j' ->
      0 < get2 (fproj (ssrc Srho) mass_flow) i' j') /\
   in_grid 5 3 1 1) /\
  let flow := mass_flow in
  let c := get2 (fproj (ssrc Srho) flow) in
  0 < c 1%Z 1%Z + 0.5 * get2 (sproj Srho (compute_slopes_x flow)) 1 1 /\
  0 < c 1%Z 1%Z - 0.5 * get2 (sproj Srho (compute_slopes_x flow)) 1 1 /\
  0 < c 1%Z 1%Z + 0.5 * get2 (sproj Srho (compute_slopes_y flow)) 1 1 /\
  0 < c 1%Z 1%Z - 0.5 * get2 (sproj Srho (compute_slopes_y flow)) 1 1.
Proof.
  assert (Hp : forall i' j', in_grid 5 3 i' j' ->
            0 < get2 (fproj (ssrc Srho) mass_flow) i' j').
  { intros i' j' H. change (ssrc Srho) with Frho. unfold mass_flow.
    rewrite (column_get 5 3 1 mass_rho mass_p (fun _ => 0) Frho i' j' H).
    cbn [cval]. apply mass_rho_pos. }
  assert (Hg : in_grid 5 3 1 1) by (unfold in_grid; lia).
  split; [exact (conj mass_flow_valid (conj Hp Hg))|].
  exact (X4_reconstructed_values_positive
           mass_flow Srho 1 1 mass_flow_valid Hp Hg).
Defined.

(* ================================================================== *)
(** * The fast magnetosonic speed and the HLL fluxes *)

Lemma fast_speed_swap (rho p Bx By : R) :
  compute_fast_speed rho p Bx By = compute_fast_speed rho p By Bx.
Proof.
  unfold compute_fast_speed. f_equal. unfold Rdiv. ring.
Qed.

(** X5.  For a positive density and a non-negative pressure the fast speed
    is at least the sound speed and at least the Alfven speed, and its
    square is [(gamma*p + Bx^2 + By^2)/rho]. *)
Theorem X5_fast_speed_dominates_sound_and_alfven (rho p Bx By : R) :
  0 < rho -> 0 <= p ->
  sqrt (gamma_gas * p / rho) <= compute_fast_speed rho p Bx By /\
  sqrt ((Bx * Bx + By * By) / rho) <= compute_fast_speed rho p Bx By /\
  compute_fast_speed rho p Bx By * compute_fast_speed rho p Bx By
  = (gamma_gas * p + Bx * Bx + By * By) / rho.
Proof.
  intros Hr Hp. unfold compute_fast_speed.
  assert (Hi : 0 < / rho) by (apply Rinv_0_lt_compat; exact Hr).
  assert (Hg : 0 < gamma_gas) by (unfold gamma_gas; lra).
  assert (Hs : 0 <= gamma_gas * p / rho).
  { unfold Rdiv. apply Rmult_le_pos; [|lra].
    apply Rmult_le_pos; lra. }
  assert (Ha : 0 <= (Bx * Bx + By * By) / rho).
  { unfold Rdiv. apply Rmult_le_pos; [|lra]. nra. }
  split; [|split].
  - apply sqrt_le_1_alt. lra.
  - apply sqrt_le_1_alt. lra.
  - rewrite sqrt_sqrt by lra. unfold Rdiv. ring.
Qed.

Lemma X5_witness :
  (0 < 1 /\ 0 <= 0.6) /\
  sqrt (gamma_gas * 0.6 / 1) <= compute_fast_speed 1 0.6 1 0 /\
  sqrt ((1 * 1 + 0 * 0) / 1) <= compute_fast_speed 1 0.6 1 0 /\
  compute_fast_speed 1 0.6 1 0 * compute_fast_speed 1 0.6 1 0
  = (gamma_gas * 0.6 + 1 * 1 + 0 * 0) / 1.
Proof.
  assert (H1 : 0 < 1) by lra.
  assert (H2 : 0 <= 0.6) by lra.
  split; [exact (conj H1 H2)|].
  exact (X5_fast_speed_dominates_sound_and_alfven 1 0.6 1 0 H1 H2).
Defined.

Lemma hll_average_same (SL SR F U : R) :
  SR - SL <> 0 ->
  (SR * F - SL * F + SL * SR * (U - U)) / (SR - SL) = F.
Proof. intros H. field. exact H. Qed.

Lemma hll_average_same_scaled (SL SR c F U : R) :
  SR - SL <> 0 ->
  c * (SR * F - SL * F + SL * SR * (U - U)) / (SR - SL) = c * F.
Proof. intros H. field. exact H. Qed.

(** X6.  Both HLL fluxes are consistent: when the left and the right state
    coincide (positive density and pressure), the X flux is the physical
    flux of that state, whichever of the three cases applies, and the Y
    flux is the same with the two axes exchanged. *)
Theorem X6_hll_flux_consistent (rho u v p Bx By psi : R) :
  0 < rho -> 0 < p ->
  compute_hll_flux_x rho u v p Bx By psi rho u v p Bx By psi
  = physical_flux_x rho u v p Bx By psi /\
  compute_hll_flux_y rho u v p Bx By psi rho u v p Bx By psi
  = swap_xy (physical_flux_x rho v u p By Bx psi).
Proof.
  intros Hr Hp.
  pose proof (fast_speed_pos rho p Bx By Hr Hp) as Hc.
  unfold compute_hll_flux_x, compute_hll_flux_y, physical_flux_x, swap_xy.
  cbv zeta. cbn [F_rho F_momx F_momy F_E F_Bx F_By F_psi].
  remember (compute_fast_speed rho p Bx By) as cf eqn:Ecf. clear Ecf.
  assert (Hmin : forall a, Rmin (a - cf) (a - cf) = a - cf).
  { intros a. apply Rmin_left. lra. }
  assert (Hmax : forall a, Rmax (a + cf) (a + cf) = a + cf).
  { intros a. apply Rmax_left. lra. }
  rewrite !Hmin, !Hmax.
  assert (Hu : u + cf - (u - cf) <> 0) by lra.
  assert (Hw : v + cf - (v - cf) <> 0) by lra.
  split.
  - destruct (Rgt_dec (u - cf) 0); [reflexivity|].
    destruct (Rlt_dec (u + cf) 0); [reflexivity|].
    rewrite !(hll_average_same (u - cf) (u + cf)) by exact Hu.
    rewrite (hll_average_same_scaled (u - cf) (u + cf)) by exact Hu.
    reflexivity.
  - destruct (Rgt_dec (v - cf) 0); [f_equal; unfold Rdiv; ring|].
    destruct (Rlt_dec (v + cf) 0); [f_equal; unfold Rdiv; ring|].
    rewrite !(hll_average_same (v - cf) (v + cf)) by exact Hw.
    rewrite (hll_average_same_scaled (v - cf) (v + cf)) by exact Hw.
    f_equal; unfold Rdiv; ring.
Qed.

Lemma X6_witness :
  (0 < 1 /\ 0 < 0.6) /\
  compute_hll_flux_x 1 2 0 0.6 0 0 0 1 2 0 0.6 0 0 0
  = physical_flux_x 1 2 0 0.6 0 0 0 /\
  compute_hll_flux_y 1 2 0 0.6 0 0 0 1 2 0 0.6 0 0 0
  = swap_xy (physical_flux_x 1 0 2 0.6 0 0 0).
Proof.
  assert (H1 : 0 < 1) by lra.
  assert (H2 : 0 < 0.6) by lra.
  split; [exact (conj H1 H2)|].
  exact (X6_hll_flux_consistent 1 2 0 0.6 0 0 0 H1 H2).
Defined.

(** X7.  The Y flux is the X flux with the two axes exchanged: exchanging
    [u] with [v] and [Bx] with [By] in both states and then exchanging the
    momentum and field components of the result turns one into the
    other, for all inputs. *)
Theorem X7_hll_flux_y_is_rotated_x
        (rhoL uL vL pL BxL ByL psiL rhoR uR vR pR BxR ByR psiR : R) :
  compute_hll_flux_y rhoL uL vL pL BxL ByL psiL rhoR uR vR pR BxR ByR psiR
  = swap_xy (compute_hll_flux_x rhoL vL uL pL ByL BxL psiL
                                rhoR vR uR pR ByR BxR psiR).
Proof.
  unfold compute_hll_flux_y, compute_hll_flux_x. cbv zeta.
  rewrite (fast_speed_swap rhoL pL ByL BxL), (fast_speed_swap rhoR pR ByR BxR).
  remember (compute_fast_speed rhoL pL BxL ByL) as cfL eqn:EL. clear EL.
  remember (compute_fast_speed rhoR pR BxR ByR) as cfR eqn:ER. clear ER.
  remember (Rmin (vL - cfL) (vR - cfR)) as SL eqn:ESL. clear ESL.
  remember (Rmax (vL + cfL) (vR + cfR)) as SR eqn:ESR. clear ESR.
  destruct (Rgt_dec SL 0);
    [|destruct (Rlt_dec SR 0)];
    unfold swap_xy; cbn [F_rho F_momx F_momy F_E F_Bx F_By F_psi];
    f_equal; unfold Rdiv; ring.
Qed.

(* ================================================================== *)
(** * The five-point Laplacian *)

Lemma second_difference_sign (a c b h : R) :
  h <> 0 ->
  (a <= c -> b <= c -> (b - 2 * c + a) / (h * h) <= 0) /\
  (c <= a -> c <= b -> 0 <= (b - 2 * c + a) / (h * h)).
Proof.
  intros Hh.
  assert (Hp : 0 < h * h) by nra.
  assert (Hi : 0 < / (h * h)) by (apply Rinv_0_lt_compat; exact Hp).
  unfold Rdiv. split; intros H1 H2.
  - replace (b - 2 * c + a) with (- (2 * c - a - b)) by ring.
    rewrite Ropp_mult_distr_l_reverse.
    apply Ropp_le_cancel. rewrite Ropp_involutive, Ropp_0.
    apply Rmult_le_pos; lra.
  - apply Rmult_le_pos; lra.
Qed.

(** X8.  The discrete Laplacian used by the viscous and the resistive
    terms obeys the maximum principle: with non-zero spacings it is not
    positive at a cell that is no smaller than its four neighbours, not
    negative at a cell that is no larger than them, and it vanishes where
    the array is linear along both axes. *)
Theorem X8_laplacian_sign_at_extremum (g : Grid) (i j : Z) :
  let c := get2 (data g) in
  dx g <> 0 -> dy g <> 0 ->
  (c (i + 1)%Z j <= c i j -> c (i - 1)%Z j <= c i j ->
   c i (j + 1)%Z <= c i j -> c i (j - 1)%Z <= c i j ->
   laplacian g i j <= 0) /\
  (c i j <= c (i + 1)%Z j -> c i j <= c (i - 1)%Z j ->
   c i j <= c i (j + 1)%Z -> c i j <= c i (j - 1)%Z ->
   0 <= laplacian g i j) /\
  (c (i + 1)%Z j - c i j = c i j - c (i - 1)%Z j ->
   c i (j + 1)%Z - c i j = c i j - c i (j - 1)%Z ->
   laplacian g i j = 0).
Proof.
  intros c Hx Hy. unfold laplacian. fold c.
  destruct (second_difference_sign (c (i - 1)%Z j) (c i j) (c (i + 1)%Z j)
                                   (dx g) Hx) as [X1 X2].
  destruct (second_difference_sign (c i (j - 1)%Z) (c i j) (c i (j + 1)%Z)
                                   (dy g) Hy) as [Y1 Y2].
  split; [|split].
  - intros H1 H2 H3 H4.
    pose proof (X1 H2 H1). pose proof (Y1 H4 H3). lra.
  - intros H1 H2 H3 H4.
    pose proof (X2 H2 H1). pose proof (Y2 H4 H3). lra.
  - intros H1 H2.
    replace (c (i + 1)%Z j - 2 * c i j + c (i - 1)%Z j) with 0 by lra.
    replace (c i (j + 1)%Z - 2 * c i j + c i (j - 1)%Z) with 0 by lra.
    unfold Rdiv. ring.
Qed.

Lemma X8_witness :
  (dx (const_grid 3 3 0.1 1) <> 0 /\ dy (const_grid 3 3 0.1 1) <> 0) /\
  let g := const_grid 3 3 0.1 1 in
  let c := get2 (data g) in
  (c (1 + 1)%Z 1%Z <= c 1%Z 1%Z -> c (1 - 1)%Z 1%Z <= c 1%Z 1%Z ->
   c 1%Z (1 + 1)%Z <= c 1%Z 1%Z -> c 1%Z (1 - 1)%Z <= c 1%Z 1%Z ->
   laplacian g 1 1 <= 0) /\
  (c 1%Z 1%Z <= c (1 + 1)%Z 1%Z -> c 1%Z 1%Z <= c (1 - 1)%Z 1%Z ->
   c 1%Z 1%Z <= c 1%Z (1 + 1)%Z -> c 1%Z 1%Z <= c 1%Z (1 - 1)%Z ->
   0 <= laplacian g 1 1) /\
  (c (1 + 1)%Z 1%Z - c 1%Z 1%Z = c 1%Z 1%Z - c (1 - 1)%Z 1%Z ->
   c 1%Z (1 + 1)%Z - c 1%Z 1%Z = c 1%Z 1%Z - c 1%Z (1 - 1)%Z ->
   laplacian g 1 1 = 0).
Proof.
  assert (H1 : dx (const_grid 3 3 0.1 1) <> 0) by (simpl; lra).
  assert (H2 : dy (const_grid 3 3 0.1 1) <> 0) by (simpl; lra).
  split; [exact (conj H1 H2)|].
  exact (X8_laplacian_sign_at_extremum (const_grid 3 3 0.1 1) 1 1 H1 H2).
Defined.

(* ================================================================== *)
(** * Bounds on the CFL timestep *)

Lemma cfl_loop_spec (flow : FlowField) :
  let n := nx (fl_rho flow) in
  let m := ny (fl_rho flow) in
  let r := for_loop2 1 (n - 1) 1 (m - 1)
                     (fun i j dt_min => Rmin dt_min (cell_dt flow i j)) 1e10 in
  r <= 1e10 /\
  (forall i j, interior n m i j -> r <= cell_dt flow i j) /\
  (r = 1e10 \/ exists i j, interior n m i j /\ r = cell_dt flow i j).
Proof.
  intros n m r. unfold r. rewrite for_loop2_idx2.
  pose proof (fold_Rmin_spec (fun ij => cell_dt flow (fst ij) (snd ij))
                (idx2 1 (n - 1) 1 (m - 1)) 1e10) as H.
  cbv zeta in H. destruct H as (H1 & H2 & H3).
  split; [exact H1|]. split.
  - intros i j Hij. apply (H2 (i, j)). apply in_idx2. exact Hij.
  - destruct H3 as [H3|[[i j] [Hin H3]]]; [now left|right].
    exists i, j. split; [now apply in_idx2 in Hin|exact H3].
Qed.

Lemma cell_dt_pos (flow : FlowField) (i j : Z) :
  0 < dx (fl_rho flow) -> 0 < dy (fl_rho flow) ->
  0 < get2 (data (fl_rho flow)) i j -> 0 < get2 (data (fl_p flow)) i j ->
  0 < cell_dt flow i j.
Proof.
  intros Hx Hy Hr Hp. unfold cell_dt. cbv zeta.
  set (cf := compute_fast_speed _ _ _ _).
  assert (Hcf : 0 < cf) by (apply fast_speed_pos; assumption).
  pose proof (Rabs_pos (get2 (data (fl_u flow)) i j)).
  pose proof (Rabs_pos (get2 (data (fl_v flow)) i j)).
  assert (0 < dx (fl_rho flow) / (Rabs (get2 (data (fl_u flow)) i j) + cf))
    by (apply Rdiv_lt_0_compat; lra).
  assert (0 < dy (fl_rho flow) / (Rabs (get2 (data (fl_v flow)) i j) + cf))
    by (apply Rdiv_lt_0_compat; lra).
  unfold Rmin. destruct (Rle_dec _ _); assumption.
Qed.

(** The candidate timestep of a cell of a uniform state at rest with
    [rho = 1], [p = 0.6] (fast speed 1) is the grid spacing. *)
Lemma rest_cell_dt (n m : nat) (h : R) (i j : Z) :
  in_grid (Z.of_nat n) (Z.of_nat m) i j ->
  cell_dt (rest_flow n m h 1 0.6 0 0) i j = h.
Proof.
  intros Hij. unfold cell_dt. cbv zeta.
  rewrite (rest_flow_uniform n m h 1 0.6 0 0 Frho i j Hij
           : get2 (data (fl_rho (rest_flow n m h 1 0.6 0 0))) i j = _).
  rewrite (rest_flow_uniform n m h 1 0.6 0 0 Fu i j Hij
           : get2 (data (fl_u (rest_flow n m h 1 0.6 0 0))) i j = _).
  rewrite (rest_flow_uniform n m h 1 0.6 0 0 Fv i j Hij
           : get2 (data (fl_v (rest_flow n m h 1 0.6 0 0))) i j = _).
  rewrite (rest_flow_uniform n m h 1 0.6 0 0 Fp i j Hij
           : get2 (data (fl_p (rest_flow n m h 1 0.6 0 0))) i j = _).
  rewrite (rest_flow_uniform n m h 1 0.6 0 0 Fbx i j Hij
           : get2 (data (fl_bx (rest_flow n m h 1 0.6 0 0))) i j = _).
  rewrite (rest_flow_uniform n m h 1 0.6 0 0 Fby i j Hij
           : get2 (data (fl_by (rest_flow n m h 1 0.6 0 0))) i j = _).
  cbn [uval]. rewrite fast_speed_unit, Rabs_R0.
  change (dx (fl_rho (rest_flow n m h 1 0.6 0 0))) with h.
  change (dy (fl_rho (rest_flow n m h 1 0.6 0 0))) with h.
  replace (h / (0 + 1)) with h by (unfold Rdiv; rewrite Rplus_0_l, Rinv_1; ring).
  apply Rmin_left. lra.
Qed.

(** X9.  For a state with positive density and pressure in the interior
    cells and a non-negative CFL number, the returned timestep never
    exceeds [cfl_number * min(dx,dy)/CH]; and as soon as one interior cell
    has a candidate timestep of at most [1.0], it is at most [cfl_number]
    times the candidate timestep of every interior cell. *)
Theorem X9_cfl_timestep_upper_bounds (flow : FlowField) (cfl_number : R) :
  let n := nx (fl_rho flow) in
  let m := ny (fl_rho flow) in
  (forall i j, interior n m i j ->
     0 < get2 (data (fl_rho flow)) i j /\ 0 < get2 (data (fl_p flow)) i j) ->
  0 <= cfl_number ->
  compute_cfl_timestep flow cfl_number
  <= cfl_number * (Rmin (dx (fl_rho flow)) (dy (fl_rho flow)) / CH) /\
  ((exists i j, interior n m i j /\ cell_dt flow i j <= 1) ->
   forall i j, interior n m i j ->
     compute_cfl_timestep flow cfl_number <= cfl_number * cell_dt flow i j).
Proof.
  intros n m _ Hc. unfold compute_cfl_timestep. cbv zeta.
  destruct (cfl_loop_spec flow) as (H1 & H2 & _). fold n m in H1, H2.
  fold n m.
  set (r := for_loop2 1 (n - 1) 1 (m - 1) _ 1e10) in *. clearbody r.
  remember (Rmin (dx (fl_rho flow)) (dy (fl_rho flow)) / CH) as glm eqn:Eg.
  clear Eg. split.
  - apply Rmult_le_compat_l; [exact Hc|]. apply Rmin_r.
  - intros (i0 & j0 & Hint0 & Hle) i j Hint.
    pose proof (H2 i0 j0 Hint0). pose proof (H2 i j Hint).
    destruct (Rgt_dec r 1) as [Hgt|_]; [lra|].
    apply Rmult_le_compat_l; [exact Hc|].
    pose proof (Rmin_l r glm). lra.
Qed.

(** The state [hot_flow], whose three interior cells have the candidates
    [1], [0.5] and [1]. *)
Lemma X9_witness :
  ((forall i j, interior (nx (fl_rho hot_flow)) (ny (fl_rho hot_flow)) i j ->
      0 < get2 (data (fl_rho hot_flow)) i j /\
      0 < get2 (data (fl_p hot_flow)) i j) /\
   0 <= 0.2) /\
  let flow := hot_flow in
  let n := nx (fl_rho flow) in
  let m := ny (fl_rho flow) in
  compute_cfl_timestep flow 0.2
  <= 0.2 * (Rmin (dx (fl_rho flow)) (dy (fl_rho flow)) / CH) /\
  ((exists i j, interior n m i j /\ cell_dt flow i j <= 1) ->
   forall i j, interior n m i j ->
     compute_cfl_timestep flow 0.2 <= 0.2 * cell_dt flow i j).
Proof.
  assert (H : 0 <= 0.2) by lra.
  split; [exact (conj hot_interior_positive H)|].
  exact (X9_cfl_timestep_upper_bounds hot_flow 0.2 hot_interior_positive H).
Defined.

(** X10.  The guard on large timesteps: for a state with positive
    density and pressure in the interior cells, when the candidate timestep
    of every interior cell exceeds [1.0], the function returns
    [cfl_number * min(dx,dy)/CH]; this exceeds [cfl_number] times the
    candidate of any interior cell whose candidate is below
    [min(dx,dy)/CH]. *)
Theorem X10_cfl_guard_replaces_large_minimum
        (flow : FlowField) (cfl_number : R) :
  let n := nx (fl_rho flow) in
  let m := ny (fl_rho flow) in
  let glm := Rmin (dx (fl_rho flow)) (dy (fl_rho flow)) / CH in
  (forall i j, interior n m i j ->
     0 < get2 (data (fl_rho flow)) i j /\ 0 < get2 (data (fl_p flow)) i j) ->
  (forall i j, interior n m i j -> 1 < cell_dt flow i j) ->
  compute_cfl_timestep flow cfl_number = cfl_number * glm /\
  (0 < cfl_number ->
   forall i j, interior n m i j -> cell_dt flow i j < glm ->
     cfl_number * cell_dt flow i j < compute_cfl_timestep flow cfl_number).
Proof.
  intros n m glm _ Hbig.
  assert (E : compute_cfl_timestep flow cfl_number = cfl_number * glm).
  { unfold compute_cfl_timestep. cbv zeta.
    destruct (cfl_loop_spec flow) as (_ & _ & H3). fold n m in H3.
    fold n m. fold glm.
    set (r := for_loop2 1 (n - 1) 1 (m - 1) _ 1e10) in *. clearbody r.
    assert (Hr : r > 1).
    { destruct H3 as [->|(i & j & Hint & ->)]; [lra|].
      apply Rlt_gt. now apply Hbig. }
    destruct (Rgt_dec r 1) as [_|Hn]; [|contradiction].
    rewrite Rmin_left by lra. reflexivity. }
  split; [exact E|].
  intros Hc i j Hint Hlt. rewrite E.
  apply Rmult_lt_compat_l; assumption.
Qed.

(** A uniform state at rest on a 5 by 5 grid of spacing [10]: the fast
    speed is [1] and every candidate is [10]. *)
Lemma X10_witness :
  ((forall i j, interior 5 5 i j ->
      0 < get2 (data (fl_rho (rest_flow 5 5 10 1 0.6 0 0))) i j /\
      0 < get2 (data (fl_p (rest_flow 5 5 10 1 0.6 0 0))) i j) /\
   (forall i j, interior 5 5 i j ->
      1 < cell_dt (rest_flow 5 5 10 1 0.6 0 0) i j)) /\
  let flow := rest_flow 5 5 10 1 0.6 0 0 in
  let glm := Rmin (dx (fl_rho flow)) (dy (fl_rho flow)) / CH in
  compute_cfl_timestep flow 0.2 = 0.2 * glm /\
  (0 < 0.2 ->
   forall i j, interior 5 5 i j -> cell_dt flow i j < glm ->
     0.2 * cell_dt flow i j < compute_cfl_timestep flow 0.2).
Proof.
  assert (Hp : forall i j, interior 5 5 i j ->
      0 < get2 (data (fl_rho (rest_flow 5 5 10 1 0.6 0 0))) i j /\
      0 < get2 (data (fl_p (rest_flow 5 5 10 1 0.6 0 0))) i j).
  { intros i j Hint.
    destruct (rest_positive_state 5 5 10 1 0.6 0 0) as (_ & _ & _ & H);
      try lia; try lra.
    apply H. exact (interior_in_grid 5 5 i j Hint). }
  assert (H : forall i j, interior 5 5 i j ->
            1 < cell_dt (rest_flow 5 5 10 1 0.6 0 0) i j).
  { intros i j Hint.
    rewrite (rest_cell_dt 5 5 10 i j (interior_in_grid 5 5 i j Hint)). lra. }
  split; [exact (conj Hp H)|].
  exact (X10_cfl_guard_replaces_large_minimum
           (rest_flow 5 5 10 1 0.6 0 0) 0.2 Hp H).
Defined.

(** X11.  With positive spacings and a positive CFL number, a state whose
    density and pressure are positive in the interior cells gets a
    positive timestep, and [solve_MHD] then advances by a positive time
    that does not exceed the caller's [dt]. *)
Theorem X11_timestep_positive (flow : FlowField) (cfl_number dt : R) :
  let n := nx (fl_rho flow) in
  let m := ny (fl_rho flow) in
  0 < cfl_number -> 0 < dx (fl_rho flow) -> 0 < dy (fl_rho flow) ->
  (forall i j, interior n m i j ->
     0 < get2 (data (fl_rho flow)) i j /\ 0 < get2 (data (fl_p flow)) i j) ->
  0 < dt ->
  0 < compute_cfl_timestep flow cfl_number /\
  0 < dt_used flow dt <= dt.
Proof.
  intros n m Hc Hx Hy Hpos Hdt.
  assert (Hcell : forall i j, interior n m i j -> 0 < cell_dt flow i j).
  { intros i j Hint. destruct (Hpos i j Hint).
    apply cell_dt_pos; assumption. }
  split.
  - apply cfl_timestep_pos; assumption.
  - apply dt_used_bounds; [exact Hdt|].
    apply cfl_timestep_pos; try assumption.
    unfold default_cfl_number. lra.
Qed.

Lemma X11_witness :
  (0 < 0.2 /\ 0 < dx (fl_rho (rest_flow 3 3 0.1 1 1 0 0)) /\
   0 < dy (fl_rho (rest_flow 3 3 0.1 1 1 0 0)) /\
   (forall i j, interior 3 3 i j ->
      0 < get2 (data (fl_rho (rest_flow 3 3 0.1 1 1 0 0))) i j /\
      0 < get2 (data (fl_p (rest_flow 3 3 0.1 1 1 0 0))) i j) /\
   0 < 1) /\
  0 < compute_cfl_timestep (rest_flow 3 3 0.1 1 1 0 0) 0.2 /\
  0 < dt_used (rest_flow 3 3 0.1 1 1 0 0) 1 <= 1.
Proof.
  assert (H1 : 0 < 0.2) by lra.
  assert (H2 : 0 < dx (fl_rho (rest_flow 3 3 0.1 1 1 0 0))) by (simpl; lra).
  assert (H3 : 0 < dy (fl_rho (rest_flow 3 3 0.1 1 1 0 0))) by (simpl; lra).
  assert (H4 : forall i j, interior 3 3 i j ->
      0 < get2 (data (fl_rho (rest_flow 3 3 0.1 1 1 0 0))) i j /\
      0 < get2 (data (fl_p (rest_flow 3 3 0.1 1 1 0 0))) i j).
  { intros i j Hint. apply interior_in_grid in Hint.
    rewrite (rest_flow_uniform 3 3 0.1 1 1 0 0 Frho i j Hint
             : get2 (data (fl_rho (rest_flow 3 3 0.1 1 1 0 0))) i j = _).
    rewrite (rest_flow_uniform 3 3 0.1 1 1 0 0 Fp i j Hint
             : get2 (data (fl_p (rest_flow 3 3 0.1 1 1 0 0))) i j = _).
    simpl. lra. }
  assert (H5 : 0 < 1) by lra.
  split; [exact (conj H1 (conj H2 (conj H3 (conj H4 H5))))|].
  exact (X11_timestep_positive (rest_flow 3 3 0.1 1 1 0 0) 0.2 1
                               H1 H2 H3 H4 H5).
Defined.

(* ================================================================== *)
(** * The divergence diagnostics *)

Lemma idx2_length (ilo ihi jlo jhi : Z) :
  List.length (idx2 ilo ihi jlo jhi)
  = (Z.to_nat (ihi - ilo) * Z.to_nat (jhi - jlo))%nat.
Proof.
  unfold idx2, range.
  generalize (Z.to_nat (ihi - ilo)) as a. intros a. revert ilo.
  induction a as [|a IH]; intros ilo; simpl; [reflexivity|].
  rewrite length_app, length_map, range_from_length, IH. reflexivity.
Qed.

Lemma sum_pairs_bounds (l : list (Z * Z)) (f : Z -> Z -> R) (M : R) :
  (forall i j, In (i, j) l -> 0 <= f i j <= M) ->
  0 <= sum_pairs l f <= INR (List.length l) * M.
Proof.
  induction l as [|[i j] l IH]; intros H.
  - simpl. lra.
  - change (sum_pairs ((i, j) :: l) f) with (f i j + sum_pairs l f).
    change (List.length ((i, j) :: l)) with (S (List.length l)).
    rewrite S_INR.
    destruct (H i j (or_introl eq_refl)).
    destruct IH as [I1 I2]; [intros; apply H; now right|].
    split; lra.
Qed.

Lemma sum_pairs_zero (l : list (Z * Z)) (f : Z -> Z -> R) :
  (forall i j, In (i, j) l -> f i j = 0) -> sum_pairs l f = 0.
Proof.
  induction l as [|[i j] l IH]; intros H; [reflexivity|].
  change (sum_pairs ((i, j) :: l) f) with (f i j + sum_pairs l f).
  rewrite (H i j (or_introl eq_refl)), IH; [lra|].
  intros; apply H; now right.
Qed.

Lemma divergence_fold (flow : FlowField) (l : list (Z * Z)) (a0 : DivAcc) :
  let r := fold_left (fun acc ij => divergence_body flow (fst ij) (snd ij) acc)
                     l a0 in
  let f := fun i j => Rabs (divB_at flow i j) in
  count r = (count a0 + Z.of_nat (List.length l))%Z /\
  L1_divB r = L1_divB a0 + sum_pairs l f /\
  max_divB a0 <= max_divB r /\
  (forall i j, In (i, j) l -> f i j <= max_divB r) /\
  (max_divB r = max_divB a0 \/
   exists i j, In (i, j) l /\ max_divB r = f i j).
Proof.
  revert a0. induction l as [|[i j] l IH]; intros a0; cbv zeta.
  - simpl. split; [lia|]. split; [lra|]. split; [lra|].
    split; [intros i j []|now left].
  - change (fold_left _ ((i, j) :: l) a0)
      with (fold_left
              (fun acc ij => divergence_body flow (fst ij) (snd ij) acc)
              l (divergence_body flow i j a0)).
    specialize (IH (divergence_body flow i j a0)). cbv zeta in IH.
    destruct IH as (I1 & I2 & I3 & I4 & I5).
    remember (fold_left _ l _) as r eqn:Er. clear Er.
    unfold divergence_body in I1, I2, I3, I5.
    cbn [count L1_divB max_divB] in I1, I2, I3, I5.
    change (sum_pairs ((i, j) :: l) (fun i j => Rabs (divB_at flow i j)))
      with (Rabs (divB_at flow i j)
            + sum_pairs l (fun i j => Rabs (divB_at flow i j))).
    pose proof (Rmax_l (max_divB a0) (Rabs (divB_at flow i j))) as Ml.
    pose proof (Rmax_r (max_divB a0) (Rabs (divB_at flow i j))) as Mr.
    split; [|split; [|split; [|split]]].
    + rewrite I1. change (List.length ((i, j) :: l)) with (S (List.length l)).
      lia.
    + rewrite I2. lra.
    + lra.
    + intros i' j' [E|Hin].
      * inversion E; subst. lra.
      * now apply I4.
    + destruct I5 as [I5|(i' & j' & Hin & I5)].
      * rewrite I5. unfold Rmax. destruct (Rle_dec _ _).
        -- right. exists i, j. split; [now left|reflexivity].
        -- now left.
      * right. exists i', j'. split; [now right|exact I5].
Qed.

Lemma divergence_errors_spec (flow : FlowField) :
  let n := nx (fl_bx flow) in
  let m := ny (fl_bx flow) in
  let l := idx2 1 (n - 1) 1 (m - 1) in
  let f := fun i j => Rabs (divB_at flow i j) in
  let mx := fst (compute_divergence_errors flow) in
  snd (compute_divergence_errors flow)
  = sum_pairs l f / IZR (Z.of_nat (List.length l)) /\
  0 <= mx /\
  (forall i j, interior n m i j -> f i j <= mx) /\
  (mx = 0 \/ exists i j, interior n m i j /\ mx = f i j).
Proof.
  intros n m l f mx. unfold mx, compute_divergence_errors. cbv zeta.
  fold n m. rewrite for_loop2_idx2. fold l.
  destruct (divergence_fold flow l (mkDivAcc 0 0 0))
    as (I1 & I2 & I3 & I4 & I5).
  remember (fold_left _ l _) as r eqn:Er. clear Er.
  cbn [count L1_divB max_divB] in I1, I2, I3, I5. cbn [fst snd].
  split; [|split; [|split]].
  - rewrite I1, I2, Rplus_0_l. reflexivity.
  - exact I3.
  - intros i j Hint. apply I4. apply in_idx2. exact Hint.
  - destruct I5 as [I5|(i & j & Hin & I5)]; [now left|right].
    exists i, j. split; [now apply in_idx2 in Hin|exact I5].
Qed.

Lemma divergence_zero (flow : FlowField) :
  (forall i j, interior (nx (fl_bx flow)) (ny (fl_bx flow)) i j ->
               divB_at flow i j = 0) ->
  compute_divergence_errors flow = (0, 0).
Proof.
  intros Hz.
  destruct (divergence_errors_spec flow) as (H1 & _ & _ & H4).
  rewrite (surjective_pairing (compute_divergence_errors flow)).
  f_equal.
  - destruct H4 as [H4|(i & j & Hint & H4)]; [exact H4|].
    rewrite H4, (Hz i j Hint). apply Rabs_R0.
  - rewrite H1, sum_pairs_zero; [unfold Rdiv; ring|].
    intros i j Hin. apply in_idx2 in Hin. rewrite (Hz i j Hin).
    apply Rabs_R0.
Qed.

(** X12.  The first value returned by [compute_divergence_errors] is the
    largest absolute centered divergence of the interior cells: it is
    never negative, it bounds the divergence of every interior cell and it
    is attained at one of them unless it is zero.  It is zero exactly when
    the centered divergence vanishes in every interior cell, and on a grid
    of at least 3 by 3 cells the pair returned is then [(0, 0)]. *)
Theorem X12_divergence_max_is_largest (flow : FlowField) :
  let n := nx (fl_bx flow) in
  let m := ny (fl_bx flow) in
  let mx := fst (compute_divergence_errors flow) in
  0 <= mx /\
  (forall i j, interior n m i j -> Rabs (divB_at flow i j) <= mx) /\
  (mx = 0 \/ exists i j, interior n m i j /\ mx = Rabs (divB_at flow i j)) /\
  (mx = 0 <-> forall i j, interior n m i j -> divB_at flow i j = 0) /\
  ((3 <= n)%Z -> (3 <= m)%Z ->
   (forall i j, interior n m i j -> divB_at flow i j = 0) ->
   compute_divergence_errors flow = (0, 0)).
Proof.
  intros n m mx.
  destruct (divergence_errors_spec flow) as (_ & H2 & H3 & H4).
  fold n m mx in H2, H3, H4. cbv beta in H3.
  split; [exact H2|]. split; [exact H3|]. split; [exact H4|].
  split; [split|].
  - intros H0 i j Hint.
    pose proof (H3 i j Hint) as Hle. rewrite H0 in Hle.
    pose proof (Rabs_pos (divB_at flow i j)).
    destruct (Req_dec (divB_at flow i j) 0) as [E|E]; [exact E|].
    apply Rabs_pos_lt in E. lra.
  - intros Hz. unfold mx. now rewrite (divergence_zero flow Hz).
  - intros _ _. apply divergence_zero.
Qed.

(** X13.  On a grid of at least 3 by 3 cells the second value is the sum
    of the absolute divergences of the interior cells divided by their
    number [(nx-2)*(ny-2)]; it lies between zero and the first value. *)
Theorem X13_divergence_mean_between_zero_and_max (flow : FlowField) :
  let n := nx (fl_bx flow) in
  let m := ny (fl_bx flow) in
  (3 <= n)%Z -> (3 <= m)%Z ->
  snd (compute_divergence_errors flow)
  = sum_pairs (idx2 1 (n - 1) 1 (m - 1))
              (fun i j => Rabs (divB_at flow i j))
    / IZR ((n - 2) * (m - 2)) /\
  0 <= snd (compute_divergence_errors flow)
    <= fst (compute_divergence_errors flow).
Proof.
  intros n m Hn Hm.
  destruct (divergence_errors_spec flow) as (H1 & H2 & H3 & _).
  fold n m in H1, H3.
  set (l := idx2 1 (n - 1) 1 (m - 1)) in *.
  set (f := fun i j => Rabs (divB_at flow i j)) in *.
  assert (Hlen : Z.of_nat (List.length l) = ((n - 2) * (m - 2))%Z).
  { unfold l. rewrite idx2_length, Nat2Z.inj_mul, !Z2Nat.id by lia. lia. }
  assert (Hpos : 0 < IZR (Z.of_nat (List.length l))).
  { rewrite Hlen. apply IZR_lt. nia. }
  destruct (sum_pairs_bounds l f (fst (compute_divergence_errors flow)))
    as [S1 S2].
  { intros i j Hin. split; [apply Rabs_pos|].
    apply H3. now apply in_idx2 in Hin. }
  rewrite INR_IZR_INZ in S2.
  rewrite <- Hlen. split; [exact H1|]. rewrite H1.
  remember (IZR (Z.of_nat (List.length l))) as C eqn:EC. clear EC.
  remember (sum_pairs l f) as S eqn:ES. clear ES.
  remember (fst (compute_divergence_errors flow)) as M eqn:EM. clear EM.
  assert (Hi : 0 < / C) by (apply Rinv_0_lt_compat; exact Hpos).
  assert (E : S / C * C = S) by (field; lra).
  split.
  - unfold Rdiv. apply Rmult_le_pos; lra.
  - apply (Rmult_le_reg_r C); [exact Hpos|]. rewrite E. lra.
Qed.

Lemma X13_witness :
  ((3 <= nx (fl_bx (rest_flow 3 3 0.1 1 1 0 0)))%Z /\
   (3 <= ny (fl_bx (rest_flow 3 3 0.1 1 1 0 0)))%Z) /\
  let flow := rest_flow 3 3 0.1 1 1 0 0 in
  let n := nx (fl_bx flow) in
  let m := ny (fl_bx flow) in
  snd (compute_divergence_errors flow)
  = sum_pairs (idx2 1 (n - 1) 1 (m - 1))
              (fun i j => Rabs (divB_at flow i j))
    / IZR ((n - 2) * (m - 2)) /\
  0 <= snd (compute_divergence_errors flow)
    <= fst (compute_divergence_errors flow).
Proof.
  assert (H1 : (3 <= nx (fl_bx (rest_flow 3 3 0.1 1 1 0 0)))%Z)
    by (simpl; lia).
  assert (H2 : (3 <= ny (fl_bx (rest_flow 3 3 0.1 1 1 0 0)))%Z)
    by (simpl; lia).
  split; [exact (conj H1 H2)|].
  exact (X13_divergence_mean_between_zero_and_max
           (rest_flow 3 3 0.1 1 1 0 0) H1 H2).
Defined.


(* ================================================================== *)
(** * Filling and constructing grids *)

Lemma fill_loop_cells (a : matrix) (n m : Z) (x : R) :
  dims a n m ->
  dims (for_loop2 0 n 0 m (fun i j a => set2 a i j x) a) n m /\
  forall i j, in_grid n m i j ->
    get2 (for_loop2 0 n 0 m (fun i j a => set2 a i j x) a) i j = x.
Proof.
  intros Ha.
  destruct (for_loop2_cells matrix unit
              (fun a _ i j => get2 a i j)
              (fun a => dims a n m) (in_grid n m)
              (fun i j a => set2 a i j x)) with
      (ilo := 0%Z) (ihi := n) (jlo := 0%Z) (jhi := m) (s0 := a)
    as [Hok Hc].
  - intros i j s Hs. now apply dims_set2.
  - intros i j s _ i' j' Hne. now apply get2_set2_other.
  - intros i j s s0 Hs Hs0 Hij _ _.
    now rewrite !(get2_set2_same _ n m).
  - intros i j Hi Hj. split; assumption.
  - exact Ha.
  - split; [exact Hok|]. intros i j Hij.
    destruct (Hc tt i j) as [H1 _]. rewrite H1 by exact Hij.
    now apply (get2_set2_same _ n m).
Qed.

Lemma dims_nonneg_rows (a : matrix) (n m : Z) : dims a n m -> (0 <= n)%Z.
Proof. intros [H _]. lia. Qed.

Lemma Grid_fill_data (g : Grid) (x : R) :
  dims (data g) (nx g) (ny g) -> (0 <= ny g)%Z ->
  data (Grid_fill g x)
  = repeat (repeat x (Z.to_nat (ny g))) (Z.to_nat (nx g)).
Proof.
  intros Hd Hm. pose proof (dims_nonneg_rows _ _ _ Hd) as Hn.
  destruct (fill_loop_cells (data g) (nx g) (ny g) x Hd) as [H1 H2].
  apply (matrix_ext _ _ (nx g) (ny g)).
  - exact H1.
  - now apply dims_repeat.
  - intros i j Hij. unfold Grid_fill. cbn [data]. rewrite (H2 i j Hij).
    pose proof (get2_const (Z.to_nat (nx g)) (Z.to_nat (ny g)) x i j) as G.
    rewrite !Z2Nat.id in G by assumption. symmetry. now apply G.
Qed.

(** X14.  [Grid::fill(v)] on a grid whose array has the declared size
    leaves exactly [nx] rows of [ny] cells all equal to [v] and keeps the
    geometry; a second fill overrides the first. *)
Theorem X14_fill_sets_every_cell (g : Grid) (v w : R) :
  dims (data g) (nx g) (ny g) -> (0 <= ny g)%Z ->
  geom (Grid_fill g v) = geom g /\
  data (Grid_fill g v)
  = repeat (repeat v (Z.to_nat (ny g))) (Z.to_nat (nx g)) /\
  (forall i j, in_grid (nx g) (ny g) i j ->
               get2 (data (Grid_fill g v)) i j = v) /\
  Grid_fill (Grid_fill g v) w = Grid_fill g w.
Proof.
  intros Hd Hm. pose proof (dims_nonneg_rows _ _ _ Hd) as Hn.
  split; [reflexivity|]. split; [now apply Grid_fill_data|]. split.
  - intros i j Hij.
    destruct (fill_loop_cells (data g) (nx g) (ny g) v Hd) as [_ H2].
    exact (H2 i j Hij).
  - apply grid_ext; [reflexivity|].
    rewrite (Grid_fill_data g w Hd Hm).
    rewrite (Grid_fill_data (Grid_fill g v) w); [reflexivity| |exact Hm].
    rewrite (Grid_fill_data g v Hd Hm).
    now apply dims_repeat.
Qed.

Lemma X14_witness :
  (dims (data (const_grid 3 3 0.1 1)) (nx (const_grid 3 3 0.1 1))
        (ny (const_grid 3 3 0.1 1)) /\
   (0 <= ny (const_grid 3 3 0.1 1))%Z) /\
  let g := const_grid 3 3 0.1 1 in
  geom (Grid_fill g 2) = geom g /\
  data (Grid_fill g 2)
  = repeat (repeat 2 (Z.to_nat (ny g))) (Z.to_nat (nx g)) /\
  (forall i j, in_grid (nx g) (ny g) i j ->
               get2 (data (Grid_fill g 2)) i j = 2) /\
  Grid_fill (Grid_fill g 2) 5 = Grid_fill g 5.
Proof.
  assert (H1 : dims (data (const_grid 3 3 0.1 1)) (nx (const_grid 3 3 0.1 1))
                    (ny (const_grid 3 3 0.1 1))) by (apply dims_const).
  assert (H2 : (0 <= ny (const_grid 3 3 0.1 1))%Z) by (simpl; lia).
  split; [exact (conj H1 H2)|].
  exact (X14_fill_sets_every_cell (const_grid 3 3 0.1 1) 2 5 H1 H2).
Defined.

Lemma Grid_ctor_exn (n m : Z) (h k a b : R) (x : exn) :
  Grid_ctor n m h k a b = Throw x ->
  x = length_error \/ x = invalid_argument "Grid size must be at least 3x3".
Proof.
  unfold Grid_ctor, vector_fill.
  destruct (m <? 0)%Z; simpl; [intros E; inversion E; now left|].
  destruct (n <? 0)%Z; simpl; [intros E; inversion E; now left|].
  destruct ((n <? 3) || (m <? 3))%Z; intros E; inversion E. now right.
Qed.

(** X15.  The size check in the body of the [FlowField] constructor is
    never the one that fires: whenever the construction fails, the
    exception is the one of the first member [Grid] (the message
    [Grid size must be at least 3x3], or [std::length_error] for a
    negative size), never [FlowField grid must be at least 3x3]. *)
Theorem X15_flowfield_check_never_fires (n m : Z) (h k a b : R) (x : exn) :
  FlowField_ctor n m h k a b = Throw x ->
  Grid_ctor n m h k a b = Throw x /\
  (x = length_error \/
   x = invalid_argument "Grid size must be at least 3x3") /\
  x <> invalid_argument "FlowField grid must be at least 3x3".
Proof.
  intros E.
  assert (Hg : Grid_ctor n m h k a b = Throw x).
  { unfold FlowField_ctor in E.
    destruct (Grid_ctor n m h k a b) as [g|y] eqn:Eg.
    - exfalso. simpl in E.
      assert (Hn : (3 <= n)%Z /\ (3 <= m)%Z).
      { destruct (Z_lt_ge_dec n 3) as [Hlt|Hge].
        - destruct (Grid_ctor_throws n m h k a b (or_introl Hlt)) as [z Hz].
          congruence.
        - destruct (Z_lt_ge_dec m 3) as [Hlt|Hge'].
          + destruct (Grid_ctor_throws n m h k a b (or_intror Hlt)) as [z Hz].
            congruence.
          + lia. }
      replace ((n <? 3) || (m <? 3))%Z with false in E; [discriminate|].
      symmetry. apply orb_false_intro; apply Z.ltb_ge; lia.
    - simpl in E. inversion E. reflexivity. }
  split; [exact Hg|].
  pose proof (Grid_ctor_exn n m h k a b x Hg) as Hx.
  split; [exact Hx|].
  destruct Hx as [-> | ->]; discriminate.
Qed.

Lemma X15_witness :
  FlowField_ctor 2 5 1 1 0 0
  = Throw (invalid_argument "Grid size must be at least 3x3") /\
  Grid_ctor 2 5 1 1 0 0
  = Throw (invalid_argument "Grid size must be at least 3x3") /\
  (invalid_argument "Grid size must be at least 3x3" = length_error \/
   invalid_argument "Grid size must be at least 3x3"
   = invalid_argument "Grid size must be at least 3x3") /\
  invalid_argument "Grid size must be at least 3x3"
  <> invalid_argument "FlowField grid must be at least 3x3".
Proof.
  assert (H : FlowField_ctor 2 5 1 1 0 0
              = Throw (invalid_argument "Grid size must be at least 3x3"))
    by reflexivity.
  split; [exact H|].
  exact (X15_flowfield_check_never_fires 2 5 1 1 0 0 _ H).
Defined.

Lemma FlowField_ctor_ok (n m : Z) (h k a b : R) :
  (3 <= n)%Z -> (3 <= m)%Z ->
  FlowField_ctor n m h k a b =
  let g := mkGrid n m h k a b (zeros n m) in
  Ok (mkFlowField g g g g g g g g).
Proof.
  intros Hn Hm. unfold FlowField_ctor.
  rewrite !Grid_ctor_ok by assumption. simpl.
  replace ((n <? 3) || (m <? 3))%Z with false; [reflexivity|].
  symmetry. apply orb_false_intro; apply Z.ltb_ge; lia.
Qed.

(** X16.  [FlowField(const Grid&)] takes over the geometry of the grid but
    not its values: for a grid of at least 3 by 3 cells it succeeds, all
    eight fields have the geometry of the grid and hold zero in every
    cell, whatever the grid held, and the result is well formed. *)
Theorem X16_flowfield_from_grid_is_zeroed (g : Grid) :
  (3 <= nx g)%Z -> (3 <= ny g)%Z ->
  exists f,
    FlowField_of_Grid g = Ok f /\
    well_formed f /\
    (forall k, geom (fgrid k f) = geom g) /\
    (forall k i j, get2 (fproj k f) i j = 0).
Proof.
  intros Hn Hm. unfold FlowField_of_Grid.
  rewrite FlowField_ctor_ok by assumption. cbv zeta.
  eexists. split; [reflexivity|].
  split; [|split].
  - split.
    + unfold valid_flow. cbn [fl_rho nx ny].
      split; [exact Hn|]. split; [exact Hm|].
      intros k. destruct k; apply dims_zeros; lia.
    + intros k. destruct k; reflexivity.
  - intros k. destruct k; reflexivity.
  - intros k i j. destruct k; apply get2_zeros.
Qed.

Lemma X16_witness :
  ((3 <= nx (const_grid 3 3 0.1 7))%Z /\ (3 <= ny (const_grid 3 3 0.1 7))%Z) /\
  exists f,
    FlowField_of_Grid (const_grid 3 3 0.1 7) = Ok f /\
    well_formed f /\
    (forall k, geom (fgrid k f) = geom (const_grid 3 3 0.1 7)) /\
    (forall k i j, get2 (fproj k f) i j = 0).
Proof.
  assert (H1 : (3 <= nx (const_grid 3 3 0.1 7))%Z) by (simpl; lia).
  assert (H2 : (3 <= ny (const_grid 3 3 0.1 7))%Z) by (simpl; lia).
  split; [exact (conj H1 H2)|].
  exact (X16_flowfield_from_grid_is_zeroed (const_grid 3 3 0.1 7) H1 H2).
Defined.

(* ================================================================== *)
(** * Invariants of one call to [solve_MHD] *)

Lemma step_valid (flow : FlowField) (dt nu : R) :
  valid_flow flow -> valid_flow (step_with_dt flow dt nu).
Proof.
  intros Hv. pose proof Hv as (Hn & Hm & _).
  destruct (step_cells flow dt nu Hv) as [Hd _].
  pose proof (step_geom flow dt nu Frho) as G. unfold geom in G.
  cbn [fgrid] in G. inversion G as [[G1 G2 G3 G4 G5 G6]].
  unfold valid_flow. rewrite G1, G2.
  split; [exact Hn|]. split; [exact Hm|exact Hd].
Qed.

(** X17.  [solve_MHD] keeps a valid flow valid: the eight arrays keep the
    declared size and every grid keeps its geometry ([nx], [ny], [dx],
    [dy], [x0], [y0]), so the call can be repeated; a well-formed flow
    stays well formed. *)
Theorem X17_solve_keeps_flow_valid (flow : FlowField) (dt nu : R) :
  valid_flow flow ->
  valid_flow (fst (solve_MHD flow dt nu)) /\
  (forall k, geom (fgrid k (fst (solve_MHD flow dt nu)))
             = geom (fgrid k flow)) /\
  (same_geometry flow -> well_formed (fst (solve_MHD flow dt nu))).
Proof.
  intros Hv. rewrite solve_MHD_state.
  pose proof (step_valid flow (dt_used flow dt) nu Hv) as Hv'.
  split; [exact Hv'|]. split.
  - intros k. apply step_geom.
  - intros Hs. split; [exact Hv'|].
    intros k. rewrite step_geom, (Hs k).
    symmetry. exact (step_geom flow (dt_used flow dt) nu Frho).
Qed.

Lemma X17_witness :
  valid_flow (rest_flow 3 3 0.1 1 1 0 0) /\
  valid_flow (fst (solve_MHD (rest_flow 3 3 0.1 1 1 0 0) 0.1 0.01)) /\
  (forall k, geom (fgrid k (fst (solve_MHD (rest_flow 3 3 0.1 1 1 0 0)
                                           0.1 0.01)))
             = geom (fgrid k (rest_flow 3 3 0.1 1 1 0 0))) /\
  (same_geometry (rest_flow 3 3 0.1 1 1 0 0) ->
   well_formed (fst (solve_MHD (rest_flow 3 3 0.1 1 1 0 0) 0.1 0.01))).
Proof.
  assert (Hv : valid_flow (rest_flow 3 3 0.1 1 1 0 0))
    by (apply rest_flow_valid; lia).
  split; [exact Hv|].
  exact (X17_solve_keeps_flow_valid (rest_flow 3 3 0.1 1 1 0 0) 0.1 0.01 Hv).
Defined.

(** X18.  After [solve_MHD] the seven fields [rho], [u], [v], [p], [e],
    [bx], [by] are periodic: column [0] repeats column [nx-2], column
    [nx-1] repeats column [1], and likewise for the rows. *)
Theorem X18_seven_fields_periodic_after_step
        (flow : FlowField) (dt nu : R) (k : fsel) :
  let n := nx (fl_rho flow) in
  let m := ny (fl_rho flow) in
  let after := fst (solve_MHD flow dt nu) in
  valid_flow flow -> k <> Fpsi ->
  (forall j, (0 <= j < m)%Z ->
     get2 (fproj k after) 0 j = get2 (fproj k after) (n - 2) j /\
     get2 (fproj k after) (n - 1) j = get2 (fproj k after) 1 j) /\
  (forall i, (0 <= i < n)%Z ->
     get2 (fproj k after) i 0 = get2 (fproj k after) i (m - 2) /\
     get2 (fproj k after) i (m - 1) = get2 (fproj k after) i 1).
Proof.
  intros n m after Hv Hk.
  exact (step_periodic_six_fields flow dt nu k Hv Hk).
Qed.

Lemma X18_witness :
  (valid_flow (rest_flow 3 3 0.1 1 1 0 0) /\ Fe <> Fpsi) /\
  let flow := rest_flow 3 3 0.1 1 1 0 0 in
  let n := nx (fl_rho flow) in
  let m := ny (fl_rho flow) in
  let after := fst (solve_MHD flow 0.1 0) in
  (forall j, (0 <= j < m)%Z ->
     get2 (fproj Fe after) 0 j = get2 (fproj Fe after) (n - 2) j /\
     get2 (fproj Fe after) (n - 1) j = get2 (fproj Fe after) 1 j) /\
  (forall i, (0 <= i < n)%Z ->
     get2 (fproj Fe after) i 0 = get2 (fproj Fe after) i (m - 2) /\
     get2 (fproj Fe after) i (m - 1) = get2 (fproj Fe after) i 1).
Proof.
  assert (Hv : valid_flow (rest_flow 3 3 0.1 1 1 0 0))
    by (apply rest_flow_valid; lia).
  assert (Hk : Fe <> Fpsi) by discriminate.
  split; [exact (conj Hv Hk)|].
  exact (X18_seven_fields_periodic_after_step
           (rest_flow 3 3 0.1 1 1 0 0) 0.1 0 Fe Hv Hk).
Defined.

Lemma step_p_cell (flow : FlowField) (dt nu : R) (i j : Z) :
  valid_flow flow ->
  in_grid (nx (fl_rho flow)) (ny (fl_rho flow)) i j ->
  get2 (data (fl_p (step_with_dt flow dt nu))) i j
  = committed flow dt nu Fp (wrap (nx (fl_rho flow)) i)
              (wrap (ny (fl_rho flow)) j).
Proof.
  intros Hv Hij. destruct (step_cells flow dt nu Hv) as [_ Hc].
  destruct (Hc i j Hij) as [Hk _].
  exact (Hk Fp ltac:(discriminate)).
Qed.

(** X19.  For a valid state with positive density and pressure, after
    [solve_MHD] the pressure of every cell, boundary cells included, is at
    least [(gamma-1) * 1e-10], hence positive. *)
Theorem X19_pressure_floor (flow : FlowField) (dt nu : R) (i j : Z) :
  positive_state flow ->
  in_grid (nx (fl_rho flow)) (ny (fl_rho flow)) i j ->
  (gamma_gas - 1) * 1e-10
  <= get2 (data (fl_p (fst (solve_MHD flow dt nu)))) i j /\
  0 < get2 (data (fl_p (fst (solve_MHD flow dt nu)))) i j.
Proof.
  intros [Hv _] Hij. rewrite solve_MHD_state.
  rewrite (step_p_cell flow (dt_used flow dt) nu i j Hv Hij).
  assert (Hn : (3 <= nx (fl_rho flow))%Z) by apply Hv.
  assert (Hm : (3 <= ny (fl_rho flow))%Z) by apply Hv.
  destruct Hij as [Hi Hj].
  pose proof (wrap_in_range _ i Hn Hi). pose proof (wrap_in_range _ j Hm Hj).
  unfold committed. rewrite interiorb_true by (split; lia).
  unfold prim_cell. cbv zeta.
  match goal with |- context [Rmax ?a 1e-10] =>
    pose proof (Rmax_r a 1e-10) as Hr; remember (Rmax a 1e-10) as r eqn:Er;
    clear Er end.
  unfold gamma_gas. split; lra.
Qed.

(** The state [tiny_pressure_flow], whose pressure [1e-11] lies below the
    floor. *)
Lemma X19_witness :
  (positive_state tiny_pressure_flow /\ in_grid 3 3 0 2) /\
  (gamma_gas - 1) * 1e-10
  <= get2 (data (fl_p (fst (solve_MHD tiny_pressure_flow 0.1 0)))) 0 2 /\
  0 < get2 (data (fl_p (fst (solve_MHD tiny_pressure_flow 0.1 0)))) 0 2.
Proof.
  assert (Hg : in_grid 3 3 0 2) by (unfold in_grid; lia).
  split; [exact (conj tiny_pressure_positive Hg)|].
  exact (X19_pressure_floor tiny_pressure_flow 0.1 0 0 2
                            tiny_pressure_positive Hg).
Defined.

(** ** The viscosity argument *)

Lemma fold_left_ext {A B : Type} (f g : A -> B -> A) (l : list B) (a : A) :
  (forall x y, f x y = g x y) -> fold_left f l a = fold_left g l a.
Proof.
  intros H. revert a. induction l as [|y l IH]; intros a; simpl;
    [reflexivity|]. now rewrite H, IH.
Qed.

Lemma for_loop2_ext {S : Type} (ilo ihi jlo jhi : Z)
      (body1 body2 : Z -> Z -> S -> S) (s : S) :
  (forall i j x, body1 i j x = body2 i j x) ->
  for_loop2 ilo ihi jlo jhi body1 s = for_loop2 ilo ihi jlo jhi body2 s.
Proof.
  intros H. rewrite !for_loop2_idx2. apply fold_left_ext.
  intros x [i j]. apply H.
Qed.

Lemma update_cell_no_viscosity (flow : FlowField) (sx sy : Slopes)
      (dt nu : R) (i j : Z) (b : Bufs) :
  nu <= 0 ->
  update_cell flow sx sy dt nu i j b = update_cell flow sx sy dt 0 i j b.
Proof.
  intros Hnu. unfold update_cell.
  destruct (Rgt_dec nu 0) as [H|_]; [lra|].
  destruct (Rgt_dec 0 0) as [H|_]; [lra|].
  reflexivity.
Qed.

(** X20.  A viscosity that is zero or negative is ignored: for [nu <= 0]
    the state after [solve_MHD] is the one obtained with [nu = 0]. *)
Theorem X20_nonpositive_viscosity_ignored (flow : FlowField) (dt nu : R) :
  nu <= 0 ->
  fst (solve_MHD flow dt nu) = fst (solve_MHD flow dt 0).
Proof.
  intros Hnu. rewrite !solve_MHD_state.
  unfold step_with_dt, final_bufs. cbv zeta.
  rewrite (for_loop2_ext _ _ _ _
             (update_cell flow (compute_slopes_x flow) (compute_slopes_y flow)
                          (dt_used flow dt) nu)
             (update_cell flow (compute_slopes_x flow) (compute_slopes_y flow)
                          (dt_used flow dt) 0)).
  - reflexivity.
  - intros i j b. now apply update_cell_no_viscosity.
Qed.

Lemma X20_witness :
  -1 <= 0 /\
  fst (solve_MHD (rest_flow 3 3 0.1 1 1 0 0) 0.1 (-1))
  = fst (solve_MHD (rest_flow 3 3 0.1 1 1 0 0) 0.1 0).
Proof.
  assert (H : -1 <= 0) by lra.
  split; [exact H|].
  exact (X20_nonpositive_viscosity_ignored
           (rest_flow 3 3 0.1 1 1 0 0) 0.1 (-1) H).
Defined.

Lemma fsel_eq_psi (k : fsel) : k = Fpsi \/ k <> Fpsi.
Proof. destruct k; first [now left | right; discriminate]. Qed.

Lemma committed_no_viscosity (flow : FlowField) (dt nu1 nu2 : R)
      (k : fsel) (i j : Z) :
  k <> Fu -> k <> Fv -> k <> Fp ->
  committed flow dt nu1 k i j = committed flow dt nu2 k i j.
Proof.
  intros Hu Hv Hp. unfold committed.
  destruct (interiorb _ _ i j); [|reflexivity].
  destruct k; try contradiction; reflexivity.
Qed.

Lemma glm_psi_no_viscosity (flow : FlowField) (dt nu1 nu2 : R) (i j : Z) :
  glm_psi flow dt nu1 i j = glm_psi flow dt nu2 i j.
Proof. reflexivity. Qed.

(** X21.  The viscosity only acts on the velocity and the pressure: the
    fields [rho], [e], [bx], [by] and [psi] after [solve_MHD] are the same
    for every value of [nu]. *)
Theorem X21_viscosity_leaves_other_fields
        (flow : FlowField) (dt nu1 nu2 : R) (k : fsel) :
  valid_flow flow ->
  k <> Fu -> k <> Fv -> k <> Fp ->
  fgrid k (fst (solve_MHD flow dt nu1)) = fgrid k (fst (solve_MHD flow dt nu2)).
Proof.
  intros Hval Hu Hv Hp. rewrite !solve_MHD_state.
  set (d := dt_used flow dt).
  apply grid_ext.
  - now rewrite !step_geom.
  - destruct (step_cells flow d nu1 Hval) as [Hd1 Hc1].
    destruct (step_cells flow d nu2 Hval) as [Hd2 Hc2].
    apply (matrix_ext _ _ (nx (fl_rho flow)) (ny (fl_rho flow)));
      [exact (Hd1 k)|exact (Hd2 k)|].
    intros i j Hij.
    destruct (Hc1 i j Hij) as [Ha1 Hb1]. destruct (Hc2 i j Hij) as [Ha2 Hb2].
    destruct (fsel_eq_psi k) as [E|E].
    + subst k. change (get2 (fproj Fpsi (step_with_dt flow d nu1)) i j
                       = get2 (fproj Fpsi (step_with_dt flow d nu2)) i j).
      rewrite Hb1, Hb2. apply glm_psi_no_viscosity.
    + change (get2 (fproj k (step_with_dt flow d nu1)) i j
              = get2 (fproj k (step_with_dt flow d nu2)) i j).
      rewrite (Ha1 k E), (Ha2 k E). now apply committed_no_viscosity.
Qed.

Lemma X21_witness :
  (valid_flow (rest_flow 3 3 0.1 1 1 0 0) /\
   Fe <> Fu /\ Fe <> Fv /\ Fe <> Fp) /\
  fgrid Fe (fst (solve_MHD (rest_flow 3 3 0.1 1 1 0 0) 0.1 0.01))
  = fgrid Fe (fst (solve_MHD (rest_flow 3 3 0.1 1 1 0 0) 0.1 0.5)).
Proof.
  assert (Hv : valid_flow (rest_flow 3 3 0.1 1 1 0 0))
    by (apply rest_flow_valid; lia).
  assert (H1 : Fe <> Fu) by discriminate.
  assert (H2 : Fe <> Fv) by discriminate.
  assert (H3 : Fe <> Fp) by discriminate.
  split; [exact (conj Hv (conj H1 (conj H2 H3)))|].
  exact (X21_viscosity_leaves_other_fields
           (rest_flow 3 3 0.1 1 1 0 0) 0.1 0.01 0.5 Fe Hv H1 H2 H3).
Defined.

(** ** Mass balance and the GLM update away from the boundary *)

(** X22.  Mass balance of one step: when no density floor triggers, the
    sum of the density over the interior cells changes by exactly the
    mass fluxes through the outer faces of the interior region; all the
    fluxes through inner faces cancel in pairs. *)
Theorem X22_interior_mass_changes_by_outer_fluxes
        (flow : FlowField) (dt nu : R) :
  let n := nx (fl_rho flow) in
  let m := ny (fl_rho flow) in
  let d := dt_used flow dt in
  let Fx := fun i j => F_rho (flux_xp flow (compute_slopes_x flow) i j) in
  let Gy := fun i j => F_rho (flux_yp flow (compute_slopes_y flow) i j) in
  valid_flow flow ->
  no_density_floor flow dt ->
  interior_sum (data (fl_rho (fst (solve_MHD flow dt nu)))) n m
  = interior_sum (data (fl_rho flow)) n m
    - d / dx (fl_rho flow)
      * sum_over (range 1 (m - 1)) (fun j => Fx (n - 2)%Z j - Fx 0%Z j)
    - d / dy (fl_rho flow)
      * sum_over (range 1 (n - 1)) (fun i => Gy i (m - 2)%Z - Gy i 0%Z).
Proof.
  intros n m d Fx Gy Hv Hfl. rewrite solve_MHD_state.
  exact (mass_balance flow (dt_used flow dt) nu Hv Hfl).
Qed.

Lemma X22_witness :
  (valid_flow mass_flow /\ no_density_floor mass_flow 0.01) /\
  let flow := mass_flow in
  let n := nx (fl_rho flow) in
  let m := ny (fl_rho flow) in
  let d := dt_used flow 0.01 in
  let Fx := fun i j => F_rho (flux_xp flow (compute_slopes_x flow) i j) in
  let Gy := fun i j => F_rho (flux_yp flow (compute_slopes_y flow) i j) in
  interior_sum (data (fl_rho (fst (solve_MHD flow 0.01 0)))) n m
  = interior_sum (data (fl_rho flow)) n m
    - d / dx (fl_rho flow)
      * sum_over (range 1 (m - 1)) (fun j => Fx (n - 2)%Z j - Fx 0%Z j)
    - d / dy (fl_rho flow)
      * sum_over (range 1 (n - 1)) (fun i => Gy i (m - 2)%Z - Gy i 0%Z).
Proof.
  split; [exact (conj mass_flow_valid mass_no_floor)|].
  exact (X22_interior_mass_changes_by_outer_fluxes
           mass_flow 0.01 0 mass_flow_valid mass_no_floor).
Defined.

(** X23.  At least two cells away from the boundary the [psi] left by
    [solve_MHD] is the flux-updated [psi] minus [dt * CH^2] times the
    centered divergence of the new [bx], [by] of the state, minus the
    damping [dt * CR * psi]: there the temporary arrays and the final
    fields agree. *)
Theorem X23_psi_source_in_deep_interior
        (flow : FlowField) (dt nu : R) (i j : Z) :
  let n := nx (fl_rho flow) in
  let m := ny (fl_rho flow) in
  valid_flow flow ->
  (2 <= i < n - 2)%Z -> (2 <= j < m - 2)%Z ->
  get2 (data (fl_psi (fst (solve_MHD flow dt nu)))) i j
  = glm_psi_spec flow (dt_used flow dt) nu i j.
Proof.
  intros n m Hv Hi Hj. rewrite solve_MHD_state.
  exact (glm_psi_deep_interior flow (dt_used flow dt) nu i j Hv Hi Hj).
Qed.

Lemma X23_witness :
  (valid_flow (rest_flow 5 5 0.1 1 1 0 0) /\
   (2 <= 2 < nx (fl_rho (rest_flow 5 5 0.1 1 1 0 0)) - 2)%Z /\
   (2 <= 2 < ny (fl_rho (rest_flow 5 5 0.1 1 1 0 0)) - 2)%Z) /\
  get2 (data (fl_psi (fst (solve_MHD (rest_flow 5 5 0.1 1 1 0 0) 0.1 0))))
       2 2
  = glm_psi_spec (rest_flow 5 5 0.1 1 1 0 0)
                 (dt_used (rest_flow 5 5 0.1 1 1 0 0) 0.1) 0 2 2.
Proof.
  assert (Hv : valid_flow (rest_flow 5 5 0.1 1 1 0 0))
    by (apply rest_flow_valid; lia).
  assert (H1 : (2 <= 2 < nx (fl_rho (rest_flow 5 5 0.1 1 1 0 0)) - 2)%Z)
    by (simpl; lia).
  assert (H2 : (2 <= 2 < ny (fl_rho (rest_flow 5 5 0.1 1 1 0 0)) - 2)%Z)
    by (simpl; lia).
  split; [exact (conj Hv (conj H1 H2))|].
  exact (X23_psi_source_in_deep_interior
           (rest_flow 5 5 0.1 1 1 0 0) 0.1 0 2 2 Hv H1 H2).
Defined.

(* ================================================================== *)
(** * physics.cpp: the artificial divergence error *)

Lemma geom_fields (g h : Grid) :
  geom g = geom h ->
  nx g = nx h /\ ny g = ny h /\ dx g = dx h /\ dy g = dy h /\
  x0 g = x0 h /\ y0 g = y0 h.
Proof.
  unfold geom. intros H. inversion H. repeat split; assumption.
Qed.

Lemma add_divergence_frame (flow : FlowField) (amplitude : R) :
  let after := add_divergence_error flow amplitude in
  fl_rho after = fl_rho flow /\ fl_u after = fl_u flow /\
  fl_v after = fl_v flow /\ fl_p after = fl_p flow /\
  fl_e after = fl_e flow /\ fl_psi after = fl_psi flow /\
  geom (fl_bx after) = geom (fl_bx flow) /\
  geom (fl_by after) = geom (fl_by flow).
Proof.
  cbv zeta. unfold add_divergence_error.
  apply (for_loop2_inv
           (fun s => fl_rho s = fl_rho flow /\ fl_u s = fl_u flow /\
                     fl_v s = fl_v flow /\ fl_p s = fl_p flow /\
                     fl_e s = fl_e flow /\ fl_psi s = fl_psi flow /\
                     geom (fl_bx s) = geom (fl_bx flow) /\
                     geom (fl_by s) = geom (fl_by flow))).
  - intros i j s (H1 & H2 & H3 & H4 & H5 & H6 & H7 & H8).
    unfold add_divergence_cell. cbn [fl_rho fl_u fl_v fl_p fl_e fl_psi fl_bx fl_by].
    repeat (split; [assumption|]). exact H8.
  - repeat split.
Qed.

(** The two arrays [add_divergence_error] writes, selected by a boolean. *)
Lemma add_divergence_cells (flow : FlowField) (amplitude : R) :
  let n := nx (fl_bx flow) in
  let m := ny (fl_bx flow) in
  let after := add_divergence_error flow amplitude in
  dims (data (fl_bx flow)) n m -> dims (data (fl_by flow)) n m ->
  dims (data (fl_bx after)) n m /\ dims (data (fl_by after)) n m /\
  forall i j,
    get2 (data (fl_bx after)) i j
    = get2 (data (fl_bx flow)) i j
      + (if interiorb n m i j then amplitude * bump_x (fl_bx flow) i j
         else 0) /\
    get2 (data (fl_by after)) i j
    = get2 (data (fl_by flow)) i j
      + (if interiorb n m i j then amplitude * bump_y (fl_bx flow) i j
         else 0).
Proof.
  intros n m after Hbx Hby.
  set (view := fun (s : FlowField) (k : bool) i j =>
                 get2 (data (if k then fl_bx s else fl_by s)) i j).
  set (ok := fun s : FlowField =>
               dims (data (fl_bx s)) n m /\ dims (data (fl_by s)) n m /\
               geom (fl_bx s) = geom (fl_bx flow)).
  assert (Hcell : forall i j s, ok s -> in_grid n m i j ->
            forall k, view (add_divergence_cell amplitude i j s) k i j
                      = view s k i j
                        + amplitude * (if k then bump_x (fl_bx flow) i j
                                       else bump_y (fl_bx flow) i j)).
  { intros i j s (D1 & D2 & G) Hij k.
    destruct (geom_fields _ _ G) as (_ & _ & Gdx & Gdy & Gx0 & Gy0).
    unfold view, add_divergence_cell, bump_x, bump_y.
    destruct k; cbn [fl_bx fl_by data with_data];
      rewrite (get2_set2_same _ n m) by assumption;
      rewrite Gdx, Gdy, Gx0, Gy0; ring. }
  destruct (for_loop2_cells FlowField bool view ok (in_grid n m)
              (add_divergence_cell amplitude)) with
      (ilo := 1%Z) (ihi := (n - 1)%Z) (jlo := 1%Z) (jhi := (m - 1)%Z)
      (s0 := flow) as [Hok Hc].
  - intros i j s (D1 & D2 & G). unfold ok, add_divergence_cell.
    cbn [fl_bx fl_by data with_data].
    split; [now apply dims_set2|]. split; [now apply dims_set2|exact G].
  - intros i j s k i' j' Hne. unfold view, add_divergence_cell.
    destruct k; cbn [fl_bx fl_by data with_data];
      now apply get2_set2_other.
  - intros i j s s0 Hs Hs0 Hij Hview k.
    rewrite !Hcell by assumption. now rewrite Hview.
  - intros i j Hi Hj. unfold in_grid. lia.
  - split; [exact Hbx|]. split; [exact Hby|reflexivity].
  - unfold after, add_divergence_error. fold n m.
    destruct Hok as (D1 & D2 & _).
    split; [exact D1|]. split; [exact D2|].
    intros i j.
    destruct (Hc true i j) as [Ht1 Ht2]. destruct (Hc false i j) as [Hf1 Hf2].
    unfold view in Ht1, Ht2, Hf1, Hf2. cbv beta iota in Ht1, Ht2, Hf1, Hf2.
    destruct (interiorb n m i j) eqn:E.
    + apply interiorb_iff in E.
      rewrite (Ht1 E), (Hf1 E).
      pose proof (Hcell i j flow
                    (conj Hbx (conj Hby eq_refl))
                    (interior_in_grid _ _ _ _ E)) as Hv.
      split; [exact (Hv true)|exact (Hv false)].
    + assert (Hn : ~ ((1 <= i < n - 1)%Z /\ (1 <= j < m - 1)%Z)).
      { intros H. apply interiorb_iff in H. congruence. }
      rewrite (Ht2 Hn), (Hf2 Hn). split; ring.
Qed.

(** X24.  [add_divergence_error] changes nothing but the interior cells of
    [bx] and [by]: the other six fields, the geometry and the boundary
    cells of [bx] and [by] are untouched, and an interior cell [(i,j)]
    gains [amplitude * x * exp(-(x^2+y^2)/0.1)] in [bx] and the same with
    [y] as factor in [by], [x], [y] being the coordinates of the cell in
    the [bx] grid minus [0.5]. *)
Theorem X24_divergence_error_changes_interior_B_only
        (flow : FlowField) (amplitude : R) :
  let n := nx (fl_bx flow) in
  let m := ny (fl_bx flow) in
  let after := add_divergence_error flow amplitude in
  dims (data (fl_bx flow)) n m -> dims (data (fl_by flow)) n m ->
  (forall k, k <> Fbx -> k <> Fby -> fgrid k after = fgrid k flow) /\
  geom (fl_bx after) = geom (fl_bx flow) /\
  geom (fl_by after) = geom (fl_by flow) /\
  (forall i j, ~ interior n m i j ->
     get2 (data (fl_bx after)) i j = get2 (data (fl_bx flow)) i j /\
     get2 (data (fl_by after)) i j = get2 (data (fl_by flow)) i j) /\
  (forall i j, interior n m i j ->
     get2 (data (fl_bx after)) i j
     = get2 (data (fl_bx flow)) i j + amplitude * bump_x (fl_bx flow) i j /\
     get2 (data (fl_by after)) i j
     = get2 (data (fl_by flow)) i j + amplitude * bump_y (fl_bx flow) i j).
Proof.
  intros n m after Hbx Hby.
  destruct (add_divergence_frame flow amplitude)
    as (F1 & F2 & F3 & F4 & F5 & F6 & F7 & F8).
  destruct (add_divergence_cells flow amplitude Hbx Hby) as (_ & _ & Hc).
  fold n m after in Hc. fold after in F1, F2, F3, F4, F5, F6, F7, F8.
  split; [|split; [exact F7|split; [exact F8|split]]].
  - intros k Hk1 Hk2. destruct k; try contradiction; assumption.
  - intros i j Hint. destruct (Hc i j) as [H1 H2].
    rewrite (interiorb_false _ _ _ _ Hint) in H1, H2.
    rewrite H1, H2. split; ring.
  - intros i j Hint. destruct (Hc i j) as [H1 H2].
    rewrite (interiorb_true _ _ _ _ Hint) in H1, H2.
    split; assumption.
Qed.

Lemma X24_witness :
  (dims (data (fl_bx (rest_flow 3 3 0.1 1 1 0 0)))
        (nx (fl_bx (rest_flow 3 3 0.1 1 1 0 0)))
        (ny (fl_bx (rest_flow 3 3 0.1 1 1 0 0))) /\
   dims (data (fl_by (rest_flow 3 3 0.1 1 1 0 0)))
        (nx (fl_bx (rest_flow 3 3 0.1 1 1 0 0)))
        (ny (fl_bx (rest_flow 3 3 0.1 1 1 0 0)))) /\
  let flow := rest_flow 3 3 0.1 1 1 0 0 in
  let n := nx (fl_bx flow) in
  let m := ny (fl_bx flow) in
  let after := add_divergence_error flow default_amplitude in
  (forall k, k <> Fbx -> k <> Fby -> fgrid k after = fgrid k flow) /\
  geom (fl_bx after) = geom (fl_bx flow) /\
  geom (fl_by after) = geom (fl_by flow) /\
  (forall i j, ~ interior n m i j ->
     get2 (data (fl_bx after)) i j = get2 (data (fl_bx flow)) i j /\
     get2 (data (fl_by after)) i j = get2 (data (fl_by flow)) i j) /\
  (forall i j, interior n m i j ->
     get2 (data (fl_bx after)) i j
     = get2 (data (fl_bx flow)) i j
       + default_amplitude * bump_x (fl_bx flow) i j /\
     get2 (data (fl_by after)) i j
     = get2 (data (fl_by flow)) i j
       + default_amplitude * bump_y (fl_bx flow) i j).
Proof.
  assert (H1 : dims (data (fl_bx (rest_flow 3 3 0.1 1 1 0 0)))
                    (nx (fl_bx (rest_flow 3 3 0.1 1 1 0 0)))
                    (ny (fl_bx (rest_flow 3 3 0.1 1 1 0 0))))
    by apply dims_const.
  assert (H2 : dims (data (fl_by (rest_flow 3 3 0.1 1 1 0 0)))
                    (nx (fl_bx (rest_flow 3 3 0.1 1 1 0 0)))
                    (ny (fl_bx (rest_flow 3 3 0.1 1 1 0 0))))
    by apply dims_const.
  split; [exact (conj H1 H2)|].
  exact (X24_divergence_error_changes_interior_B_only
           (rest_flow 3 3 0.1 1 1 0 0) default_amplitude H1 H2).
Defined.

Lemma add_divergence_ext (flow f1 f2 : FlowField) (n m : Z) :
  (forall k, k <> Fbx -> k <> Fby -> fgrid k f1 = fgrid k f2) ->
  geom (fl_bx f1) = geom (fl_bx f2) -> geom (fl_by f1) = geom (fl_by f2) ->
  dims (data (fl_bx f1)) n m -> dims (data (fl_bx f2)) n m ->
  dims (data (fl_by f1)) n m -> dims (data (fl_by f2)) n m ->
  (forall i j, get2 (data (fl_bx f1)) i j = get2 (data (fl_bx f2)) i j /\
               get2 (data (fl_by f1)) i j = get2 (data (fl_by f2)) i j) ->
  f1 = f2.
Proof.
  intros Hk Gx Gy D1 D2 D3 D4 Hc. apply flow_ext. intros k.
  destruct k; try (apply Hk; discriminate).
  - apply grid_ext; [exact Gx|].
    apply (matrix_ext _ _ n m); try assumption.
    intros i j _. apply Hc.
  - apply grid_ext; [exact Gy|].
    apply (matrix_ext _ _ n m); try assumption.
    intros i j _. apply Hc.
Qed.

(** X25.  The divergence error is additive in its amplitude: applying it
    with amplitude [a1] and then with [a2] gives the state obtained with
    amplitude [a1 + a2], and amplitude [0] leaves the state as it is. *)
Theorem X25_divergence_error_additive (flow : FlowField) (a1 a2 : R) :
  let n := nx (fl_bx flow) in
  let m := ny (fl_bx flow) in
  dims (data (fl_bx flow)) n m -> dims (data (fl_by flow)) n m ->
  add_divergence_error (add_divergence_error flow a1) a2
  = add_divergence_error flow (a1 + a2) /\
  add_divergence_error flow 0 = flow.
Proof.
  intros n m Hbx Hby.
  destruct (add_divergence_frame flow a1)
    as (A1 & A2 & A3 & A4 & A5 & A6 & A7 & A8).
  destruct (add_divergence_cells flow a1 Hbx Hby) as (Ad1 & Ad2 & Ac).
  fold n m in Ad1, Ad2, Ac.
  set (f1 := add_divergence_error flow a1) in *.
  destruct (geom_fields _ _ A7) as (Gn & Gm & _).
  fold n in Gn. fold m in Gm.
  assert (Hbx1 : dims (data (fl_bx f1)) (nx (fl_bx f1)) (ny (fl_bx f1)))
    by (rewrite Gn, Gm; exact Ad1).
  assert (Hby1 : dims (data (fl_by f1)) (nx (fl_bx f1)) (ny (fl_bx f1)))
    by (rewrite Gn, Gm; exact Ad2).
  destruct (add_divergence_frame f1 a2)
    as (B1 & B2 & B3 & B4 & B5 & B6 & B7 & B8).
  destruct (add_divergence_cells f1 a2 Hbx1 Hby1) as (Bd1 & Bd2 & Bc).
  rewrite Gn, Gm in Bd1, Bd2, Bc.
  destruct (add_divergence_frame flow (a1 + a2))
    as (C1 & C2 & C3 & C4 & C5 & C6 & C7 & C8).
  destruct (add_divergence_cells flow (a1 + a2) Hbx Hby) as (Cd1 & Cd2 & Cc).
  fold n m in Cd1, Cd2, Cc.
  destruct (add_divergence_frame flow 0)
    as (Z1 & Z2 & Z3 & Z4 & Z5 & Z6 & Z7 & Z8).
  destruct (add_divergence_cells flow 0 Hbx Hby) as (Zd1 & Zd2 & Zc).
  fold n m in Zd1, Zd2, Zc.
  assert (Ebx : bump_x (fl_bx f1) = bump_x (fl_bx flow)).
  { destruct (geom_fields _ _ A7) as (_ & _ & E1 & E2 & E3 & E4).
    unfold bump_x. now rewrite E1, E2, E3, E4. }
  assert (Eby : bump_y (fl_bx f1) = bump_y (fl_bx flow)).
  { destruct (geom_fields _ _ A7) as (_ & _ & E1 & E2 & E3 & E4).
    unfold bump_y. now rewrite E1, E2, E3, E4. }
  split.
  - apply (add_divergence_ext flow _ _ n m); try assumption.
    + intros k Hk1 Hk2. destruct k; try contradiction; cbn [fgrid];
        congruence.
    + congruence.
    + congruence.
    + intros i j. destruct (Bc i j) as [P1 P2]. destruct (Ac i j) as [Q1 Q2].
      destruct (Cc i j) as [R1 R2].
      rewrite P1, P2, Q1, Q2, R1, R2, Ebx, Eby.
      destruct (interiorb n m i j); split; ring.
  - apply (add_divergence_ext flow _ _ n m); try assumption.
    + intros k Hk1 Hk2. destruct k; try contradiction; cbn [fgrid];
        assumption.
    + intros i j. destruct (Zc i j) as [P1 P2]. rewrite P1, P2.
      destruct (interiorb n m i j); split; ring.
Qed.

Lemma X25_witness :
  (dims (data (fl_bx (rest_flow 3 3 0.1 1 1 0 0)))
        (nx (fl_bx (rest_flow 3 3 0.1 1 1 0 0)))
        (ny (fl_bx (rest_flow 3 3 0.1 1 1 0 0))) /\
   dims (data (fl_by (rest_flow 3 3 0.1 1 1 0 0)))
        (nx (fl_bx (rest_flow 3 3 0.1 1 1 0 0)))
        (ny (fl_bx (rest_flow 3 3 0.1 1 1 0 0)))) /\
  add_divergence_error
    (add_divergence_error (rest_flow 3 3 0.1 1 1 0 0) 0.1) 0.2
  = add_divergence_error (rest_flow 3 3 0.1 1 1 0 0) (0.1 + 0.2) /\
  add_divergence_error (rest_flow 3 3 0.1 1 1 0 0) 0
  = rest_flow 3 3 0.1 1 1 0 0.
Proof.
  assert (H1 : dims (data (fl_bx (rest_flow 3 3 0.1 1 1 0 0)))
                    (nx (fl_bx (rest_flow 3 3 0.1 1 1 0 0)))
                    (ny (fl_bx (rest_flow 3 3 0.1 1 1 0 0))))
    by apply dims_const.
  assert (H2 : dims (data (fl_by (rest_flow 3 3 0.1 1 1 0 0)))
                    (nx (fl_bx (rest_flow 3 3 0.1 1 1 0 0)))
                    (ny (fl_bx (rest_flow 3 3 0.1 1 1 0 0))))
    by apply dims_const.
  split; [exact (conj H1 H2)|].
  exact (X25_divergence_error_additive
           (rest_flow 3 3 0.1 1 1 0 0) 0.1 0.2 H1 H2).
Defined.

(* ================================================================== *)
(** * physics.cpp: the Orszag-Tang initial state *)

Lemma orszag_tang_geom (M_PI : R) (flow : FlowField) (k : fsel) :
  geom (fgrid k (initialize_orszag_tang M_PI flow)) = geom (fgrid k flow).
Proof.
  revert k. unfold initialize_orszag_tang.
  apply (for_loop2_inv
           (fun s => forall k, geom (fgrid k s) = geom (fgrid k flow))).
  - intros i j s Hs k. rewrite <- (Hs k). destruct k; reflexivity.
  - reflexivity.
Qed.

Lemma orszag_tang_cells (M_PI : R) (flow : FlowField) :
  let n := nx (fl_rho flow) in
  let m := ny (fl_rho flow) in
  let after := initialize_orszag_tang M_PI flow in
  valid_flow flow ->
  flow_dims after n m /\
  forall k i j, in_grid n m i j ->
    get2 (fproj k after) i j = ot_value M_PI n m k i j.
Proof.
  intros n m after (Hn & Hm & Hd). fold n m in Hn, Hm, Hd.
  set (ok := fun s : FlowField =>
               flow_dims s n m /\ nx (fl_rho s) = n /\ ny (fl_rho s) = m).
  assert (Hcell : forall i j s, ok s -> in_grid n m i j ->
            forall k, get2 (fproj k (orszag_tang_cell M_PI i j s)) i j
                      = ot_value M_PI n m k i j).
  { intros i j s (Ds & En & Em) Hij k.
    unfold fproj, orszag_tang_cell, ot_value. rewrite En, Em.
    destruct k; cbn [fgrid fl_rho fl_u fl_v fl_p fl_e fl_bx fl_by fl_psi
                     data with_data];
      rewrite (get2_set2_same _ n m) by (auto; fdims_of Ds);
      reflexivity. }
  destruct (for_loop2_cells FlowField fsel
              (fun s k i j => get2 (fproj k s) i j) ok (in_grid n m)
              (orszag_tang_cell M_PI)) with
      (ilo := 0%Z) (ihi := n) (jlo := 0%Z) (jhi := m) (s0 := flow)
    as [Hok Hc].
  - intros i j s (Ds & En & Em). split; [|split; assumption].
    intros k. unfold fproj, orszag_tang_cell.
    destruct k; cbn [fgrid fl_rho fl_u fl_v fl_p fl_e fl_bx fl_by fl_psi
                     data with_data];
      apply dims_set2; fdims_of Ds.
  - intros i j s k i' j' Hne. unfold fproj, orszag_tang_cell.
    destruct k; cbn [fgrid fl_rho fl_u fl_v fl_p fl_e fl_bx fl_by fl_psi
                     data with_data];
      now apply get2_set2_other.
  - intros i j s s0 Hs Hs0 Hij _ k. now rewrite !Hcell.
  - intros i j Hi Hj. split; assumption.
  - split; [exact Hd|]. split; reflexivity.
  - unfold after, initialize_orszag_tang. fold n m.
    split; [exact (proj1 Hok)|]. intros k i j Hij.
    destruct (Hc k i j) as [H1 _]. rewrite H1 by exact Hij.
    apply Hcell; [|exact Hij]. split; [exact Hd|]. split; reflexivity.
Qed.

Lemma orszag_tang_valid (M_PI : R) (flow : FlowField) :
  valid_flow flow -> valid_flow (initialize_orszag_tang M_PI flow).
Proof.
  intros Hv. pose proof Hv as (Hn & Hm & _).
  destruct (orszag_tang_cells M_PI flow Hv) as [Hd _].
  destruct (geom_fields _ _ (orszag_tang_geom M_PI flow Frho))
    as (G1 & G2 & _).
  cbn [fgrid] in G1, G2.
  unfold valid_flow. rewrite G1, G2.
  split; [exact Hn|]. split; [exact Hm|exact Hd].
Qed.

(** X26.  [initialize_orszag_tang] overwrites every cell of every field,
    whatever the flow held: density and pressure are [5/3], [psi] is [0],
    the velocity is [(-sin(2 pi y), sin(2 pi x))] and the field
    [(-B0 sin(2 pi y), B0 sin(4 pi x))] with [x = i/(nx-1)],
    [y = j/(ny-1)], [B0 = 1/sqrt(4 pi)]; the total energy stored matches
    the solver's equation of state, [(gamma-1)*(e - kinetic - magnetic)]
    being the pressure; the flow stays valid with the same geometry. *)
Theorem X26_orszag_tang_state (M_PI : R) (flow : FlowField) (i j : Z) :
  let n := nx (fl_rho flow) in
  let m := ny (fl_rho flow) in
  let after := initialize_orszag_tang M_PI flow in
  let cell := fun k => get2 (fproj k after) i j in
  valid_flow flow -> in_grid n m i j ->
  valid_flow after /\
  (forall k, geom (fgrid k after) = geom (fgrid k flow)) /\
  (forall k, cell k = ot_value M_PI n m k i j) /\
  cell Frho = 5 / 3 /\ cell Fp = 5 / 3 /\ cell Fpsi = 0 /\
  (gamma_gas - 1)
  * (cell Fe - 0.5 * cell Frho * (cell Fu * cell Fu + cell Fv * cell Fv)
     - 0.5 * (cell Fbx * cell Fbx + cell Fby * cell Fby))
  = cell Fp.
Proof.
  intros n m after cell Hv Hij.
  destruct (orszag_tang_cells M_PI flow Hv) as [_ Hc].
  fold n m after in Hc.
  assert (Hk : forall k, cell k = ot_value M_PI n m k i j)
    by (intros k; apply Hc; exact Hij).
  split; [now apply orszag_tang_valid|].
  split; [intros k; apply orszag_tang_geom|].
  split; [exact Hk|].
  rewrite !Hk. unfold ot_value. cbv zeta.
  split; [reflexivity|]. split; [reflexivity|]. split; [reflexivity|].
  unfold gamma_gas.
  remember (sin (2 * M_PI * (IZR j / IZR (m - 1)))) as sy eqn:E1. clear E1.
  remember (sin (2 * M_PI * (IZR i / IZR (n - 1)))) as sx eqn:E2. clear E2.
  remember (sin (4 * M_PI * (IZR i / IZR (n - 1)))) as s4 eqn:E3. clear E3.
  remember (1 / sqrt (4 * M_PI)) as B0 eqn:E4. clear E4.
  replace (5 / 3 / (5 / 3 - 1)) with (5 / 2) by lra.
  lra.
Qed.

Lemma X26_witness :
  (valid_flow (rest_flow 3 3 0.5 1 1 0 0) /\ in_grid 3 3 1 2) /\
  let flow := rest_flow 3 3 0.5 1 1 0 0 in
  let n := nx (fl_rho flow) in
  let m := ny (fl_rho flow) in
  let after := initialize_orszag_tang PI flow in
  let cell := fun k => get2 (fproj k after) 1 2 in
  valid_flow after /\
  (forall k, geom (fgrid k after) = geom (fgrid k flow)) /\
  (forall k, cell k = ot_value PI n m k 1 2) /\
  cell Frho = 5 / 3 /\ cell Fp = 5 / 3 /\ cell Fpsi = 0 /\
  (gamma_gas - 1)
  * (cell Fe - 0.5 * cell Frho * (cell Fu * cell Fu + cell Fv * cell Fv)
     - 0.5 * (cell Fbx * cell Fbx + cell Fby * cell Fby))
  = cell Fp.
Proof.
  assert (Hv : valid_flow (rest_flow 3 3 0.5 1 1 0 0))
    by (apply rest_flow_valid; lia).
  assert (Hg : in_grid 3 3 1 2) by (unfold in_grid; lia).
  split; [exact (conj Hv Hg)|].
  exact (X26_orszag_tang_state PI (rest_flow 3 3 0.5 1 1 0 0) 1 2 Hv Hg).
Defined.

Lemma orszag_tang_divB (M_PI : R) (flow : FlowField) (i j : Z) :
  well_formed flow ->
  interior (nx (fl_rho flow)) (ny (fl_rho flow)) i j ->
  divB_at (initialize_orszag_tang M_PI flow) i j = 0.
Proof.
  intros [Hv Hs] Hint.
  destruct (orszag_tang_cells M_PI flow Hv) as [_ Hc].
  set (n := nx (fl_rho flow)) in *. set (m := ny (fl_rho flow)) in *.
  assert (G : forall a b, (i - 1 <= a <= i + 1)%Z -> (j - 1 <= b <= j + 1)%Z ->
                          in_grid n m a b).
  { intros a b Ha Hb. destruct Hint. unfold in_grid. lia. }
  unfold divB_at. cbv zeta.
  rewrite (Hc Fbx (i + 1)%Z j ltac:(apply G; lia)
           : get2 (data (fl_bx (initialize_orszag_tang M_PI flow))) (i + 1) j
             = _).
  rewrite (Hc Fbx (i - 1)%Z j ltac:(apply G; lia)
           : get2 (data (fl_bx (initialize_orszag_tang M_PI flow))) (i - 1) j
             = _).
  rewrite (Hc Fby i (j + 1)%Z ltac:(apply G; lia)
           : get2 (data (fl_by (initialize_orszag_tang M_PI flow))) i (j + 1)
             = _).
  rewrite (Hc Fby i (j - 1)%Z ltac:(apply G; lia)
           : get2 (data (fl_by (initialize_orszag_tang M_PI flow))) i (j - 1)
             = _).
  unfold ot_value. cbv zeta. unfold Rdiv. ring.
Qed.

(** X27.  The Orszag-Tang state is free of divergence for the diagnostics:
    [bx] depends on the row only and [by] on the column only, so the
    centered divergence vanishes in every interior cell and
    [compute_divergence_errors] returns [(0, 0)], whatever value [M_PI]
    has. *)
Theorem X27_orszag_tang_divergence_free (M_PI : R) (flow : FlowField) :
  well_formed flow ->
  compute_divergence_errors (initialize_orszag_tang M_PI flow) = (0, 0).
Proof.
  intros Hw. apply divergence_zero. intros i j Hint.
  apply orszag_tang_divB; [exact Hw|].
  destruct Hw as [Hv Hs].
  destruct (geom_fields _ _ (orszag_tang_geom M_PI flow Fbx))
    as (G1 & G2 & _).
  destruct (geom_fields _ _ (Hs Fbx)) as (G3 & G4 & _).
  cbn [fgrid] in G1, G2, G3, G4.
  rewrite G1, G2, G3, G4 in Hint. exact Hint.
Qed.

Lemma rest_flow_well_formed (n m : nat) (h rho0 p0 bx0 by0 : R) :
  (3 <= n)%nat -> (3 <= m)%nat ->
  well_formed (rest_flow n m h rho0 p0 bx0 by0).
Proof.
  intros Hn Hm. split; [now apply rest_flow_valid|].
  intros k. destruct k; reflexivity.
Qed.

Lemma X27_witness :
  well_formed (rest_flow 3 3 0.5 1 1 0 0) /\
  compute_divergence_errors
    (initialize_orszag_tang PI (rest_flow 3 3 0.5 1 1 0 0)) = (0, 0).
Proof.
  assert (Hw : well_formed (rest_flow 3 3 0.5 1 1 0 0))
    by (apply rest_flow_well_formed; lia).
  split; [exact Hw|].
  exact (X27_orszag_tang_divergence_free PI (rest_flow 3 3 0.5 1 1 0 0) Hw).
Defined.

Lemma positive_state_timestep (flow : FlowField) :
  positive_state flow ->
  0 < compute_cfl_timestep flow default_cfl_number.
Proof.
  intros (Hv & Hx & Hy & Hpos).
  apply cfl_timestep_pos; try assumption.
  - unfold default_cfl_number. lra.
  - intros i j Hint. apply interior_in_grid in Hint.
    destruct (Hpos i j Hint). apply cell_dt_pos; assumption.
Qed.

Lemma start_up_state (M_PI : R) (n m : Z) (h k a b : R) (f : FlowField) :
  FlowField_ctor n m h k a b = Ok f ->
  0 < h -> 0 < k ->
  well_formed (initialize_orszag_tang M_PI f) /\
  positive_state (initialize_orszag_tang M_PI f).
Proof.
  intros Hf Hh Hk. set (flow := initialize_orszag_tang M_PI f).
  assert (Hnm : (3 <= n)%Z /\ (3 <= m)%Z).
  { destruct (Z_lt_ge_dec n 3) as [Hlt|Hge].
    - exfalso.
      destruct (Grid_ctor_throws n m h k a b (or_introl Hlt)) as [z Hz].
      unfold FlowField_ctor in Hf. rewrite Hz in Hf. discriminate.
    - destruct (Z_lt_ge_dec m 3) as [Hlt|Hge'].
      + exfalso.
        destruct (Grid_ctor_throws n m h k a b (or_intror Hlt)) as [z Hz].
        unfold FlowField_ctor in Hf. rewrite Hz in Hf. discriminate.
      + lia. }
  destruct Hnm as [Hn Hm].
  rewrite (FlowField_ctor_ok n m h k a b Hn Hm) in Hf. cbv zeta in Hf.
  inversion Hf as [Ef]. clear Hf.
  assert (Hv : valid_flow f).
  { rewrite <- Ef. unfold valid_flow. cbn [fl_rho nx ny].
    split; [exact Hn|]. split; [exact Hm|].
    intros s. destruct s; apply dims_zeros; lia. }
  assert (Hs : same_geometry f).
  { rewrite <- Ef. intros s. destruct s; reflexivity. }
  assert (Hdx : dx (fl_rho f) = h) by (rewrite <- Ef; reflexivity).
  assert (Hdy : dy (fl_rho f) = k) by (rewrite <- Ef; reflexivity).
  clear Ef.
  pose proof (orszag_tang_valid M_PI f Hv) as Hv'. fold flow in Hv'.
  destruct (orszag_tang_cells M_PI f Hv) as [_ Hc]. fold flow in Hc.
  destruct (geom_fields _ _ (orszag_tang_geom M_PI f Frho))
    as (G1 & G2 & G3 & G4 & _).
  fold flow in G1, G2, G3, G4. cbn [fgrid] in G1, G2, G3, G4.
  split.
  - split; [exact Hv'|]. intros s. unfold flow.
    rewrite (orszag_tang_geom M_PI f s), (Hs s).
    symmetry. exact (orszag_tang_geom M_PI f Frho).
  - split; [exact Hv'|]. rewrite G1, G2, G3, G4, Hdx, Hdy.
    split; [exact Hh|]. split; [exact Hk|].
    intros i j Hij.
    rewrite (Hc Frho i j Hij : get2 (data (fl_rho flow)) i j = _).
    rewrite (Hc Fp i j Hij : get2 (data (fl_p flow)) i j = _).
    unfold ot_value. split; lra.
Qed.

(** X28.  The start-up sequence of the program: a [FlowField] built by its
    constructor with positive spacings and initialised by
    [initialize_orszag_tang] is well formed, has positive density and
    pressure in every cell and gets a positive CFL timestep, so the first
    call to [solve_MHD] with a positive [dt] advances by a positive time
    of at most [dt]. *)
Theorem X28_constructed_orszag_tang_has_positive_timestep
        (M_PI : R) (n m : Z) (h k a b dt : R) (f : FlowField) :
  FlowField_ctor n m h k a b = Ok f ->
  0 < h -> 0 < k -> 0 < dt ->
  let flow := initialize_orszag_tang M_PI f in
  well_formed flow /\ positive_state flow /\
  0 < compute_cfl_timestep flow default_cfl_number /\
  0 < dt_used flow dt <= dt.
Proof.
  intros Hf Hh Hk Hdt flow.
  destruct (start_up_state M_PI n m h k a b f Hf Hh Hk) as [Hw Hp].
  fold flow in Hw, Hp.
  pose proof (positive_state_timestep flow Hp) as Hpos.
  split; [exact Hw|]. split; [exact Hp|]. split; [exact Hpos|].
  apply dt_used_bounds; assumption.
Qed.

Lemma X28_witness :
  (FlowField_ctor 64 64 (1 / IZR (64 - 1)) (1 / IZR (64 - 1)) 0 0
   = Ok (let g := mkGrid 64 64 (1 / IZR (64 - 1)) (1 / IZR (64 - 1)) 0 0
                         (zeros 64 64) in
         mkFlowField g g g g g g g g) /\
   0 < 1 / IZR (64 - 1) /\ 0 < 1 / IZR (64 - 1) /\ 0 < 1) /\
  let flow :=
    initialize_orszag_tang PI
      (let g := mkGrid 64 64 (1 / IZR (64 - 1)) (1 / IZR (64 - 1)) 0 0
                       (zeros 64 64) in
       mkFlowField g g g g g g g g) in
  well_formed flow /\ positive_state flow /\
  0 < compute_cfl_timestep flow default_cfl_number /\
  0 < dt_used flow 1 <= 1.
Proof.
  assert (H1 : FlowField_ctor 64 64 (1 / IZR (64 - 1)) (1 / IZR (64 - 1)) 0 0
               = Ok (let g := mkGrid 64 64 (1 / IZR (64 - 1))
                                     (1 / IZR (64 - 1)) 0 0 (zeros 64 64) in
                     mkFlowField g g g g g g g g))
    by (apply FlowField_ctor_ok; lia).
  assert (H2 : 0 < 1 / IZR (64 - 1)).
  { apply Rdiv_lt_0_compat; [lra|]. apply IZR_lt. lia. }
  assert (H3 : 0 < 1) by lra.
  split; [exact (conj H1 (conj H2 (conj H2 H3)))|].
  exact (X28_constructed_orszag_tang_has_positive_timestep
           PI 64 64 (1 / IZR (64 - 1)) (1 / IZR (64 - 1)) 0 0 1 _
           H1 H2 H2 H3).
Defined.

(* ================================================================== *)
(** * main.cpp: the time loop *)

Lemma loop_dt_le_cfl (flow : FlowField) (t t_end : R) :
  loop_dt flow t t_end <= compute_cfl_timestep flow default_cfl_number.
Proof.
  unfold loop_dt. cbv zeta.
  destruct (Rgt_dec _ _) as [H|H]; lra.
Qed.

Lemma loop_dt_bounds (flow : FlowField) (t t_end : R) :
  t < t_end -> 0 < compute_cfl_timestep flow default_cfl_number ->
  0 < loop_dt flow t t_end /\ t + loop_dt flow t t_end <= t_end.
Proof.
  intros Ht Hc. unfold loop_dt. cbv zeta.
  destruct (Rgt_dec _ _) as [H|H]; split; lra.
Qed.

(** X29.  In the time loop of [main] the timestep handed to [solve_MHD] is
    never clamped again: it is at most the CFL timestep of the current
    state, so the time added to [t] is the time the solver advances by;
    and [t] never passes [t_end]. *)
Theorem X29_loop_timestep_is_the_one_used (flow : FlowField) (t t_end : R) :
  loop_dt flow t t_end <= compute_cfl_timestep flow default_cfl_number /\
  dt_used flow (loop_dt flow t t_end) = loop_dt flow t t_end /\
  (t <= t_end -> t + loop_dt flow t t_end <= t_end).
Proof.
  pose proof (loop_dt_le_cfl flow t t_end) as H.
  split; [exact H|]. split.
  - unfold dt_used. apply Rmin_left. exact H.
  - intros Ht. unfold loop_dt. cbv zeta.
    destruct (Rgt_dec _ _) as [H1|H1]; lra.
Qed.

Lemma solve_positive_state (flow : FlowField) (dt nu : R) :
  positive_state flow ->
  positive_state (fst (solve_MHD flow dt nu)).
Proof.
  intros (Hv & Hx & Hy & _). rewrite solve_MHD_state.
  set (d := dt_used flow dt).
  pose proof (step_valid flow d nu Hv) as Hv'.
  destruct (geom_fields _ _ (step_geom flow d nu Frho))
    as (G1 & G2 & G3 & G4 & _).
  cbn [fgrid] in G1, G2, G3, G4.
  split; [exact Hv'|]. rewrite G1, G2, G3, G4.
  split; [exact Hx|]. split; [exact Hy|].
  intros i j Hij.
  rewrite (step_rho_cell flow d nu i j Hv Hij).
  rewrite (step_p_cell flow d nu i j Hv Hij).
  assert (Hn : (3 <= nx (fl_rho flow))%Z) by apply Hv.
  assert (Hm : (3 <= ny (fl_rho flow))%Z) by apply Hv.
  destruct Hij as [Hi Hj].
  pose proof (wrap_in_range _ i Hn Hi). pose proof (wrap_in_range _ j Hm Hj).
  unfold committed. rewrite interiorb_true by (split; lia).
  unfold prim_cell, new_rho. cbv zeta. split.
  - match goal with |- 0 < Rmax ?a 1e-10 =>
      pose proof (Rmax_r a 1e-10) end. lra.
  - match goal with |- context [Rmax ?a 1e-10] =>
      pose proof (Rmax_r a 1e-10) as Hr; remember (Rmax a 1e-10) as r eqn:Er;
      clear Er end.
    unfold gamma_gas. lra.
Qed.

Lemma time_loop_invariants (passes : nat) (nu t_end : R) :
  forall (flow : FlowField) (t : R),
    positive_state flow -> t <= t_end ->
    positive_state (fst (time_loop passes nu t_end flow t)) /\
    t <= snd (time_loop passes nu t_end flow t) <= t_end /\
    ((0 < passes)%nat -> t < t_end ->
     t < snd (time_loop passes nu t_end flow t)).
Proof.
  induction passes as [|k IH]; intros flow t Hp Ht.
  - simpl. split; [exact Hp|]. split; [lra|]. intros H. lia.
  - cbn [time_loop]. destruct (Rlt_dec t t_end) as [Hlt|Hge].
    + cbv zeta.
      pose proof (positive_state_timestep flow Hp) as Hc.
      destruct (loop_dt_bounds flow t t_end Hlt Hc) as [Hd1 Hd2].
      pose proof (solve_positive_state flow (loop_dt flow t t_end) nu Hp)
        as Hp'.
      destruct (IH _ _ Hp' Hd2) as (I1 & I2 & _).
      split; [exact I1|]. split; [lra|]. intros _ _. lra.
    + simpl. split; [exact Hp|]. split; [lra|]. intros _ H. lra.
Qed.

(** X30.  Invariants of the time loop of [main]: started from a valid
    state with positive spacings, density and pressure at a time not
    beyond [t_end], the loop ends, after any number of passes, in a state
    of the same kind, at a time that has not decreased and does not
    exceed [t_end]; if at least one pass is allowed and [t < t_end], time
    has strictly advanced. *)
Theorem X30_time_loop_advances_within_bounds
        (passes : nat) (nu t_end : R) (flow : FlowField) (t : R) :
  positive_state flow -> t <= t_end ->
  positive_state (fst (time_loop passes nu t_end flow t)) /\
  t <= snd (time_loop passes nu t_end flow t) <= t_end /\
  ((0 < passes)%nat -> t < t_end ->
   t < snd (time_loop passes nu t_end flow t)).
Proof.
  intros Hp Ht. now apply time_loop_invariants.
Qed.

(** The run of [main]: 64 by 64 cells of spacing [1/63] with the
    Orszag-Tang values, from [t = 0] to [t_end = 20] in at most 2001
    passes with [nu = 0.01]. *)
Lemma X30_witness :
  (positive_state
     (initialize_orszag_tang PI
        (let g := mkGrid 64 64 (1 / IZR (64 - 1)) (1 / IZR (64 - 1)) 0 0
                         (zeros 64 64) in
         mkFlowField g g g g g g g g)) /\ 0 <= 20) /\
  let flow :=
    initialize_orszag_tang PI
      (let g := mkGrid 64 64 (1 / IZR (64 - 1)) (1 / IZR (64 - 1)) 0 0
                       (zeros 64 64) in
       mkFlowField g g g g g g g g) in
  positive_state (fst (time_loop 2001 0.01 20 flow 0)) /\
  0 <= snd (time_loop 2001 0.01 20 flow 0) <= 20 /\
  ((0 < 2001)%nat -> 0 < 20 ->
   0 < snd (time_loop 2001 0.01 20 flow 0)).
Proof.
  assert (H0 : 0 < 1 / IZR (64 - 1)).
  { apply Rdiv_lt_0_compat; [lra|]. apply IZR_lt. lia. }
  assert (H1 : positive_state
                 (initialize_orszag_tang PI
                    (let g := mkGrid 64 64 (1 / IZR (64 - 1))
                                     (1 / IZR (64 - 1)) 0 0 (zeros 64 64) in
                     mkFlowField g g g g g g g g))).
  { apply (start_up_state PI 64 64 (1 / IZR (64 - 1)) (1 / IZR (64 - 1)) 0 0);
      [apply FlowField_ctor_ok; lia|exact H0|exact H0]. }
  assert (H2 : 0 <= 20) by lra.
  split; [exact (conj H1 H2)|].
  exact (X30_time_loop_advances_within_bounds 2001 0.01 20 _ 0 H1 H2).
Defined.
